(** * Batch normalisation from scratch: the notebook's [pure_batch_norm] and
    [batch_norm], and the model, loss, optimizer and metric built around
    them, embedded over a model of the [mxnet.ndarray] operations they call.

    Source: chapter04_convolutional-neural-networks/cnn-batch-norm-scratch.ipynb
    (code cells 3 and 8; cells 9, 11 to 14 and 16 to 18 for the rest of the
    notebook).

    Layout of the development:
    - [Scalar]: the arithmetic on array elements, kept abstract so that the
      structural results hold for any element arithmetic; its instances are
      the real numbers and [float32], the binary32 numbers of the arrays;
      [Signs] adds the signs of the scalars, for both;
    - [nd]: arrays as a shape and a row-major buffer, with broadcasting,
      reduction, reshape and the elementwise operators;
    - the Python side: exceptions, the two module-level dictionaries, and the
      two functions, line by line;
    - [Elementary] and [ndarray]: the further element operations and array
      operators of the rest of the notebook, then [relu], [softmax],
      [softmax_cross_entropy], [net], [SGD] and [evaluate_accuracy];
    - the properties. *)

From Stdlib Require Import List Arith Lia String Ascii Reals Lra ZArith.
From Stdlib Require Floats.SpecFloat.
From stdpp Require Import base option list gmap strings.

(** ** Element arithmetic *)

(** The operations the notebook applies to array elements.  [fof_nat] turns the
    number of reduced elements into a scalar (the divisor of [nd.mean]);
    [fpow x n] is [x ** n].  The one law asked of them holds of the reals and
    of IEEE 754 arithmetic alike. *)
Class Scalar (F : Type) := {
  fzero : F;
  fone : F;
  fadd : F → F → F;
  fsub : F → F → F;
  fmul : F → F → F;
  fdiv : F → F → F;
  fsqrt : F → F;
  fpow : F → nat → F;
  fof_nat : nat → F;
  (** multiplying by the literal [1.0] is exact *)
  fmul_1_r : ∀ x : F, fmul x fone = x
}.

Declare Scope scalar_scope.
Delimit Scope scalar_scope with sc.
Notation "x + y" := (fadd x y) : scalar_scope.
Notation "x - y" := (fsub x y) : scalar_scope.
Notation "x * y" := (fmul x y) : scalar_scope.
Notation "x / y" := (fdiv x y) : scalar_scope.

(** The real numbers: the arithmetic the notebook's formulas are written in. *)
#[export] Instance R_scalar : Scalar R := {|
  fzero := 0%R;
  fone := 1%R;
  fadd := Rplus;
  fsub := Rminus;
  fmul := Rmult;
  fdiv := Rdiv;
  fsqrt := sqrt;
  fpow := pow;
  fof_nat := INR;
  fmul_1_r := Rmult_1_r
|}.

(** The signs of the scalars, on which the guard [eps] of the division
    relies.  [fnonneg] is kept by sums, squares and the division by a count;
    adding a scalar that is [fpositive] to one that is [fnonneg] gives one
    that is [fpositive], and so does the square root of one that is
    [fpositive]; a scalar that is [fpositive] is not zero. *)
Class Signs (F : Type) `{Scalar F} := {
  fnonneg : F → Prop;
  fpositive : F → Prop;
  fpositive_nonzero : ∀ x, fpositive x → x ≠ fzero;
  fnonneg_zero : fnonneg fzero;
  fnonneg_add : ∀ x y, fnonneg x → fnonneg y → fnonneg (x + y)%sc;
  fnonneg_square : ∀ x, fnonneg (fpow x 2);
  fnonneg_div_count : ∀ x n, fnonneg x → fnonneg (x / fof_nat n)%sc;
  fpositive_add : ∀ x e, fnonneg x → fpositive e → fpositive (x + e)%sc;
  fpositive_sqrt : ∀ x, fpositive x → fpositive (fsqrt x);
  fadd_0_positive : ∀ e, fpositive e → (fzero + e)%sc = e
}.

Lemma div_count_nonneg (x : R) (n : nat) : (0 <= x)%R → (0 <= x / INR n)%R.
Proof.
  intros Hx. destruct n as [|n].
  - simpl. unfold Rdiv. rewrite Rinv_0. lra.
  - apply Rle_mult_inv_pos; [done|]. apply lt_0_INR. lia.
Qed.

(** Over the reals: [0 <= x] and [0 < x]. *)
#[export] Instance R_signs : Signs R := {|
  fnonneg x := (0 <= x)%R;
  fpositive x := (0 < x)%R;
  fpositive_nonzero x := Rgt_not_eq x 0;
  fnonneg_zero := Rle_refl 0;
  fnonneg_add := Rplus_le_le_0_compat;
  fnonneg_square := pow2_ge_0;
  fnonneg_div_count := div_count_nonneg;
  fpositive_add := Rplus_le_lt_0_compat;
  fpositive_sqrt := sqrt_lt_R0;
  fadd_0_positive e _ := Rplus_0_l e
|}.

(** The arrays of the notebook hold binary32 numbers ([float32], the default
    of [nd.array]).  They are the numbers of the Standard Library's
    specification of IEEE 754 formats at precision 24 and maximal exponent
    128, with its operations, which round to nearest, ties to even. *)
Module float32.

Definition prec : Z := 24.
Definition emax : Z := 128.

(** A number of the format: mantissa and exponent are in canonical form. *)
Definition valid (x : SpecFloat.spec_float) : bool := SpecFloat.valid_binary prec emax x.

Definition t : Type := { x : SpecFloat.spec_float | Is_true (valid x) }.

(** The result of an operation as a number of the format.  The operations
    below only produce numbers of the format; the test carries the proof. *)
Definition normal (x : SpecFloat.spec_float) : t :=
  match decide (Is_true (valid x)) with
  | left ok => x ↾ ok
  | right _ => SpecFloat.S754_nan ↾ I
  end.

Definition add (x y : t) : t := normal (SpecFloat.SFadd prec emax (`x) (`y)).
Definition sub (x y : t) : t := normal (SpecFloat.SFsub prec emax (`x) (`y)).
Definition mul (x y : t) : t := normal (SpecFloat.SFmul prec emax (`x) (`y)).
Definition div (x y : t) : t := normal (SpecFloat.SFdiv prec emax (`x) (`y)).
Definition sqrt (x : t) : t := normal (SpecFloat.SFsqrt prec emax (`x)).

(** An integer, rounded. *)
Definition of_Z (n : Z) : t := normal (SpecFloat.binary_normalize prec emax n 0 false).

Definition zero : t := of_Z 0.
Definition one : t := of_Z 1.

(** [x ** n] for a natural exponent, by repeated multiplication. *)
Fixpoint pow (x : t) (n : nat) : t :=
  match n with
  | 0 => one
  | S n' => mul x (pow x n')
  end.

(** A Python float, which is a binary64 number, as a scalar operand of an
    array operator: the operator computes in the element type of the array,
    so the scalar is rounded to binary32 first. *)
Definition of_double (x : SpecFloat.spec_float) : t :=
  normal (match x with
          | SpecFloat.S754_finite s m e => SpecFloat.binary_round prec emax s m e
          | _ => x
          end).

(** Multiplying by [1.0] is exact. *)
Lemma SFmul_one (s : bool) (m : positive) (e : Z) :
  SpecFloat.bounded prec emax m e = true →
  SpecFloat.SFmul prec emax (SpecFloat.S754_finite s m e)
    (SpecFloat.S754_finite false 8388608 (-23))
  = SpecFloat.S754_finite s m e.
Proof.
  intros Hb. unfold SpecFloat.bounded, SpecFloat.canonical_mantissa in Hb.
  apply andb_true_iff in Hb as [Hc He].
  apply Z.eqb_eq in Hc.
  cbn [SpecFloat.SFmul]. rewrite xorb_false_r. unfold SpecFloat.binary_round_aux.
  rewrite Pos.mul_comm.
  change (8388608 * m)%positive
    with (m~0~0~0~0~0~0~0~0~0~0~0~0~0~0~0~0~0~0~0~0~0~0~0)%positive.
  assert (Hd : SpecFloat.Zdigits2
                 (Z.pos (m~0~0~0~0~0~0~0~0~0~0~0~0~0~0~0~0~0~0~0~0~0~0~0))
               = (Z.pos (SpecFloat.digits2_pos m) + 23)%Z).
  { cbn [SpecFloat.Zdigits2 SpecFloat.digits2_pos]. lia. }
  unfold SpecFloat.shr_fexp at 1. rewrite Hd.
  replace (Z.pos (SpecFloat.digits2_pos m) + 23 + (e + -23))%Z
    with (Z.pos (SpecFloat.digits2_pos m) + e)%Z by lia.
  rewrite Hc. replace (e - (e + -23))%Z with 23%Z by lia.
  cbn [SpecFloat.shr SpecFloat.shr_record_of_loc].
  cbv [SpecFloat.iter_pos SpecFloat.shr_1 orb].
  cbn [SpecFloat.loc_of_shr_record SpecFloat.shr_m SpecFloat.round_nearest_even].
  replace (e + -23 + 23)%Z with e by lia.
  unfold SpecFloat.shr_fexp. cbn [SpecFloat.Zdigits2]. rewrite Hc, Z.sub_diag.
  cbn [SpecFloat.shr SpecFloat.shr_record_of_loc SpecFloat.shr_m].
  by rewrite He.
Qed.

Lemma mul_1_r (x : t) : mul x one = x.
Proof.
  destruct x as [x Hx]. apply (sig_eq_pi _). unfold mul, normal.
  change (` one) with (SpecFloat.S754_finite false 8388608 (-23)). cbn [proj1_sig].
  assert (Hmul : SpecFloat.SFmul prec emax x (SpecFloat.S754_finite false 8388608 (-23))
                 = x).
  { destruct x as [s|s| |s m e]; try (by destruct s).
    - reflexivity.
    - apply SFmul_one. by apply Is_true_eq_true. }
  rewrite Hmul. by destruct (decide (Is_true (valid x))).
Qed.

Definition scalar : Scalar t := {|
  fzero := zero;
  fone := one;
  fadd := add;
  fsub := sub;
  fmul := mul;
  fdiv := div;
  fsqrt := sqrt;
  fpow := pow;
  fof_nat n := of_Z (Z.of_nat n);
  fmul_1_r := mul_1_r
|}.

(** *** Signs *)

Import SpecFloat.

(** [+0], a positive number, [+inf] or a NaN: neither negative nor [-0]. *)
Definition nonneg_or_nan (x : t) : bool :=
  match `x with
  | S754_zero s | S754_infinity s | S754_finite s _ _ => negb s
  | S754_nan => true
  end.

(** A positive number, [+inf] or a NaN: neither negative nor a zero. *)
Definition pos_or_nan (x : t) : bool :=
  match `x with
  | S754_infinity s | S754_finite s _ _ => negb s
  | S754_zero _ => false
  | S754_nan => true
  end.

(** What rounding gives for the sign [s]: a zero, a number or an infinity of
    that sign, or a NaN. *)
Definition signed_result (s : bool) (x : spec_float) : Prop :=
  match x with
  | S754_finite s' _ _ | S754_infinity s' | S754_zero s' => s' = s
  | S754_nan => True
  end.

(** A number or an infinity of the sign [s]. *)
Definition nonzero_result (s : bool) (x : spec_float) : Prop :=
  match x with
  | S754_finite s' _ _ | S754_infinity s' => s' = s
  | _ => False
  end.

Lemma iter_pos_nat {A : Type} (f : A → A) (p : positive) (x : A) :
  iter_pos f p x = Nat.iter (Pos.to_nat p) f x.
Proof.
  revert x. induction p as [p IH|p IH|]; intros x; simpl iter_pos.
  - rewrite !IH, <- Nat.iter_add, <- Nat.iter_succ_r. f_equal. lia.
  - rewrite !IH, <- Nat.iter_add. f_equal. lia.
  - reflexivity.
Qed.

Lemma shr_m_shr_1 (mrs : shr_record) :
  (0 <= shr_m mrs)%Z → shr_m (shr_1 mrs) = Z.div2 (shr_m mrs).
Proof.
  destruct mrs as [m r s]. simpl. intros Hm.
  destruct m as [|[p|p|]|p]; try reflexivity. lia.
Qed.

Lemma shr_m_iter (n : nat) (mrs : shr_record) :
  (0 <= shr_m mrs)%Z →
  shr_m (Nat.iter n shr_1 mrs) = Z.shiftr (shr_m mrs) (Z.of_nat n).
Proof.
  intros Hm. induction n as [|n IH].
  - simpl. by rewrite Z.shiftr_0_r.
  - rewrite Nat.iter_succ, shr_m_shr_1.
    + rewrite IH, Nat2Z.inj_succ, <- Z.add_1_r, <- Z.shiftr_shiftr by lia.
      by rewrite Z.div2_spec.
    + rewrite IH. apply Z.shiftr_nonneg. lia.
Qed.

Lemma digits2_log2 (m : positive) :
  Z.pos (digits2_pos m) = (Z.log2 (Z.pos m) + 1)%Z.
Proof.
  induction m as [m IH|m IH|]; simpl digits2_pos.
  - rewrite Pos2Z.inj_succ, IH.
    change (Z.pos m~1) with (2 * Z.pos m + 1)%Z.
    rewrite Z.log2_succ_double by lia. lia.
  - rewrite Pos2Z.inj_succ, IH.
    change (Z.pos m~0) with (2 * Z.pos m)%Z. rewrite Z.log2_double by lia. lia.
  - reflexivity.
Qed.

(** A mantissa shifted right by fewer bits than it has is still positive. *)
Lemma shiftr_pos (m : positive) (n : Z) :
  (0 <= n < Z.pos (digits2_pos m))%Z → (0 < Z.shiftr (Z.pos m) n)%Z.
Proof.
  intros [Hn Hd]. rewrite digits2_log2 in Hd.
  rewrite Z.shiftr_div_pow2 by lia.
  apply Z.div_str_pos. split; [apply Z.pow_pos_nonneg; lia|].
  transitivity (2 ^ Z.log2 (Z.pos m))%Z.
  - apply Z.pow_le_mono_r; lia.
  - apply Z.log2_spec. lia.
Qed.

Lemma shr_record_of_loc_m (m : Z) (l : location) :
  shr_m (shr_record_of_loc m l) = m.
Proof. by destruct l as [|[]]. Qed.

Lemma fexp_emin (e : Z) : (emin prec emax <= fexp prec emax e)%Z.
Proof. unfold fexp. lia. Qed.

(** Rounding to the format does not cancel a positive mantissa whose
    exponent is at least the least exponent of the format: there is no
    underflow to zero from there. *)
Lemma shr_fexp_pos (m e : Z) (l : location) :
  (0 < m)%Z → (emin prec emax <= e)%Z →
  (0 < shr_m (shr_fexp prec emax m e l).1)%Z ∧
  (emin prec emax <= (shr_fexp prec emax m e l).2)%Z.
Proof.
  intros Hm He. destruct m as [|m|m]; try lia.
  unfold shr_fexp, shr.
  destruct (fexp prec emax (Zdigits2 (Z.pos m) + e) - e)%Z as [|p|p] eqn:Hn;
    cbn [fst snd]; rewrite ?shr_record_of_loc_m; try (split; lia).
  split.
  - rewrite iter_pos_nat, shr_m_iter by (rewrite shr_record_of_loc_m; lia).
    rewrite shr_record_of_loc_m. apply shiftr_pos.
    rewrite positive_nat_Z. cbn [Zdigits2] in Hn.
    unfold fexp, emin, prec, emax in *. lia.
  - pose proof (fexp_emin (Zdigits2 (Z.pos m) + e)). lia.
Qed.

Lemma round_nearest_even_pos (m : Z) (l : location) :
  (0 < m)%Z → (0 < round_nearest_even m l)%Z.
Proof. intros Hm. destruct l as [|[]]; simpl; try lia. destruct (Z.even m); lia. Qed.

Lemma binary_round_aux_pos (s : bool) (m : positive) (e : Z) (l : location) :
  (emin prec emax <= e)%Z →
  nonzero_result s (binary_round_aux prec emax s (Z.pos m) e l).
Proof.
  intros He. unfold binary_round_aux.
  destruct (shr_fexp_pos (Z.pos m) e l) as [Hm1 He1]; [lia|done|].
  destruct (shr_fexp prec emax (Z.pos m) e l) as [mrs1 e1]. cbn [fst snd] in *.
  pose proof (round_nearest_even_pos _ (loc_of_shr_record mrs1) Hm1) as Hm2.
  destruct (shr_fexp_pos _ e1 loc_Exact Hm2 He1) as [Hm3 He3].
  destruct (shr_fexp prec emax _ e1 loc_Exact) as [mrs3 e3]. cbn [fst snd] in *.
  destruct (shr_m mrs3); try lia.
  by destruct (e3 <=? emax - prec)%Z.
Qed.

Lemma binary_round_pos (s : bool) (m : positive) (e : Z) :
  (emin prec emax <= e)%Z → nonzero_result s (binary_round prec emax s m e).
Proof.
  intros He. unfold binary_round, shl_align.
  pose proof (fexp_emin (Z.pos (digits2_pos m) + e)).
  destruct (fexp prec emax (Z.pos (digits2_pos m) + e) - e)%Z eqn:Hn;
    apply binary_round_aux_pos; lia.
Qed.

Lemma binary_round_aux_sign (s : bool) (m e : Z) (l : location) :
  signed_result s (binary_round_aux prec emax s m e l).
Proof.
  unfold binary_round_aux.
  destruct (shr_fexp prec emax m e l) as [mrs1 e1].
  destruct (shr_fexp prec emax _ e1 loc_Exact) as [mrs3 e3].
  destruct (shr_m mrs3); try done.
  by destruct (e3 <=? emax - prec)%Z.
Qed.

Lemma binary_round_sign (s : bool) (m : positive) (e : Z) :
  signed_result s (binary_round prec emax s m e).
Proof.
  unfold binary_round. destruct (shl_align _ _ _). apply binary_round_aux_sign.
Qed.

Lemma bounded_emin (m : positive) (e : Z) :
  bounded prec emax m e = true → (emin prec emax <= e)%Z.
Proof.
  unfold bounded, canonical_mantissa. intros Hb.
  apply andb_true_iff in Hb as [Hc _]. apply Z.eqb_eq in Hc.
  pose proof (fexp_emin (Z.pos (digits2_pos m) + e)). lia.
Qed.

(** The square root of a positive number of the format is not zero. *)
Lemma SFsqrt_pos (m : positive) (e : Z) :
  (emin prec emax <= e)%Z →
  nonzero_result false (SFsqrt prec emax (S754_finite false m e)).
Proof.
  intros He. cbn [SFsqrt]. unfold SFsqrt_core_binary.
  set (e' := Z.min _ _).
  assert (He' : (emin prec emax <= e' ∧ 2 * e' <= e)%Z).
  { subst e'. pose proof (fexp_emin (Z.div2 (Zdigits2 (Z.pos m) + e + 1))).
    rewrite !Z.div2_div in *.
    unfold emin, prec, emax in *.
    pose proof (Z.mul_div_le e 2). pose proof (Z.mod_pos_bound e 2).
    pose proof (Z.div_mod e 2). lia. }
  set (m' := match (e - 2 * e')%Z with
             | 0%Z => Z.pos m | Z.pos _ => _ | Z.neg _ => 0%Z end).
  assert (Hm' : (0 < m')%Z).
  { subst m'. destruct (e - 2 * e')%Z eqn:Hs; try lia.
    rewrite Z.shiftl_mul_pow2 by lia. apply Z.mul_pos_pos; [lia|].
    apply Z.pow_pos_nonneg; lia. }
  pose proof (Z.sqrtrem_spec m') as Hq. destruct (Z.sqrtrem m') as [q r].
  destruct Hq as [Hq Hr]; [lia|].
  destruct q as [|q|q]; try lia.
  apply binary_round_aux_pos. lia.
Qed.

Lemma signed_nonneg (x : spec_float) :
  signed_result false x → Is_true (nonneg_or_nan (normal x)).
Proof.
  intros Hx. unfold nonneg_or_nan, normal.
  destruct (decide (Is_true (valid x))); [|done]. cbn [proj1_sig].
  destruct x as [s|s| |s m e]; simpl in Hx; by subst.
Qed.

Lemma nonzero_pos (x : spec_float) :
  x = S754_nan ∨ nonzero_result false x → Is_true (pos_or_nan (normal x)).
Proof.
  intros Hx. unfold pos_or_nan, normal.
  destruct (decide (Is_true (valid x))); [|done]. cbn [proj1_sig].
  destruct Hx as [->|Hx]; [done|].
  destruct x as [s|s| |s m e]; simpl in Hx; by subst.
Qed.

Lemma nonneg_zero : Is_true (nonneg_or_nan zero).
Proof. by vm_compute. Qed.

Lemma nonneg_add (x y : t) :
  Is_true (nonneg_or_nan x) → Is_true (nonneg_or_nan y) →
  Is_true (nonneg_or_nan (add x y)).
Proof.
  destruct x as [x Hx], y as [y Hy]. unfold nonneg_or_nan at 1 2. cbn [proj1_sig].
  intros Hsx Hsy. apply signed_nonneg. cbn [proj1_sig].
  destruct x as [[]|[]| |[] mx ex]; try done;
    destruct y as [[]|[]| |[] my ey]; try done.
  cbn [SFadd cond_Zopp Z.add binary_normalize]. apply binary_round_sign.
Qed.

Lemma nonneg_square (x : t) : Is_true (nonneg_or_nan (pow x 2)).
Proof.
  cbn [pow]. rewrite mul_1_r.
  destruct x as [x Hx]. apply signed_nonneg. cbn [proj1_sig].
  destruct x as [s|s| |s mx ex]; cbn [SFmul signed_result]; try done;
    try by rewrite xorb_nilpotent.
  generalize (binary_round_aux_sign (xorb s s) (Z.pos (mx * mx)) (ex + ex) loc_Exact).
  by rewrite xorb_nilpotent.
Qed.

Lemma nonneg_of_nat (n : nat) : Is_true (nonneg_or_nan (of_Z (Z.of_nat n))).
Proof.
  apply signed_nonneg. destruct (Z.of_nat n) eqn:Hn; try lia; [done|].
  apply binary_round_sign.
Qed.

Lemma nonneg_div (x y : t) :
  Is_true (nonneg_or_nan x) → Is_true (nonneg_or_nan y) →
  Is_true (nonneg_or_nan (div x y)).
Proof.
  destruct x as [x Hx], y as [y Hy]. unfold nonneg_or_nan at 1 2. cbn [proj1_sig].
  intros Hsx Hsy. apply signed_nonneg.
  destruct x as [[]|[]| |[] mx ex]; try done;
    destruct y as [[]|[]| |[] my ey]; try done.
  cbn [proj1_sig SFdiv xorb].
  destruct (SFdiv_core_binary prec emax _ _ _ _) as [[mz ez] lz].
  apply binary_round_aux_sign.
Qed.

Lemma nonneg_div_count (x : t) (n : nat) :
  Is_true (nonneg_or_nan x) → Is_true (nonneg_or_nan (div x (of_Z (Z.of_nat n)))).
Proof. intros Hx. apply nonneg_div; [done | apply nonneg_of_nat]. Qed.

(** No sum of a number that is not negative and a positive one is zero. *)
Lemma pos_add (x e : t) :
  Is_true (nonneg_or_nan x) → Is_true (pos_or_nan e) →
  Is_true (pos_or_nan (add x e)).
Proof.
  destruct x as [x Hx], e as [y Hy]. unfold nonneg_or_nan, pos_or_nan at 1.
  cbn [proj1_sig]. intros Hsx Hsy. apply nonzero_pos. cbn [proj1_sig].
  destruct x as [[]|[]| |[] mx ex]; try done;
    destruct y as [[]|[]| |[] my ey]; try done; try (by left); try (by right).
  right. cbn [SFadd cond_Zopp Z.add binary_normalize]. apply binary_round_pos.
  apply Is_true_eq_true in Hx, Hy.
  apply bounded_emin in Hx, Hy. lia.
Qed.

Lemma pos_sqrt (x : t) : Is_true (pos_or_nan x) → Is_true (pos_or_nan (sqrt x)).
Proof.
  destruct x as [x Hx]. unfold pos_or_nan at 1. cbn [proj1_sig].
  intros Hsx. apply nonzero_pos. cbn [proj1_sig].
  destruct x as [[]|[]| |[] mx ex]; try done; try (by left); try (by right).
  right. apply SFsqrt_pos. apply Is_true_eq_true in Hx. by apply bounded_emin in Hx.
Qed.

Lemma zero_add_pos (e : t) : Is_true (pos_or_nan e) → add zero e = e.
Proof.
  destruct e as [y Hy]. unfold pos_or_nan. cbn [proj1_sig]. intros Hsy.
  apply (sig_eq_pi _). unfold add, normal.
  change (` zero) with (S754_zero false). cbn [proj1_sig].
  assert (Hadd : SFadd prec emax (S754_zero false) y = y).
  { by destruct y as [[]|[]| |[] my ey]. }
  rewrite Hadd. by destruct (decide (Is_true (valid y))).
Qed.

Lemma pos_nonzero (x : t) : Is_true (pos_or_nan x) → x ≠ zero.
Proof. intros Hx ->. by vm_compute in Hx. Qed.

(** In binary32: not negative or a NaN, and positive or a NaN. *)
Definition signs : @Signs t scalar :=
  @Build_Signs t scalar
    (λ x, Is_true (nonneg_or_nan x)) (λ x, Is_true (pos_or_nan x))
    pos_nonzero nonneg_zero nonneg_add nonneg_square nonneg_div_count
    pos_add pos_sqrt zero_add_pos.

End float32.

(** ** Row-major index arithmetic *)

(** Number of elements of an array of shape [sh]. *)
Definition size (sh : list nat) : nat := fold_right Nat.mul 1 sh.

(** Position in the buffer of the element at multi-index [idx]. *)
Fixpoint ravel (sh idx : list nat) : nat :=
  match sh, idx with
  | _ :: sh', i :: idx' => i * size sh' + ravel sh' idx'
  | _, _ => 0
  end.

(** Multi-index of the element at position [k] of the buffer. *)
Fixpoint unravel (sh : list nat) (k : nat) : list nat :=
  match sh with
  | [] => []
  | _ :: sh' => k / size sh' :: unravel sh' (k mod size sh')
  end.

(** [idx] addresses an element of an array of shape [sh]. *)
Definition in_bounds (idx sh : list nat) : Prop := Forall2 lt idx sh.

(** ** Python exceptions and results *)

Inductive exn : Type :=
  | ValueError (msg : string)
  | NameError (name : string)
  | KeyError (key : string)
  | MXNetError (msg : string).

Inductive result (A : Type) : Type :=
  | Ok (a : A)
  | Raise (e : exn).
Arguments Ok {A} a.
Arguments Raise {A} e.

#[export] Instance result_ret : MRet result := λ A a, Ok a.
#[export] Instance result_bind : MBind result :=
  λ A B f r, match r with Ok a => f a | Raise e => Raise e end.

(** ** The array library *)

(** The notebook computes with [mxnet.ndarray], which is not part of the
    repository.  The module below gives the operations the notebook calls
    their documented meaning: an array is a shape and a contiguous row-major
    buffer; [reshape] keeps the buffer; the arithmetic operators broadcast
    the way NumPy does; [nd.mean] sums over the given axes and divides by the
    number of summed elements.  Operands that do not broadcast raise an
    [MXNetError]. *)

Module nd.
Section ndarray.
Context {F : Type} `{Scalar F}.

(** An [NDArray]: its shape and its elements in row-major order. *)
Record NDArray : Type := mkND { shape : list nat; data : list F }.

(** The buffer has one element per index. *)
Definition wf (A : NDArray) : Prop := length (data A) = size (shape A).

(** Element at a multi-index. *)
Definition get (A : NDArray) (idx : list nat) : F :=
  nth (ravel (shape A) idx) (data A) fzero.

(** The array of shape [sh] whose element at [idx] is [f idx]. *)
Definition tabulate (sh : list nat) (f : list nat → F) : NDArray :=
  mkND sh (map (λ k, f (unravel sh k)) (seq 0 (size sh))).

(** *** Elementwise operators with a Python scalar, and [nd.sqrt] *)

Definition map_nd (f : F → F) (A : NDArray) : NDArray :=
  mkND (shape A) (map f (data A)).

(** [A + c] *)
Definition plus_scalar (A : NDArray) (c : F) : NDArray := map_nd (λ x, (x + c)%sc) A.
(** [A * c] *)
Definition mul_scalar (A : NDArray) (c : F) : NDArray := map_nd (λ x, (x * c)%sc) A.
(** [A ** n] *)
Definition power_scalar (A : NDArray) (n : nat) : NDArray := map_nd (λ x, fpow x n) A.
(** [nd.sqrt(A)] *)
Definition sqrt (A : NDArray) : NDArray := map_nd fsqrt A.

(** *** [reshape] *)

(** The buffer is kept and the shape replaced; the element counts must
    agree, and a target shape of another size is refused with a
    [ValueError].  (The library of the notebook's own run still cut a longer
    buffer to the size of the target: cell 6 passes 17 values for a shape
    of 16.  The arrays below have the sizes of their shapes.) *)
Definition reshape (A : NDArray) (sh : list nat) : result NDArray :=
  if size sh =? size (shape A) then Ok (mkND sh (data A))
  else Raise (ValueError "reshape: the target shape has a different size").

(** *** Broadcasting binary operators *)

(** Shapes are aligned at their last axis, the shorter one padded with
    leading 1s; two aligned axes must be equal unless one of them is 1. *)
Definition pad_left (n : nat) (sh : list nat) : list nat :=
  repeat 1 (n - length sh) ++ sh.

Definition broadcast_dim (a b : nat) : option nat :=
  if a =? b then Some a
  else if a =? 1 then Some b
  else if b =? 1 then Some a
  else None.

Fixpoint broadcast_aligned (sa sb : list nat) : option (list nat) :=
  match sa, sb with
  | [], [] => Some []
  | a :: sa', b :: sb' =>
      match broadcast_dim a b, broadcast_aligned sa' sb' with
      | Some d, Some r => Some (d :: r)
      | _, _ => None
      end
  | _, _ => None
  end.

Definition broadcast_shape (sa sb : list nat) : option (list nat) :=
  let n := Nat.max (length sa) (length sb) in
  broadcast_aligned (pad_left n sa) (pad_left n sb).

(** Index into an operand of shape [sa] for the output index [idx]: the
    leading output axes the operand lacks are dropped and an axis of
    extent 1 is read at 0. *)
Fixpoint clamp (sa idx : list nat) : list nat :=
  match sa, idx with
  | d :: sa', i :: idx' => (if d =? 1 then 0 else i) :: clamp sa' idx'
  | _, _ => []
  end.

Definition bindex (sa idx : list nat) : list nat :=
  clamp sa (skipn (length idx - length sa) idx).

Definition broadcast (f : F → F → F) (A B : NDArray) : result NDArray :=
  match broadcast_shape (shape A) (shape B) with
  | Some sh =>
      Ok (tabulate sh (λ idx, f (get A (bindex (shape A) idx))
                                (get B (bindex (shape B) idx))))
  | None => Raise (MXNetError "operands could not be broadcast together")
  end.

(** [A + B], [A - B], [A * B], [A / B] on arrays. *)
Definition broadcast_add := broadcast fadd.
Definition broadcast_sub := broadcast fsub.
Definition broadcast_mul := broadcast fmul.
Definition broadcast_div := broadcast fdiv.

(** *** [nd.mean] over a set of axes *)

Definition reduces (axes : list nat) (ax : nat) : bool := existsb (Nat.eqb ax) axes.

(** Shape of the result: the reduced axes are removed.  [ax] is the number
    of the first axis of [sh]. *)
Fixpoint reduced_shape (axes : list nat) (ax : nat) (sh : list nat) : list nat :=
  match sh with
  | [] => []
  | d :: sh' =>
      if reduces axes ax then reduced_shape axes (S ax) sh'
      else d :: reduced_shape axes (S ax) sh'
  end.

(** Number of elements that are averaged into one element of the result. *)
Fixpoint reduced_count (axes : list nat) (ax : nat) (sh : list nat) : nat :=
  match sh with
  | [] => 1
  | d :: sh' =>
      if reduces axes ax then d * reduced_count axes (S ax) sh'
      else reduced_count axes (S ax) sh'
  end.

(** The input indices that are averaged into the output index [oidx], in
    row-major order. *)
Fixpoint slots (axes : list nat) (ax : nat) (sh oidx : list nat) : list (list nat) :=
  match sh with
  | [] => [[]]
  | d :: sh' =>
      if reduces axes ax then
        flat_map (λ i, map (cons i) (slots axes (S ax) sh' oidx)) (seq 0 d)
      else
        match oidx with
        | o :: oidx' => map (cons o) (slots axes (S ax) sh' oidx')
        | [] => []
        end
  end.

(** Sum of a list of elements, accumulated from the left. *)
Definition total (l : list F) : F := fold_left fadd l fzero.

(** [nd.mean(A, axis=axes)]: for each output index, the sum of the reduced
    elements divided by their number.  (The notebook never reduces every
    axis of an array.) *)
Definition mean (A : NDArray) (axes : list nat) : NDArray :=
  tabulate (reduced_shape axes 0 (shape A))
    (λ oidx, (total (map (get A) (slots axes 0 (shape A) oidx))
              / fof_nat (reduced_count axes 0 (shape A)))%sc).

End ndarray.
Arguments NDArray F : clear implicits.
End nd.

(** ** The notebook *)

Section notebook.
Context {F : Type} `{Scalar F}.

#[local] Abbreviation NDArray := (nd.NDArray F).

(** *** Module-level state *)

(** The two global names of the notebook.  A name is unbound ([None]) until
    the first call of [batch_norm] binds it to a dictionary from scope names
    to arrays. *)
Record globals : Type := mkGlobals {
  _BN_MOVING_MEANS : option (gmap string NDArray);
  _BN_MOVING_VARS : option (gmap string NDArray)
}.

(** The state of a fresh kernel: neither name is bound. *)
Definition fresh_kernel : globals := mkGlobals None None.

(** A Python computation: it runs on the globals, and ends in a value or in
    an exception, with the globals as they are at that point. *)
Record Py (A : Type) : Type := PyM { run : globals → result A * globals }.
Arguments PyM {A} run.
Arguments run {A} p g.

#[export] Instance Py_ret : MRet Py := λ A a, PyM (λ g, (Ok a, g)).
#[export] Instance Py_bind : MBind Py :=
  λ A B f c, PyM (λ g, match run c g with
                       | (Ok a, g') => run (f a) g'
                       | (Raise e, g') => (Raise e, g')
                       end).

Definition raise {A : Type} (e : exn) : Py A := PyM (λ g, (Raise e, g)).

(** A library call: it may raise, and does not touch the globals. *)
Definition lift {A : Type} (r : result A) : Py A := PyM (λ g, (r, g)).

(** Evaluating the name [_BN_MOVING_MEANS]. *)
Definition load_MEANS : Py (gmap string NDArray) :=
  PyM (λ g, match _BN_MOVING_MEANS g with
            | Some d => (Ok d, g)
            | None => (Raise (NameError "_BN_MOVING_MEANS"), g)
            end).

(** Evaluating the name [_BN_MOVING_VARS]. *)
Definition load_VARS : Py (gmap string NDArray) :=
  PyM (λ g, match _BN_MOVING_VARS g with
            | Some d => (Ok d, g)
            | None => (Raise (NameError "_BN_MOVING_VARS"), g)
            end).

(** [d[key]] *)
Definition getitem (d : gmap string NDArray) (key : string) : Py NDArray :=
  match d !! key with
  | Some a => mret a
  | None => raise (KeyError key)
  end.

(** [_BN_MOVING_MEANS[key] = a] *)
Definition setitem_MEANS (key : string) (a : NDArray) : Py unit :=
  d ← load_MEANS;
  PyM (λ g, (Ok tt, mkGlobals (Some (<[key := a]> d)) (_BN_MOVING_VARS g))).

(** [_BN_MOVING_VARS[key] = a] *)
Definition setitem_VARS (key : string) (a : NDArray) : Py unit :=
  d ← load_VARS;
  PyM (λ g, (Ok tt, mkGlobals (_BN_MOVING_MEANS g) (Some (<[key := a]> d)))).

(** [try: _BN_MOVING_MEANS, _BN_MOVING_VARS]
    [except: _BN_MOVING_MEANS, _BN_MOVING_VARS = {}, {}] *)
Definition init_the_attributes : Py unit :=
  PyM (λ g, match _BN_MOVING_MEANS g, _BN_MOVING_VARS g with
            | Some _, Some _ => (Ok tt, g)
            | _, _ => (Ok tt, mkGlobals (Some ∅) (Some ∅))
            end).

(** [len(X.shape) not in (2, 4)] *)
Definition rank_not_in_2_4 (X : NDArray) : bool :=
  negb (existsb (Nat.eqb (length (nd.shape X))) [2; 4]).

Definition newline : string := String (ascii_of_nat 10) EmptyString.

(** *** [pure_batch_norm] (code cell 3) *)

Definition pure_batch_norm (X gamma beta : NDArray) (eps : F) : result NDArray :=
  if rank_not_in_2_4 X then
    Raise (ValueError "only supports dense or 2dconv")
  else if length (nd.shape X) =? 2 then
    (* dense *)
    let mean := nd.mean X [0] in
    d ← nd.broadcast_sub X mean;
    let variance := nd.mean (nd.power_scalar d 2) [0] in
    xc ← nd.broadcast_sub X mean;
    X_hat ← nd.broadcast_div (nd.mul_scalar xc fone)
                             (nd.sqrt (nd.plus_scalar variance eps));
    gx ← nd.broadcast_mul gamma X_hat;
    nd.broadcast_add gx beta
  else
    (* 2d conv *)
    match nd.shape X with
    | [N; C; H; W] =>
        let mean := nd.mean X [0; 2; 3] in
        m4 ← nd.reshape mean [1; C; 1; 1];
        d ← nd.broadcast_sub X m4;
        let variance := nd.mean (nd.power_scalar d 2) [0; 2; 3] in
        m4 ← nd.reshape mean [1; C; 1; 1];
        xc ← nd.broadcast_sub X m4;
        v4 ← nd.reshape variance [1; C; 1; 1];
        X_hat ← nd.broadcast_div (nd.mul_scalar xc fone)
                                 (nd.sqrt (nd.plus_scalar v4 eps));
        g4 ← nd.reshape gamma [1; C; 1; 1];
        gx ← nd.broadcast_mul g4 X_hat;
        b4 ← nd.reshape beta [1; C; 1; 1];
        nd.broadcast_add gx b4
    | _ => (* not reached: the rank is 4 here *)
        Raise (ValueError "not enough values to unpack")
    end.

(** *** [batch_norm] (code cell 8) *)

Definition batch_norm_message : string :=
  "the input data shape should be one of:" +:+ newline +:+
  "dense: (batch size, # of features)" +:+ newline +:+
  "2d conv: (batch size, # of features, height, width)".

(** [key in d] *)
Definition contains (d : gmap string NDArray) (key : string) : bool :=
  bool_decide (is_Some (d !! key)).

(** The block under the banner "the usual batch norm transformation",
    lines 338 to 378: the check of the rank, the batch statistics, and the
    output.  Its value is the triple of the locals [mean], [variance] and
    [out]. *)
Definition the_usual_batch_norm_transformation (X gamma beta : NDArray) (eps : F)
    (scope_name : string) (is_training : bool) : Py (NDArray * NDArray * NDArray) :=
  if rank_not_in_2_4 X then
    raise (ValueError batch_norm_message)
  else if length (nd.shape X) =? 2 then
    (* dense *)
    let mean := nd.mean X [0] in
    d ← lift (nd.broadcast_sub X mean);
    let variance := nd.mean (nd.power_scalar d 2) [0] in
    X_hat ←
      (if is_training then
         xc ← lift (nd.broadcast_sub X mean);
         lift (nd.broadcast_div (nd.mul_scalar xc fone)
                                (nd.sqrt (nd.plus_scalar variance eps)))
       else
         means ← load_MEANS;
         mm ← getitem means scope_name;
         xc ← lift (nd.broadcast_sub X mm);
         vars ← load_VARS;
         mv ← getitem vars scope_name;
         lift (nd.broadcast_div (nd.mul_scalar xc fone)
                                (nd.sqrt (nd.plus_scalar mv eps))));
    gx ← lift (nd.broadcast_mul gamma X_hat);
    out ← lift (nd.broadcast_add gx beta);
    mret (mean, variance, out)
  else
    (* 2d conv *)
    match nd.shape X with
    | [N; C; H; W] =>
        let mean := nd.mean X [0; 2; 3] in
        m4 ← lift (nd.reshape mean [1; C; 1; 1]);
        d ← lift (nd.broadcast_sub X m4);
        let variance := nd.mean (nd.power_scalar d 2) [0; 2; 3] in
        (* the assignment to X_hat ahead of the test on is_training *)
        m4 ← lift (nd.reshape mean [1; C; 1; 1]);
        xc ← lift (nd.broadcast_sub X m4);
        v4 ← lift (nd.reshape variance [1; C; 1; 1]);
        _ ← lift (nd.broadcast_div (nd.mul_scalar xc fone)
                                   (nd.sqrt (nd.plus_scalar v4 eps)));
        X_hat ←
          (if is_training then
             m4 ← lift (nd.reshape mean [1; C; 1; 1]);
             xc ← lift (nd.broadcast_sub X m4);
             v4 ← lift (nd.reshape variance [1; C; 1; 1]);
             lift (nd.broadcast_div (nd.mul_scalar xc fone)
                                    (nd.sqrt (nd.plus_scalar v4 eps)))
           else
             means ← load_MEANS;
             mm ← getitem means scope_name;
             mm4 ← lift (nd.reshape mm [1; C; 1; 1]);
             xc ← lift (nd.broadcast_sub X mm4);
             vars ← load_VARS;
             mv ← getitem vars scope_name;
             mv4 ← lift (nd.reshape mv [1; C; 1; 1]);
             lift (nd.broadcast_div (nd.mul_scalar xc fone)
                                    (nd.sqrt (nd.plus_scalar mv4 eps))));
        g4 ← lift (nd.reshape gamma [1; C; 1; 1]);
        gx ← lift (nd.broadcast_mul g4 X_hat);
        b4 ← lift (nd.reshape beta [1; C; 1; 1]);
        out ← lift (nd.broadcast_add gx b4);
        mret (mean, variance, out)
    | _ => (* not reached: the rank is 4 here *)
        raise (ValueError "not enough values to unpack")
    end.

(** The block under the banner "to keep the moving statistics", lines 384 to
    398. *)
Definition to_keep_the_moving_statistics (mean variance : NDArray) (momentum : F)
    (scope_name : string) : Py unit :=
  (* init the attributes *)
  init_the_attributes;;
  (* store the moving statistics by their scope_names, inplace *)
  means ← load_MEANS;
  (if negb (contains means scope_name) then
     setitem_MEANS scope_name mean
   else
     means ← load_MEANS;
     running ← getitem means scope_name;
     new ← lift (nd.broadcast_add (nd.mul_scalar running momentum)
                                  (nd.mul_scalar mean (fone - momentum)%sc));
     setitem_MEANS scope_name new);;
  vars ← load_VARS;
  (if negb (contains vars scope_name) then
     setitem_VARS scope_name variance
   else
     vars ← load_VARS;
     running ← getitem vars scope_name;
     new ← lift (nd.broadcast_add (nd.mul_scalar running momentum)
                                  (nd.mul_scalar variance (fone - momentum)%sc));
     setitem_VARS scope_name new).

(** [batch_norm], lines 323 to 416: its banners in their order.  The block
    "debug info" only prints (the scope name, the batch statistics, the two
    entries just stored and the output); standard output is not part of the
    state modelled here, so that block leaves no trace. *)
Definition batch_norm (X gamma beta : NDArray) (momentum eps : F)
    (scope_name : string) (is_training debug : bool) : Py NDArray :=
  '(mean, variance, out) ←
    the_usual_batch_norm_transformation X gamma beta eps scope_name is_training;
  to_keep_the_moving_statistics mean variance momentum scope_name;;
  mret out.

End notebook.

Arguments globals F : clear implicits.
Arguments Py F A : clear implicits.
Arguments PyM {F A} run.
Arguments run {F A} p g.

(** ** The specification, in its own words *)

Section specification.
Context {F : Type} `{Scalar F}.

#[local] Abbreviation NDArray := (nd.NDArray F).

(** The activation batch has rank 2 or rank 4. *)
Definition valid_rank (X : NDArray) : Prop :=
  length (nd.shape X) = 2 ∨ length (nd.shape X) = 4.

(** Number of features (rank 2) or channels (rank 4): the extent of axis 1. *)
Definition features (X : NDArray) : nat := nth 1 (nd.shape X) 0.

(** The feature or channel that the element at [idx] belongs to. *)
Definition feature_of (idx : list nat) : nat := nth 1 idx 0.

(** One scalar per feature or channel of [X]. *)
Definition per_feature (X a : NDArray) : Prop := nd.shape a = [features X].

(** The indices of the elements of feature [c] in an array of shape [sh]: all
    positions along the reduction axes, axis 0 for rank 2 and axes 0, 2 and 3
    for rank 4. *)
Definition reduced_indices (sh : list nat) (c : nat) : list (list nat) :=
  match sh with
  | [N; _] => map (λ i, [i; c]) (seq 0 N)
  | [N; _; H; W] =>
      flat_map (λ n, flat_map (λ h, map (λ w, [n; c; h; w]) (seq 0 W)) (seq 0 H))
               (seq 0 N)
  | _ => []
  end.

(** The count of reduced elements. *)
Definition reduced_elements (sh : list nat) : nat :=
  match sh with
  | [N; _] => N
  | [N; _; H; W] => N * H * W
  | _ => 0
  end.

(** Batch mean of feature [c]: the arithmetic mean over the reduction axes. *)
Definition spec_mean_at (X : NDArray) (c : nat) : F :=
  (nd.total (map (nd.get X) (reduced_indices (nd.shape X) c))
   / fof_nat (reduced_elements (nd.shape X)))%sc.

(** Batch variance of feature [c]: the mean of the squared deviations from the
    batch mean over the same axes, divided by the count of reduced elements. *)
Definition spec_variance_at (X : NDArray) (c : nat) : F :=
  (nd.total (map (λ idx, fpow (nd.get X idx - spec_mean_at X c) 2)
                 (reduced_indices (nd.shape X) c))
   / fof_nat (reduced_elements (nd.shape X)))%sc.

(** The batch statistics as arrays: one scalar per feature. *)
Definition spec_batch_mean (X : NDArray) : NDArray :=
  nd.tabulate [features X] (λ idx, spec_mean_at X (hd 0 idx)).

Definition spec_batch_variance (X : NDArray) : NDArray :=
  nd.tabulate [features X] (λ idx, spec_variance_at X (hd 0 idx)).

(** [X - mean], the mean read at the feature of each element. *)
Definition centered (X mean : NDArray) : NDArray :=
  nd.tabulate (nd.shape X) (λ idx, (nd.get X idx - nd.get mean [feature_of idx])%sc).

(** Step 5: [X_hat = (X - mean) / sqrt(variance + eps)]. *)
Definition spec_x_hat (X : NDArray) (eps : F) (mean variance : NDArray) : NDArray :=
  nd.tabulate (nd.shape X)
    (λ idx, let c := feature_of idx in
            ((nd.get X idx - nd.get mean [c]) / fsqrt (nd.get variance [c] + eps))%sc).

(** Steps 5 and 6: [gamma * X_hat + beta] with
    [X_hat = (X - mean) / sqrt(variance + eps)], each per-feature array read at
    the feature of the element. *)
Definition spec_normalize (X gamma beta : NDArray) (eps : F) (mean variance : NDArray)
    : NDArray :=
  nd.tabulate (nd.shape X)
    (λ idx, let c := feature_of idx in
            (nd.get gamma [c]
             * ((nd.get X idx - nd.get mean [c]) / fsqrt (nd.get variance [c] + eps))
             + nd.get beta [c])%sc).

(** Step 7: [running * momentum + batch_statistic * (1 - momentum)],
    elementwise. *)
Definition spec_decay (running stat : NDArray) (momentum : F) : NDArray :=
  nd.tabulate (nd.shape stat)
    (λ idx, (nd.get running idx * momentum + nd.get stat idx * (fone - momentum))%sc).

(** The running-statistics store, read through a layer identifier. *)
Definition running_mean (g : globals F) (s : string) : option NDArray :=
  _BN_MOVING_MEANS g ≫= (.!! s).

Definition running_var (g : globals F) (s : string) : option NDArray :=
  _BN_MOVING_VARS g ≫= (.!! s).

(** The update of one running statistic. *)
Definition spec_updated (running : option NDArray) (stat : NDArray) (momentum : F)
    : NDArray :=
  match running with
  | None => stat
  | Some r => spec_decay r stat momentum
  end.

(** The store after the update of the entry of [s] with the batch statistics
    [mean] and [variance]. *)
Definition spec_store_update (g : globals F) (s : string) (mean variance : NDArray)
    (momentum : F) : globals F :=
  mkGlobals
    (Some (<[s := spec_updated (running_mean g s) mean momentum]>
             (default ∅ (_BN_MOVING_MEANS g))))
    (Some (<[s := spec_updated (running_var g s) variance momentum]>
             (default ∅ (_BN_MOVING_VARS g)))).

(** The two names are bound by the same statement, so in every state the
    notebook reaches they are both bound or both unbound. *)
Definition bound_together (g : globals F) : Prop :=
  match _BN_MOVING_MEANS g, _BN_MOVING_VARS g with
  | Some _, Some _ | None, None => True
  | _, _ => False
  end.

(** A stored statistic, if any, has one scalar per feature of [X]. *)
Definition fits (X : NDArray) (o : option NDArray) : Prop :=
  ∀ r, o = Some r → per_feature X r ∧ nd.wf r.

(** The entry of the identifier [s], if any, has one scalar per feature of
    [X], as the data model of the specification has it. *)
Definition entry_fits (g : globals F) (s : string) (X : NDArray) : Prop :=
  fits X (running_mean g s) ∧ fits X (running_var g s).

(** The store is ready for a call on [X] under the identifier [s]: the two
    names are bound together and the entry of [s] fits. *)
Definition store_fits (g : globals F) (s : string) (X : NDArray) : Prop :=
  bound_together g ∧ entry_fits g s X.

(** *** Statistics of another length *)

(** The arithmetic operators broadcast: a vector of [k] scalars and one of
    [c] scalars go together when [k = c] or when one of the two numbers is
    1.  The result has [broadcast_width k c] scalars, and a vector of a
    single scalar is read at that scalar for every element of the result. *)
Definition broadcast_width (k c : nat) : nat := if k =? 1 then c else k.

Definition broadcast_feature (k i : nat) : nat := if k =? 1 then 0 else i.

(** Number of scalars of a vector. *)
Definition width (a : NDArray) : nat := hd 0 (nd.shape a).

(** Step 7 on a stored vector and a batch statistic that broadcast:
    [running * momentum + batch_statistic * (1 - momentum)], elementwise. *)
Definition spec_decay_broadcast (running stat : NDArray) (momentum : F) : NDArray :=
  nd.tabulate [broadcast_width (width running) (width stat)]
    (λ idx, (nd.get running [broadcast_feature (width running) (hd 0 idx)] * momentum
             + nd.get stat [broadcast_feature (width stat) (hd 0 idx)]
               * (fone - momentum))%sc).

Definition spec_updated_broadcast (running : option NDArray) (stat : NDArray)
    (momentum : F) : NDArray :=
  match running with
  | None => stat
  | Some r => spec_decay_broadcast r stat momentum
  end.

(** A stored statistic, if any, is a vector that broadcasts against one
    scalar per feature of [X]: it has as many scalars as [X] has features,
    or a single scalar, or [X] has a single feature. *)
Definition broadcasts (X : NDArray) (o : option NDArray) : Prop :=
  ∀ r, o = Some r →
       nd.wf r ∧ ∃ k, nd.shape r = [k] ∧ (k = features X ∨ k = 1 ∨ features X = 1).

(** The entry of the identifier [s], if any, can be decayed with the
    statistics of [X]. *)
Definition entry_broadcasts (g : globals F) (s : string) (X : NDArray) : Prop :=
  broadcasts X (running_mean g s) ∧ broadcasts X (running_var g s).

(** The stored vector [r] can normalise [X] in inference mode: it has one
    scalar per feature of [X], or, for a batch of rank 2, where it is
    broadcast and not reshaped, a single scalar. *)
Definition normalizes (X r : NDArray) : Prop :=
  nd.wf r ∧
  ∃ k, nd.shape r = [k] ∧ (k = features X ∨ (k = 1 ∧ length (nd.shape X) = 2)).

(** The store after the update of the entry of [s], the stored vectors
    broadcast against the batch statistics. *)
Definition spec_store_update_broadcast (g : globals F) (s : string)
    (mean variance : NDArray) (momentum : F) : globals F :=
  mkGlobals
    (Some (<[s := spec_updated_broadcast (running_mean g s) mean momentum]>
             (default ∅ (_BN_MOVING_MEANS g))))
    (Some (<[s := spec_updated_broadcast (running_var g s) variance momentum]>
             (default ∅ (_BN_MOVING_VARS g)))).

(** A stored vector as inference mode reads it for the features of [X]. *)
Definition broadcast_to (X r : NDArray) : NDArray :=
  nd.tabulate [features X] (λ idx, nd.get r [broadcast_feature (width r) (hd 0 idx)]).

(** A computation that leaves the globals as it found them. *)
Definition read_only {A : Type} (c : Py F A) : Prop := ∀ g, (run c g).2 = g.

(** A computation that keeps the two names bound together and leaves the
    entries of every scope name other than [s] as they were. *)
Definition keeps_others (s : string) {A : Type} (c : Py F A) : Prop :=
  ∀ g, bound_together g →
       bound_together (run c g).2 ∧
       ∀ s', s' ≠ s → running_mean (run c g).2 s' = running_mean g s' ∧
                      running_var (run c g).2 s' = running_var g s'.

(** The scope names that [net] passes at its three call sites (lines 558, 568
    and 585). *)
Definition net_scope_names : list string := ["bn1"; "bn2"; "bn3"].

(** The exceptions of a lookup of statistics that were never stored. *)
Definition missing_statistics (s : string) (e : exn) : Prop :=
  e = NameError "_BN_MOVING_MEANS" ∨ e = KeyError s.

End specification.

(** ** The inputs of the sanity checks (code cells 4 to 7), over the reals *)

Module inputs.

(** [A = nd.array([1,7,5,4,6,10]).reshape((3,2))] *)
Definition A : nd.NDArray R := nd.mkND [3; 2] [1; 7; 5; 4; 6; 10]%R.

(** [ga = nd.array([1,1])], [be = nd.array([0,0])] *)
Definition ga : nd.NDArray R := nd.mkND [2] [1; 1]%R.
Definition be : nd.NDArray R := nd.mkND [2] [0; 0]%R.

(** The array [B] of shape [(2,2,2,2)] as the notebook prints it. *)
Definition B : nd.NDArray R :=
  nd.mkND [2; 2; 2; 2] [1; 6; 5; 7; 4; 3; 2; 5; 6; 3; 2; 4; 5; 3; 2; 5]%R.

(** A second dense batch, and one whose first feature is constant. *)
Definition A' : nd.NDArray R := nd.mkND [3; 2] [2; 0; 4; 4; 0; 2]%R.
Definition constant_feature : nd.NDArray R := nd.mkND [3; 2] [1; 7; 1; 4; 1; 10]%R.

(** A batch with three features, and parameters that go with it. *)
Definition three_features : nd.NDArray R := nd.mkND [2; 3] [1; 2; 3; 4; 5; 6]%R.
Definition ga3 : nd.NDArray R := nd.mkND [3] [1; 1; 1]%R.
Definition be3 : nd.NDArray R := nd.mkND [3] [0; 0; 0]%R.

(** A batch with a single feature, and parameters that go with it. *)
Definition one_feature : nd.NDArray R := nd.mkND [2; 1] [1; 3]%R.
Definition ga1 : nd.NDArray R := nd.mkND [1] [1]%R.
Definition be1 : nd.NDArray R := nd.mkND [1] [0]%R.

(** A batch of rank 3. *)
Definition rank3 : nd.NDArray R := nd.mkND [2; 3; 1] [1; 2; 3; 4; 5; 6]%R.

(** The defaults of [batch_norm]. *)
Definition momentum : R := (9 / 10)%R.
Definition eps : R := (1 / 100000)%R.

(** The globals after one training-mode call on [A] under ["bn1"] in a fresh
    kernel. *)
Definition trained : globals R :=
  (run (batch_norm A ga be momentum eps "bn1" true false) fresh_kernel).2.

(** The globals after one training-mode call on [one_feature] under ["bn1"]
    in a fresh kernel. *)
Definition trained_on_one : globals R :=
  (run (batch_norm one_feature ga1 be1 momentum eps "bn1" true false) fresh_kernel).2.

End inputs.

(** ** A constant feature and a tiny [eps], in binary32 *)

Module inputs32.

#[local] Existing Instance float32.scalar.

(** The Python float [1e-46]: the binary64 number
    [5142201741628769 * 2 ** -205]. *)
Definition python_1e_46 : SpecFloat.spec_float :=
  SpecFloat.S754_finite false 5142201741628769 (-205).

(** [eps = 1e-46] as an operand of the arrays. *)
Definition eps : float32.t := float32.of_double python_1e_46.

(** The default momentum, [0.9]: the binary64 number
    [8106479329266893 * 2 ** -53]. *)
Definition momentum : float32.t :=
  float32.of_double (SpecFloat.S754_finite false 8106479329266893 (-53)).

(** [nd.array([1,7,1,4,1,10]).reshape((3,2))], whose first feature is
    constant, with [gamma = nd.array([1,1])] and [beta = nd.array([0,0])]. *)
Definition constant_feature : nd.NDArray float32.t :=
  nd.mkND [3; 2] (map float32.of_Z [1; 7; 1; 4; 1; 10]%Z).
Definition ga : nd.NDArray float32.t := nd.mkND [2] (map float32.of_Z [1; 1]%Z).
Definition be : nd.NDArray float32.t := nd.mkND [2] (map float32.of_Z [0; 0]%Z).

(** The run of the transformation of [batch_norm] in training mode, of
    [pure_batch_norm] and of [batch_norm] on these inputs. *)
Definition transformation
    : result (nd.NDArray float32.t * nd.NDArray float32.t * nd.NDArray float32.t) :=
  (run (the_usual_batch_norm_transformation constant_feature ga be eps "bn1" true)
     fresh_kernel).1.

Definition pure : result (nd.NDArray float32.t) :=
  pure_batch_norm constant_feature ga be eps.

Definition stateful : result (nd.NDArray float32.t) :=
  (run (batch_norm constant_feature ga be momentum eps "bn1" true false) fresh_kernel).1.

(** The elements of an array as numbers of the specification. *)
Definition elements (a : nd.NDArray float32.t) : list SpecFloat.spec_float :=
  map proj1_sig (nd.data a).

(** The default [eps = 1e-5]: the binary64 number
    [5902958103587057 * 2 ** -69], as an operand of the arrays. *)
Definition python_1e_5 : SpecFloat.spec_float :=
  SpecFloat.S754_finite false 5902958103587057 (-69).
Definition default_eps : float32.t := float32.of_double python_1e_5.

(** [nd.sqrt(variance + eps)] for the batch variance of [constant_feature]
    and the default [eps]. *)
Definition default_divisors : nd.NDArray float32.t :=
  nd.sqrt (nd.plus_scalar (spec_batch_variance constant_feature) default_eps).

End inputs32.

(** [x] agrees with the value [p] that the notebook prints, to six decimals. *)
Definition printed (x p : R) : Prop := (p - 1 / 1000000 < x < p + 1 / 1000000)%R.

(** ** The rest of the notebook: more of the array library *)

(** The element operations behind the other array functions the notebook
    calls.  [fmaximum] is the larger of two elements ([nd.maximum],
    [nd.max]); [fgtb x y] is the test [x > y] by which [nd.argmax] keeps the
    first of several largest elements; [feqb] is [==]; [fis_nan] is the test
    by which [nd.nansum] leaves elements out; [fliteral m e] is the element
    that the source writes as the decimal literal of mantissa [m] and
    exponent [e] ([0.9] is [fliteral 9 (-1)], [1e-5] is [fliteral 1 (-5)]). *)
Class Elementary (F : Type) `{Scalar F} := {
  fexp : F → F;
  flog : F → F;
  fmaximum : F → F → F;
  fgtb : F → F → bool;
  feqb : F → F → bool;
  fis_nan : F → bool;
  fliteral : Z → Z → F
}.

(** Over the reals no element is a NaN. *)
#[export] Instance R_elementary : Elementary R := {|
  fexp := exp;
  flog := ln;
  fmaximum := Rmax;
  fgtb x y := if Rlt_dec y x then true else false;
  feqb x y := if Req_dec_T x y then true else false;
  fis_nan _ := false;
  fliteral m e := (IZR m * powerRZ 10 e)%R
|}.

Module ndarray.
Section more_ndarray.
Context {F : Type} `{Elementary F}.

#[local] Abbreviation NDArray := (nd.NDArray F).

(** [nd.exp(A)] *)
Definition exp (A : NDArray) : NDArray := nd.map_nd fexp A.

(** [nd.maximum(A, c)] with a Python scalar [c] *)
Definition maximum (A : NDArray) (c : F) : NDArray := nd.map_nd (λ x, fmaximum x c) A.

(** [A / c] with a Python scalar [c] *)
Definition div_scalar (A : NDArray) (c : F) : NDArray := nd.map_nd (λ x, (x / c)%sc) A.

(** The largest element of a buffer.  (An array of this library has at least
    one element.) *)
Definition maximum_of (l : list F) : F :=
  match l with
  | [] => fzero
  | x :: l' => fold_left fmaximum l' x
  end.

(** [nd.max(A)]: the largest element, as an array of shape [(1,)]. *)
Definition max (A : NDArray) : NDArray := nd.mkND [1] [maximum_of (nd.data A)].

(** [nd.sum(A)]: the sum of all the elements, as an array of shape [(1,)]. *)
Definition sum (A : NDArray) : NDArray := nd.mkND [1] [nd.total (nd.data A)].

(** The axes that a reduction called with [axis] and [exclude] sums over:
    those of [axis], or with [exclude=True] all the others. *)
Definition reduced_axes (axis : list nat) (exclude : bool) (rank : nat) : list nat :=
  List.filter (λ ax, if exclude then negb (nd.reduces axis ax) else nd.reduces axis ax)
              (seq 0 rank).

(** A reduction over every axis leaves shape [(1,)]. *)
Definition at_least_1d (sh : list nat) : list nat :=
  match sh with
  | [] => [1]
  | _ => sh
  end.

(** [nd.nansum(A, axis, exclude)]: the sum over the reduced axes of the
    elements that are not NaN. *)
Definition nansum (A : NDArray) (axis : list nat) (exclude : bool) : NDArray :=
  let axes := reduced_axes axis exclude (length (nd.shape A)) in
  nd.tabulate (at_least_1d (nd.reduced_shape axes 0 (nd.shape A)))
    (λ oidx, nd.total (List.filter (λ x, negb (fis_nan x))
                         (map (nd.get A) (nd.slots axes 0 (nd.shape A) oidx)))).

(** The indices that differ from [idx] on the last axis only. *)
Definition along_last (sh idx : list nat) : list (list nat) :=
  map (λ k, removelast idx ++ [k]) (seq 0 (List.last sh 0)).

(** [nd.log_softmax(A)], on the last axis: the logarithm of
    [exp(x) / sum(exp(x'))] over the elements [x'] of the row of [x]. *)
Definition log_softmax (A : NDArray) : NDArray :=
  nd.tabulate (nd.shape A)
    (λ idx, flog (fexp (nd.get A idx)
                  / nd.total (map (λ i, fexp (nd.get A i))
                                  (along_last (nd.shape A) idx)))%sc).

(** Position of the first of the largest elements of a list. *)
Fixpoint argmax_from (best : nat) (largest : F) (k : nat) (l : list F) : nat :=
  match l with
  | [] => best
  | x :: l' =>
      if fgtb x largest then argmax_from k x (S k) l'
      else argmax_from best largest (S k) l'
  end.

Definition argmax_of (l : list F) : nat :=
  match l with
  | [] => 0
  | x :: l' => argmax_from 0 x 1 l'
  end.

(** [nd.argmax(A, axis)]: along [axis], the position of the largest element,
    as an element of the array type. *)
Definition argmax (A : NDArray) (axis : nat) : result NDArray :=
  if axis <? length (nd.shape A) then
    Ok (nd.tabulate (at_least_1d (nd.reduced_shape [axis] 0 (nd.shape A)))
          (λ oidx, fof_nat (argmax_of (map (nd.get A)
                                           (nd.slots [axis] 0 (nd.shape A) oidx)))))
  else Raise (MXNetError "argmax: axis exceeds the input dimensions").

(** [A == B]: 1 where the elements are equal and 0 elsewhere. *)
Definition equal (A B : NDArray) : result NDArray :=
  nd.broadcast (λ x y, if feqb x y then fone else fzero) A B.

(** [A.asscalar()] *)
Definition asscalar (A : NDArray) : result F :=
  if decide (nd.shape A = [1]) then Ok (nd.get A [0])
  else Raise (ValueError "The current array is not a scalar").

(** [nd.Convolution(data, weight, bias, kernel, num_filter)] with the default
    stride, dilation and padding: the cross-correlation of each example with
    each filter, plus the bias of the filter. *)
Definition Convolution (data weight bias : NDArray) (kernel : nat * nat)
    (num_filter : nat) : result NDArray :=
  let '(kh, kw) := kernel in
  match nd.shape data with
  | [N; C; H'; W] =>
      if bool_decide (nd.shape weight = [num_filter; C; kh; kw]
                      ∧ nd.shape bias = [num_filter]
                      ∧ 0 < kh ≤ H' ∧ 0 < kw ≤ W) then
        Ok (nd.tabulate [N; num_filter; H' - kh + 1; W - kw + 1]
              (λ idx,
                 match idx with
                 | [n; f; i; j] =>
                     (nd.total
                        (flat_map (λ c,
                           flat_map (λ di,
                             map (λ dj, (nd.get data [n; c; (i + di)%nat; (j + dj)%nat]
                                         * nd.get weight [f; c; di; dj])%sc)
                                 (seq 0 kw))
                             (seq 0 kh))
                           (seq 0 C))
                      + nd.get bias [f])%sc
                 | _ => fzero
                 end))
      else Raise (MXNetError "Convolution: shapes of the arguments do not agree")
  | _ => Raise (MXNetError "Convolution: the input should be 4D")
  end.

(** [nd.Pooling(data, pool_type="avg", kernel, stride)] with the default
    convention and no padding: the mean of each window. *)
Definition Pooling (data : NDArray) (kernel stride : nat * nat) : result NDArray :=
  let '(kh, kw) := kernel in
  let '(sh, sw) := stride in
  match nd.shape data with
  | [N; C; H'; W] =>
      if bool_decide (0 < kh ≤ H' ∧ 0 < kw ≤ W ∧ 0 < sh ∧ 0 < sw) then
        Ok (nd.tabulate [N; C; 1 + (H' - kh) / sh; 1 + (W - kw) / sw]
              (λ idx,
                 match idx with
                 | [n; c; i; j] =>
                     (nd.total
                        (flat_map (λ di,
                           map (λ dj, nd.get data [n; c; (i * sh + di)%nat; (j * sw + dj)%nat])
                               (seq 0 kw))
                           (seq 0 kh))
                      / fof_nat (kh * kw)%nat)%sc
                 | _ => fzero
                 end))
      else Raise (MXNetError "Pooling: kernel size exceeds input")
  | _ => Raise (MXNetError "Pooling: the input should be 4D")
  end.

(** [nd.flatten(A)]: all the axes after the first collapsed into one. *)
Definition flatten (A : NDArray) : NDArray :=
  match nd.shape A with
  | d :: sh => nd.mkND [d; size sh] (nd.data A)
  | [] => A
  end.

(** [nd.dot(A, B)]: the sum of products over the last axis of [A] and the
    first axis of [B]. *)
Definition dot (A B : NDArray) : result NDArray :=
  let K := List.last (nd.shape A) 0 in
  let lead := length (nd.shape A) - 1 in
  if bool_decide (nd.shape A ≠ [] ∧ head (nd.shape B) = Some K) then
    Ok (nd.tabulate (at_least_1d (removelast (nd.shape A) ++ tl (nd.shape B)))
          (λ idx, nd.total
                    (map (λ k, (nd.get A (firstn lead idx ++ [k])
                                * nd.get B (k :: skipn lead idx))%sc)
                         (seq 0 K))))
  else Raise (MXNetError "dot: shapes of the operands do not agree").

End more_ndarray.
End ndarray.

(** ** The rest of the notebook: its other functions *)

(** Built-in exceptions, and how a function ends *)

(** The functions below can also end in an exception that Python itself
    raises. *)
Inductive error : Type :=
  | Raised (e : exn)
  | ZeroDivisionError (msg : string)
  | TypeError (msg : string)
  | AttributeError (msg : string).

Inductive ending (A : Type) : Type :=
  | Returns (a : A)
  | Fails (e : error).
Arguments Returns {A} a.
Arguments Fails {A} e.

Section rest_of_notebook.
Context {F : Type} `{Elementary F}.

#[local] Abbreviation NDArray := (nd.NDArray F).

(** *** Activation and loss (code cells 11 to 13) *)

(** [relu], line 493. *)
Definition relu (X : NDArray) : NDArray := ndarray.maximum X fzero.

(** [softmax], lines 512 to 514. *)
Definition softmax (y_linear : NDArray) : result NDArray :=
  shifted ← nd.broadcast_sub y_linear (ndarray.max y_linear);
  let exp := ndarray.exp shifted in
  let sums := ndarray.nansum exp [0] true in
  (* .reshape((-1, 1)) *)
  partition ← nd.reshape sums [size (nd.shape sums); 1];
  nd.broadcast_div exp partition.

(** [softmax_cross_entropy], line 533.  The unary minus of an array is its
    product with [-1.0]. *)
Definition softmax_cross_entropy (yhat_linear y : NDArray) : result NDArray :=
  products ← nd.broadcast_mul y (ndarray.log_softmax yhat_linear);
  Ok (nd.mul_scalar (ndarray.nansum products [0] true) (fliteral (-1) 0)).

(** *** The model (code cells 9 and 14) *)

(** The module-level arrays that [net] reads, as cell 9 names them. *)
Record parameters : Type := mkParameters {
  W1 : NDArray; b1 : NDArray; gamma1 : NDArray; beta1 : NDArray;
  W2 : NDArray; b2 : NDArray; gamma2 : NDArray; beta2 : NDArray;
  W3 : NDArray; b3 : NDArray; gamma3 : NDArray; beta3 : NDArray;
  W4 : NDArray; b4 : NDArray
}.

(** The defaults of [batch_norm] that [net] leaves in place: [momentum = 0.9]
    and [eps = 1e-5] (line 326). *)
Definition default_momentum : F := fliteral 9 (-1).
Definition default_eps : F := fliteral 1 (-5).

(** The computation of the first convolutional layer, lines 557 to 560. *)
Definition the_first_convolutional_layer (P : parameters) (X : NDArray)
    (is_training : bool) : Py F NDArray :=
  h1_conv ← lift (ndarray.Convolution X (W1 P) (b1 P) (3, 3) 20);
  h1_normed ← batch_norm h1_conv (gamma1 P) (beta1 P) default_momentum default_eps
                 "bn1" is_training false;
  let h1_activation := relu h1_normed in
  lift (ndarray.Pooling h1_activation (2, 2) (2, 2)).

(** The computation of the second convolutional layer, lines 567 to 570. *)
Definition the_second_convolutional_layer (P : parameters) (h1 : NDArray)
    (is_training : bool) : Py F NDArray :=
  h2_conv ← lift (ndarray.Convolution h1 (W2 P) (b2 P) (5, 5) 50);
  h2_normed ← batch_norm h2_conv (gamma2 P) (beta2 P) default_momentum default_eps
                 "bn2" is_training false;
  let h2_activation := relu h2_normed in
  lift (ndarray.Pooling h2_activation (2, 2) (2, 2)).

(** The computation of the third (fully-connected) layer, lines 584 to 586. *)
Definition the_third_layer (P : parameters) (h2 : NDArray) (is_training : bool)
    : Py F NDArray :=
  product ← lift (ndarray.dot h2 (W3 P));
  h3_linear ← lift (nd.broadcast_add product (b3 P));
  h3_normed ← batch_norm h3_linear (gamma3 P) (beta3 P) default_momentum default_eps
                 "bn3" is_training false;
  mret (relu h3_normed).

(** The computation of the output layer, line 593. *)
Definition the_output_layer (P : parameters) (h3 : NDArray) : Py F NDArray :=
  product ← lift (ndarray.dot h3 (W4 P));
  lift (nd.broadcast_add product (b4 P)).

(** [net], lines 553 to 597.  With [debug] the source prints the shapes of
    [h1], [h2], the flattened [h2], [h3] and [yhat_linear]; standard output
    is not part of the state. *)
Definition net (P : parameters) (X : NDArray) (is_training debug : bool)
    : Py F NDArray :=
  h1 ← the_first_convolutional_layer P X is_training;
  h2 ← the_second_convolutional_layer P h1 is_training;
  (* flattening h2 *)
  let h2 := ndarray.flatten h2 in
  h3 ← the_third_layer P h2 is_training;
  the_output_layer P h3.

(** *** The optimizer (code cell 17) *)

(** An array that [attach_grad] may have given a gradient buffer. *)
Record parameter : Type := mkParameter {
  value : NDArray;
  grad : option NDArray
}.

(** The arrays live in the heap; a Python list of arrays is a list of
    references into it, and the same reference may occur in it twice. *)
Definition heap : Type := nat → parameter.

Definition store (h : heap) (ref : nat) (p : parameter) : heap :=
  λ r, if r =? ref then p else h r.

(** [param[:] = param - lr * param.grad], line 662.  The assignment copies
    into the buffer of [param], whose shape the right-hand side must have;
    the gradient buffer is left alone. *)
Definition SGD_body (lr : F) (param : nat) (h : heap) : ending unit * heap :=
  match grad (h param) with
  | None =>
      (Fails (TypeError "unsupported operand type(s) for *: 'float' and 'NoneType'"), h)
  | Some gradient =>
      match nd.broadcast_sub (value (h param)) (nd.mul_scalar gradient lr) with
      | Raise e => (Fails (Raised e), h)
      | Ok new =>
          if decide (nd.shape new = nd.shape (value (h param))) then
            (Returns tt, store h param (mkParameter new (grad (h param))))
          else (Fails (Raised (MXNetError "copyto: shapes do not agree")), h)
      end
  end.

(** [SGD], lines 660 to 662. *)
Fixpoint SGD (params : list nat) (lr : F) (h : heap) : ending unit * heap :=
  match params with
  | [] => (Returns tt, h)
  | param :: rest =>
      match SGD_body lr param h with
      | (Returns _, h') => SGD rest lr h'
      | (Fails e, h') => (Fails e, h')
      end
  end.

(** *** The evaluation metric (code cell 18) *)

(** The value of [numerator]: the Python float it starts as, or the array
    that [+=] makes of it. *)
Inductive number : Type :=
  | PyFloat (x : F)
  | Array (a : NDArray).

(** [numerator += a] for an array [a]: on a float, the sum [a + numerator]
    that the array computes; on an array, the sum in place. *)
Definition iadd (numerator : number) (a : NDArray) : result number :=
  match numerator with
  | PyFloat x => Ok (Array (nd.plus_scalar a x))
  | Array n => s ← nd.broadcast_add n a; Ok (Array s)
  end.

(** The body of the loop, lines 684 to 690.  ([label_one_hot] is computed
    and not used.) *)
Definition evaluate_accuracy_body (net : NDArray → bool → Py F NDArray)
    (data label : NDArray) (numerator : number) (denominator : F)
    : Py F (number * F) :=
  output ← net data false;
  predictions ← lift (ndarray.argmax output 1);
  correct ← lift (ndarray.equal predictions label);
  numerator ← lift (iadd numerator (ndarray.sum correct));
  mret (numerator, (denominator + fof_nat (hd 0 (nd.shape data)))%sc).

Fixpoint evaluate_accuracy_loop (net : NDArray → bool → Py F NDArray)
    (data_iterator : list (NDArray * NDArray)) (numerator : number) (denominator : F)
    : Py F (number * F) :=
  match data_iterator with
  | [] => mret (numerator, denominator)
  | (data, label) :: rest =>
      '(numerator, denominator) ←
        evaluate_accuracy_body net data label numerator denominator;
      evaluate_accuracy_loop net rest numerator denominator
  end.

(** [(numerator / denominator).asscalar()], line 691. *)
Definition quotient (numerator : number) (denominator : F) : ending F :=
  match numerator with
  | PyFloat x =>
      if feqb denominator fzero then Fails (ZeroDivisionError "float division by zero")
      else Fails (AttributeError "'float' object has no attribute 'asscalar'")
  | Array n =>
      match ndarray.asscalar (ndarray.div_scalar n denominator) with
      | Ok x => Returns x
      | Raise e => Fails (Raised e)
      end
  end.

(** [evaluate_accuracy], lines 680 to 691. *)
Definition evaluate_accuracy (data_iterator : list (NDArray * NDArray))
    (net : NDArray → bool → Py F NDArray) (g : globals F) : ending F * globals F :=
  match run (evaluate_accuracy_loop net data_iterator (PyFloat fzero) fzero) g with
  | (Ok (numerator, denominator), g') => (quotient numerator denominator, g')
  | (Raise e, g') => (Fails (Raised e), g')
  end.

End rest_of_notebook.

Arguments parameters F : clear implicits.
Arguments parameter F : clear implicits.
Arguments heap F : clear implicits.
Arguments number F : clear implicits.

(** ** The model and the store, in the terms of the properties *)

Section net_specification.
Context {F : Type} `{Elementary F}.

#[local] Abbreviation NDArray := (nd.NDArray F).

(** The shapes that cell 9 gives the parameters ([num_fc = 128],
    [num_outputs = 10]). *)
Definition cell9_shapes (P : parameters F) : Prop :=
  nd.shape (W1 P) = [20; 1; 3; 3] ∧ nd.shape (b1 P) = [20] ∧
  nd.shape (gamma1 P) = [20] ∧ nd.shape (beta1 P) = [20] ∧
  nd.shape (W2 P) = [50; 20; 5; 5] ∧ nd.shape (b2 P) = [50] ∧
  nd.shape (gamma2 P) = [50] ∧ nd.shape (beta2 P) = [50] ∧
  nd.shape (W3 P) = [800; 128] ∧ nd.shape (b3 P) = [128] ∧
  nd.shape (gamma3 P) = [128] ∧ nd.shape (beta3 P) = [128] ∧
  nd.shape (W4 P) = [128; 10] ∧ nd.shape (b4 P) = [10].

(** The entry of [s], if any, holds [c] scalars per statistic. *)
Definition holds (g : globals F) (s : string) (c : nat) : Prop :=
  (∀ r, running_mean g s = Some r → nd.shape r = [c] ∧ nd.wf r) ∧
  (∀ r, running_var g s = Some r → nd.shape r = [c] ∧ nd.wf r).

(** The store is ready for a call of [net]: whatever the three layers have
    stored has the width of the layer. *)
Definition ready_for_net (g : globals F) : Prop :=
  bound_together g ∧ holds g "bn1" 20 ∧ holds g "bn2" 50 ∧ holds g "bn3" 128.

(** The three layers have running statistics. *)
Definition trained_net (g : globals F) : Prop :=
  ∀ s, In s net_scope_names → is_Some (running_mean g s) ∧ is_Some (running_var g s).

End net_specification.

(** ** The optimizer and the metric, in the terms of the properties *)

Section optimizer_specification.
Context {F : Type} `{Scalar F}.

#[local] Abbreviation NDArray := (nd.NDArray F).

(** The parameter has a gradient buffer of its own shape. *)
Definition has_gradient (h : heap F) (param : nat) : Prop :=
  ∃ gradient, grad (h param) = Some gradient ∧
              nd.shape gradient = nd.shape (value (h param)) ∧ nd.wf gradient.

(** The value [param - lr * param.grad]. *)
Definition stepped (lr : F) (p : parameter F) : NDArray :=
  nd.tabulate (nd.shape (value p))
    (λ idx, (nd.get (value p) idx
             - nd.get (default (value p) (grad p)) idx * lr)%sc).

End optimizer_specification.

Section metric_specification.
Context {F : Type} `{Elementary F}.

#[local] Abbreviation NDArray := (nd.NDArray F).

(** The rows of the scores [output] whose first largest score stands at the
    position that [label] names. *)
Definition correct_rows (output label : NDArray) : list nat :=
  match nd.shape output with
  | [n; K] =>
      List.filter
        (λ i, feqb (fof_nat (ndarray.argmax_of
                               (map (λ k, nd.get output [i; k]) (seq 0 K))))
                   (nd.get label [i]))
        (seq 0 n)
  | _ => []
  end.

(** Counting in whole numbers what [evaluate_accuracy] accumulates: the
    correct rows and the examples of the batches, and the globals that the
    calls of [net] leave.  There is no count when a call of [net] raises or
    when the scores of a batch are not a matrix with one row per label. *)
Fixpoint tally (net : NDArray → bool → Py F NDArray)
    (data_iterator : list (NDArray * NDArray)) (g : globals F)
    : option (nat * nat * globals F) :=
  match data_iterator with
  | [] => Some (0, 0, g)
  | (data, label) :: rest =>
      match run (net data false) g with
      | (Ok output, g1) =>
          let n := hd 0 (nd.shape data) in
          match nd.shape output with
          | [n'; K] =>
              if bool_decide (n' = n ∧ nd.shape label = [n]) then
                '(correct, examples, g') ← tally net rest g1;
                Some (length (correct_rows output label) + correct, n + examples, g')
              else None
          | _ => None
          end
      | (Raise _, _) => None
      end
  end.

End metric_specification.

(** ** A run of training-mode calls under one identifier *)

Section successive_calls.
Context {F : Type} `{Scalar F}.

#[local] Abbreviation NDArray := (nd.NDArray F).

(** Training-mode calls of [batch_norm] one after the other, each on its own
    batch, scale and shift, as the training loop makes them for one layer. *)
Fixpoint successive_calls (calls : list (NDArray * NDArray * NDArray))
    (momentum eps : F) (scope_name : string) : Py F unit :=
  match calls with
  | [] => mret tt
  | (X, gamma, beta) :: rest =>
      batch_norm X gamma beta momentum eps scope_name true false;;
      successive_calls rest momentum eps scope_name
  end.

(** The exponential moving average of a run of statistics that starts from
    [first]. *)
Definition moving_average (first : NDArray) (later : list NDArray) (momentum : F)
    : NDArray :=
  fold_left (λ running stat, spec_decay running stat momentum) later first.

(** A call on a batch of rank 2 or 4 with [c] features, with a scale and a
    shift per feature. *)
Definition call_with (c : nat) (call : NDArray * NDArray * NDArray) : Prop :=
  let '(X, gamma, beta) := call in
  valid_rank X ∧ features X = c ∧ nd.shape gamma = [c] ∧ nd.shape beta = [c].

End successive_calls.


(** ** Sample inputs for the rest of the notebook, over the reals *)

Module samples.

(** The array of shape [sh] that holds [x] everywhere. *)
Definition constant (sh : list nat) (x : R) : nd.NDArray R := nd.tabulate sh (λ _, x).

(** Parameters of the shapes of cell 9. *)
Definition P : parameters R := {|
  W1 := constant [20; 1; 3; 3] (1 / 100); b1 := constant [20] 0;
  gamma1 := constant [20] 1; beta1 := constant [20] 0;
  W2 := constant [50; 20; 5; 5] (1 / 100); b2 := constant [50] 0;
  gamma2 := constant [50] 1; beta2 := constant [50] 0;
  W3 := constant [800; 128] (1 / 100); b3 := constant [128] 0;
  gamma3 := constant [128] 1; beta3 := constant [128] 0;
  W4 := constant [128; 10] (1 / 100); b4 := constant [10] 0
|}.


(** A batch of one grey image, and its label. *)
Definition image : nd.NDArray R := constant [1; 1; 28; 28] (1 / 2).
Definition label : nd.NDArray R := nd.mkND [1] [7%R].


(** The matrix [A] of [inputs] shifted by 1 in its first column and by 2 in
    its second. *)
Definition shifted_A : nd.NDArray R := nd.mkND [3; 2] [2; 9; 6; 6; 7; 12]%R.
Definition shift (c : nat) : R := if c =? 0 then 1%R else 2%R.

(** A matrix with negative elements. *)
Definition signed : nd.NDArray R := nd.mkND [2; 2] [-1; 2; 0; -3]%R.

(** The matrix [A] as the scores of three examples over two classes, the
    classes of the three examples, and the same classes one-hot. *)
Definition classes : nd.NDArray R := nd.mkND [3] [1; 0; 0]%R.
Definition one_hot : nd.NDArray R := nd.mkND [3; 2] [0; 1; 1; 0; 1; 0]%R.

(** A model that returns its input as the scores. *)
Definition scores_net (X : nd.NDArray R) (is_training : bool) : Py R (nd.NDArray R) :=
  mret X.

(** A heap in which every array is [A] with the gradient [A'], except the
    array at reference 2, which has no gradient. *)
Definition arrays : heap R :=
  λ ref, mkParameter inputs.A (if ref =? 2 then None else Some inputs.A').

End samples.

(** * Properties *)

(** ** Index arithmetic *)

Lemma ravel_lt sh : ∀ idx, in_bounds idx sh → ravel sh idx < size sh.
Proof.
  induction sh as [|d sh IH]; intros idx Hb;
    inversion Hb as [|i ? idx' ? Hi Hrest]; subst; simpl.
  - lia.
  - specialize (IH _ Hrest). nia.
Qed.

Lemma unravel_ravel sh : ∀ idx, in_bounds idx sh → unravel sh (ravel sh idx) = idx.
Proof.
  induction sh as [|d sh IH]; intros idx Hb;
    inversion Hb as [|i ? idx' ? Hi Hrest]; subst; simpl.
  - reflexivity.
  - pose proof (ravel_lt _ _ Hrest) as Hlt.
    assert (Hdiv : (i * size sh + ravel sh idx') / size sh = i).
    { rewrite Nat.div_add_l by lia. rewrite Nat.div_small by lia. lia. }
    assert (Hmod : (i * size sh + ravel sh idx') mod size sh = ravel sh idx').
    { rewrite Nat.add_comm, Nat.Div0.mod_add. apply Nat.mod_small. lia. }
    rewrite Hdiv, Hmod, IH by assumption. reflexivity.
Qed.

Lemma unravel_in_bounds sh : ∀ k, k < size sh → in_bounds (unravel sh k) sh.
Proof.
  induction sh as [|d sh IH]; intros k Hk; simpl in *.
  - constructor.
  - assert (Hpos : 0 < size sh) by (destruct (size sh); lia).
    constructor.
    + apply Nat.Div0.div_lt_upper_bound. lia.
    + apply IH. apply Nat.mod_upper_bound. lia.
Qed.

Lemma ravel_unravel sh : ∀ k, k < size sh → ravel sh (unravel sh k) = k.
Proof.
  induction sh as [|d sh IH]; intros k Hk; simpl in *.
  - lia.
  - assert (Hpos : 0 < size sh) by (destruct (size sh); lia).
    rewrite IH by (apply Nat.mod_upper_bound; lia).
    pose proof (Nat.div_mod_eq k (size sh)). lia.
Qed.

(** ** The array library *)

Section nd_facts.
Context {F : Type} `{Scalar F}.

#[local] Abbreviation NDArray := (nd.NDArray F).

Lemma wf_tabulate sh (f : list nat → F) : nd.wf (nd.tabulate sh f).
Proof. unfold nd.wf, nd.tabulate. simpl. by rewrite length_map, length_seq. Qed.

Lemma get_tabulate sh (f : list nat → F) idx :
  in_bounds idx sh → nd.get (nd.tabulate sh f) idx = f idx.
Proof.
  intros Hb. unfold nd.get, nd.tabulate. simpl.
  pose proof (ravel_lt _ _ Hb) as Hlt.
  rewrite (nth_indep _ fzero (f (unravel sh 0))) by (by rewrite length_map, length_seq).
  rewrite (map_nth (λ k, f (unravel sh k)) (seq 0 (size sh)) 0).
  rewrite seq_nth by assumption. simpl. by rewrite unravel_ravel.
Qed.

Lemma tabulate_ext sh (f f' : list nat → F) :
  (∀ idx, in_bounds idx sh → f idx = f' idx) → nd.tabulate sh f = nd.tabulate sh f'.
Proof.
  intros Hext. unfold nd.tabulate. f_equal. apply map_ext_in.
  intros k Hk. apply in_seq in Hk. apply Hext, unravel_in_bounds. lia.
Qed.

Lemma wf_map_nd (f : F → F) (A : NDArray) : nd.wf A → nd.wf (nd.map_nd f A).
Proof. unfold nd.wf, nd.map_nd. simpl. by rewrite length_map. Qed.

Lemma get_map_nd (f : F → F) (A : NDArray) idx :
  nd.wf A → in_bounds idx (nd.shape A) →
  nd.get (nd.map_nd f A) idx = f (nd.get A idx).
Proof.
  intros Hwf Hb. unfold nd.get, nd.map_nd. simpl.
  pose proof (ravel_lt _ _ Hb) as Hlt. rewrite <- Hwf in Hlt.
  rewrite (nth_indep _ fzero (f fzero)) by (by rewrite length_map).
  apply map_nth.
Qed.

(** Two well-formed arrays of one shape with the same elements are equal. *)
Lemma ndarray_ext (A B : NDArray) :
  nd.wf A → nd.wf B → nd.shape A = nd.shape B →
  (∀ idx, in_bounds idx (nd.shape A) → nd.get A idx = nd.get B idx) → A = B.
Proof.
  destruct A as [sa da], B as [sb db]. unfold nd.wf, nd.get. simpl.
  intros Ha Hb -> Hget. f_equal.
  apply (nth_ext _ _ fzero fzero); [congruence|].
  intros k Hk. rewrite Ha in Hk.
  specialize (Hget _ (unravel_in_bounds _ _ Hk)).
  by rewrite ravel_unravel in Hget.
Qed.

Lemma clamp_in_bounds sa : ∀ idx, in_bounds idx sa → nd.clamp sa idx = idx.
Proof.
  induction sa as [|d sa IH]; intros idx Hb;
    inversion Hb as [|i ? idx' ? Hi Hrest]; subst; simpl.
  - reflexivity.
  - rewrite IH by assumption. destruct (Nat.eqb_spec d 1); [f_equal; lia | reflexivity].
Qed.

Lemma broadcast_dim_refl a : nd.broadcast_dim a a = Some a.
Proof. unfold nd.broadcast_dim. by rewrite Nat.eqb_refl. Qed.

Lemma broadcast_dim_1_r a : nd.broadcast_dim a 1 = Some a.
Proof.
  unfold nd.broadcast_dim. destruct (Nat.eqb_spec a 1); [congruence | reflexivity].
Qed.

Lemma broadcast_dim_1_l b : nd.broadcast_dim 1 b = Some b.
Proof.
  unfold nd.broadcast_dim. destruct (Nat.eqb_spec 1 b); [congruence | reflexivity].
Qed.

Lemma broadcast_aligned_refl sh : nd.broadcast_aligned sh sh = Some sh.
Proof. induction sh as [|d sh IH]; simpl; [done|]. by rewrite broadcast_dim_refl, IH. Qed.

Lemma broadcast_shape_refl sh : nd.broadcast_shape sh sh = Some sh.
Proof.
  unfold nd.broadcast_shape, nd.pad_left.
  rewrite Nat.max_id, Nat.sub_diag. simpl. apply broadcast_aligned_refl.
Qed.

(** *** Broadcasting at the shapes of the notebook *)

Lemma broadcast_shape_rows N Fe : nd.broadcast_shape [N; Fe] [Fe] = Some [N; Fe].
Proof.
  unfold nd.broadcast_shape, nd.pad_left. simpl.
  by rewrite broadcast_dim_1_r, broadcast_dim_refl.
Qed.

Lemma broadcast_shape_rows_l N Fe : nd.broadcast_shape [Fe] [N; Fe] = Some [N; Fe].
Proof.
  unfold nd.broadcast_shape, nd.pad_left. simpl.
  by rewrite broadcast_dim_1_l, broadcast_dim_refl.
Qed.

Lemma broadcast_shape_channels N C H' W :
  nd.broadcast_shape [N; C; H'; W] [1; C; 1; 1] = Some [N; C; H'; W].
Proof.
  unfold nd.broadcast_shape, nd.pad_left. simpl.
  by rewrite !broadcast_dim_1_r, broadcast_dim_refl.
Qed.

Lemma broadcast_shape_channels_l N C H' W :
  nd.broadcast_shape [1; C; 1; 1] [N; C; H'; W] = Some [N; C; H'; W].
Proof.
  unfold nd.broadcast_shape, nd.pad_left. simpl.
  by rewrite !broadcast_dim_1_l, broadcast_dim_refl.
Qed.

(** An operator on two arrays of one shape works element by element. *)
Lemma broadcast_same (f : F → F → F) (A B : NDArray) sh :
  nd.shape A = sh → nd.shape B = sh →
  nd.broadcast f A B = Ok (nd.tabulate sh (λ idx, f (nd.get A idx) (nd.get B idx))).
Proof.
  intros Ha Hb. unfold nd.broadcast. rewrite Ha, Hb, broadcast_shape_refl.
  f_equal. apply tabulate_ext. intros idx Hidx.
  unfold nd.bindex. rewrite (Forall2_length _ _ _ Hidx), Nat.sub_diag. simpl.
  by rewrite clamp_in_bounds.
Qed.

(** A rank-2 array against a per-feature array: every row meets the same
    per-feature values. *)
Lemma broadcast_rows (f : F → F → F) (A v : NDArray) N Fe :
  nd.shape A = [N; Fe] → nd.shape v = [Fe] →
  nd.broadcast f A v
  = Ok (nd.tabulate [N; Fe] (λ idx, f (nd.get A idx) (nd.get v [feature_of idx]))).
Proof.
  intros Ha Hv. unfold nd.broadcast. rewrite Ha, Hv, broadcast_shape_rows.
  f_equal. apply tabulate_ext. intros idx Hidx.
  inversion Hidx as [|i ? l ? Hi Hl]; subst. inversion Hl as [|j ? l' ? Hj Hl']; subst.
  inversion Hl'; subst.
  unfold nd.bindex, feature_of. simpl length. simpl skipn. simpl nth.
  rewrite (clamp_in_bounds [N; Fe] [i; j]) by assumption.
  rewrite (clamp_in_bounds [Fe] [j]) by (by constructor).
  reflexivity.
Qed.

Lemma broadcast_rows_l (f : F → F → F) (v A : NDArray) N Fe :
  nd.shape A = [N; Fe] → nd.shape v = [Fe] →
  nd.broadcast f v A
  = Ok (nd.tabulate [N; Fe] (λ idx, f (nd.get v [feature_of idx]) (nd.get A idx))).
Proof.
  intros Ha Hv. unfold nd.broadcast. rewrite Ha, Hv, broadcast_shape_rows_l.
  f_equal. apply tabulate_ext. intros idx Hidx.
  inversion Hidx as [|i ? l ? Hi Hl]; subst. inversion Hl as [|j ? l' ? Hj Hl']; subst.
  inversion Hl'; subst.
  unfold nd.bindex, feature_of. simpl length. simpl skipn. simpl nth.
  rewrite (clamp_in_bounds [N; Fe] [i; j]) by assumption.
  rewrite (clamp_in_bounds [Fe] [j]) by (by constructor).
  reflexivity.
Qed.

(** [a.reshape((1, C, 1, 1))] of a per-channel array. *)
Lemma reshape_channels (a : NDArray) C :
  nd.shape a = [C] → nd.reshape a [1; C; 1; 1] = Ok (nd.mkND [1; C; 1; 1] (nd.data a)).
Proof.
  intros Ha. unfold nd.reshape. rewrite Ha.
  replace (size [1; C; 1; 1] =? size [C]) with true; [done|].
  symmetry. apply Nat.eqb_eq. simpl. lia.
Qed.

Lemma get_reshaped_channels (l : list F) C c :
  nd.get (nd.mkND [1; C; 1; 1] l) [0; c; 0; 0] = nd.get (nd.mkND [C] l) [c].
Proof. reflexivity. Qed.

(** A rank-4 array against a per-channel array reshaped to [(1, C, 1, 1)]. *)
Lemma broadcast_channels (f : F → F → F) (A : NDArray) (l : list F) N C H' W :
  nd.shape A = [N; C; H'; W] →
  nd.broadcast f A (nd.mkND [1; C; 1; 1] l)
  = Ok (nd.tabulate [N; C; H'; W]
          (λ idx, f (nd.get A idx) (nd.get (nd.mkND [C] l) [feature_of idx]))).
Proof.
  intros Ha. unfold nd.broadcast. rewrite Ha. simpl nd.shape.
  rewrite broadcast_shape_channels.
  f_equal. apply tabulate_ext. intros idx Hidx.
  inversion Hidx as [|n ? l1 ? Hn Hl1]; subst. inversion Hl1 as [|c ? l2 ? Hc Hl2]; subst.
  inversion Hl2 as [|h ? l3 ? Hh Hl3]; subst. inversion Hl3 as [|w ? l4 ? Hw Hl4]; subst.
  inversion Hl4; subst.
  unfold nd.bindex, feature_of. simpl length. simpl skipn. simpl nth.
  rewrite (clamp_in_bounds [N; C; H'; W] [n; c; h; w]) by assumption.
  f_equal. rewrite <- get_reshaped_channels. f_equal. simpl.
  destruct (Nat.eqb_spec C 1); [assert (c = 0) as -> by lia|]; reflexivity.
Qed.

Lemma broadcast_channels_l (f : F → F → F) (A : NDArray) (l : list F) N C H' W :
  nd.shape A = [N; C; H'; W] →
  nd.broadcast f (nd.mkND [1; C; 1; 1] l) A
  = Ok (nd.tabulate [N; C; H'; W]
          (λ idx, f (nd.get (nd.mkND [C] l) [feature_of idx]) (nd.get A idx))).
Proof.
  intros Ha. unfold nd.broadcast. rewrite Ha. simpl nd.shape.
  rewrite broadcast_shape_channels_l.
  f_equal. apply tabulate_ext. intros idx Hidx.
  inversion Hidx as [|n ? l1 ? Hn Hl1]; subst. inversion Hl1 as [|c ? l2 ? Hc Hl2]; subst.
  inversion Hl2 as [|h ? l3 ? Hh Hl3]; subst. inversion Hl3 as [|w ? l4 ? Hw Hl4]; subst.
  inversion Hl4; subst.
  unfold nd.bindex, feature_of. simpl length. simpl skipn. simpl nth.
  rewrite (clamp_in_bounds [N; C; H'; W] [n; c; h; w]) by assumption.
  f_equal. rewrite <- get_reshaped_channels. f_equal. simpl.
  destruct (Nat.eqb_spec C 1); [assert (c = 0) as -> by lia|]; reflexivity.
Qed.

(** *** Reduction at the shapes of the notebook *)

Lemma flat_map_singleton {A B : Type} (f : A → B) (l : list A) :
  flat_map (λ x, [f x]) l = map f l.
Proof. induction l as [|x l IH]; simpl; [done | by rewrite IH]. Qed.

Lemma map_over_flat_map {A B C : Type} (f : B → C) (g : A → list B) (l : list A) :
  map f (flat_map g l) = flat_map (λ x, map f (g x)) l.
Proof. induction l as [|x l IH]; simpl; [done | by rewrite map_app, IH]. Qed.

Lemma slots_rank2 N Fe j :
  nd.slots [0] 0 [N; Fe] [j] = reduced_indices [N; Fe] j.
Proof. simpl. apply flat_map_singleton. Qed.

Lemma slots_rank4 N C H' W c :
  nd.slots [0; 2; 3] 0 [N; C; H'; W] [c] = reduced_indices [N; C; H'; W] c.
Proof.
  simpl. apply flat_map_ext. intros n.
  rewrite map_map, map_over_flat_map. apply flat_map_ext. intros h.
  rewrite map_map, map_over_flat_map. simpl. apply flat_map_singleton.
Qed.

(** [nd.mean(Y, axis=0)] of a rank-2 array: per feature, over axis 0. *)
Lemma mean_rank2 (Y : NDArray) N Fe :
  nd.shape Y = [N; Fe] →
  nd.mean Y [0]
  = nd.tabulate [Fe]
      (λ idx, (nd.total (map (nd.get Y) (reduced_indices [N; Fe] (hd 0 idx)))
               / fof_nat (reduced_elements [N; Fe]))%sc).
Proof.
  intros HY. unfold nd.mean. rewrite HY.
  change (nd.reduced_shape [0] 0 [N; Fe]) with [Fe].
  apply tabulate_ext. intros idx Hidx.
  inversion Hidx as [|j ? l ? Hj Hl]; subst. inversion Hl; subst.
  rewrite slots_rank2. simpl hd. do 2 f_equal. simpl. lia.
Qed.

(** [nd.mean(Y, axis=(0, 2, 3))] of a rank-4 array: per channel, over axes
    0, 2 and 3. *)
Lemma mean_rank4 (Y : NDArray) N C H' W :
  nd.shape Y = [N; C; H'; W] →
  nd.mean Y [0; 2; 3]
  = nd.tabulate [C]
      (λ idx, (nd.total (map (nd.get Y) (reduced_indices [N; C; H'; W] (hd 0 idx)))
               / fof_nat (reduced_elements [N; C; H'; W]))%sc).
Proof.
  intros HY. unfold nd.mean. rewrite HY.
  change (nd.reduced_shape [0; 2; 3] 0 [N; C; H'; W]) with [C].
  apply tabulate_ext. intros idx Hidx.
  inversion Hidx as [|j ? l ? Hj Hl]; subst. inversion Hl; subst.
  rewrite slots_rank4. simpl hd. do 2 f_equal. simpl. lia.
Qed.

(** The reduced indices of a feature lie in the array and in that feature. *)
Lemma reduced_indices_spec sh c idx :
  c < nth 1 sh 0 → In idx (reduced_indices sh c) →
  in_bounds idx sh ∧ feature_of idx = c.
Proof.
  intros Hc Hin. unfold reduced_indices in Hin.
  destruct sh as [|N [|C [|H' [|W [|? ?]]]]]; simpl in Hin; try done.
  - apply in_map_iff in Hin as (i & <- & Hi). apply in_seq in Hi.
    simpl in Hc. split; [|done]. repeat constructor; lia.
  - apply in_flat_map in Hin as (n & Hn & Hin). apply in_seq in Hn.
    apply in_flat_map in Hin as (h & Hh & Hin). apply in_seq in Hh.
    apply in_map_iff in Hin as (w & <- & Hw). apply in_seq in Hw.
    simpl in Hc. split; [|done]. repeat constructor; lia.
Qed.

End nd_facts.

(** ** The two blocks of [batch_norm] *)

Section batch_norm_facts.
Context {F : Type} `{Scalar F}.

#[local] Abbreviation NDArray := (nd.NDArray F).

Lemma mkND_eta (a : NDArray) sh : nd.shape a = sh → nd.mkND sh (nd.data a) = a.
Proof. destruct a. simpl. by intros ->. Qed.

(** *** The batch statistics *)

Lemma batch_mean_dense (X : NDArray) N Fe :
  nd.shape X = [N; Fe] → nd.mean X [0] = spec_batch_mean X.
Proof.
  intros HX. rewrite (mean_rank2 X N Fe HX).
  unfold spec_batch_mean, spec_mean_at, features. by rewrite HX.
Qed.

Lemma batch_mean_conv (X : NDArray) N C H' W :
  nd.shape X = [N; C; H'; W] → nd.mean X [0; 2; 3] = spec_batch_mean X.
Proof.
  intros HX. rewrite (mean_rank4 X N C H' W HX).
  unfold spec_batch_mean, spec_mean_at, features. by rewrite HX.
Qed.

Lemma centered_squares (X : NDArray) c :
  c < features X →
  map (nd.get (nd.power_scalar (centered X (spec_batch_mean X)) 2))
      (reduced_indices (nd.shape X) c)
  = map (λ idx, fpow (nd.get X idx - spec_mean_at X c)%sc 2)
        (reduced_indices (nd.shape X) c).
Proof.
  intros Hc. apply map_ext_in. intros idx Hin.
  destruct (reduced_indices_spec _ _ _ Hc Hin) as [Hb Hf].
  unfold nd.power_scalar, centered.
  rewrite get_map_nd by (apply wf_tabulate || done).
  rewrite get_tabulate by done. rewrite Hf.
  unfold spec_batch_mean. rewrite get_tabulate by (by repeat constructor).
  reflexivity.
Qed.

Lemma batch_variance_dense (X : NDArray) N Fe :
  nd.shape X = [N; Fe] →
  nd.mean (nd.power_scalar (centered X (spec_batch_mean X)) 2) [0]
  = spec_batch_variance X.
Proof.
  intros HX. rewrite (mean_rank2 _ N Fe) by (by simpl).
  unfold spec_batch_variance, spec_variance_at.
  assert (HFe : features X = Fe) by (unfold features; by rewrite HX).
  rewrite HFe. apply tabulate_ext. intros idx Hidx.
  inversion Hidx as [|j ? l ? Hj Hl]; subst. inversion Hl; subst. simpl hd.
  rewrite <- (centered_squares X j) by lia. by rewrite HX.
Qed.

Lemma batch_variance_conv (X : NDArray) N C H' W :
  nd.shape X = [N; C; H'; W] →
  nd.mean (nd.power_scalar (centered X (spec_batch_mean X)) 2) [0; 2; 3]
  = spec_batch_variance X.
Proof.
  intros HX. rewrite (mean_rank4 _ N C H' W) by (by simpl).
  unfold spec_batch_variance, spec_variance_at.
  assert (HC : features X = C) by (unfold features; by rewrite HX).
  rewrite HC. apply tabulate_ext. intros idx Hidx.
  inversion Hidx as [|j ? l ? Hj Hl]; subst. inversion Hl; subst. simpl hd.
  rewrite <- (centered_squares X j) by lia. by rewrite HX.
Qed.

Lemma per_feature_mean (X : NDArray) : per_feature X (spec_batch_mean X).
Proof. reflexivity. Qed.

Lemma per_feature_variance (X : NDArray) : per_feature X (spec_batch_variance X).
Proof. reflexivity. Qed.

(** *** Normalisation, scale and shift *)

Lemma feature_in_bounds (X : NDArray) idx :
  valid_rank X → in_bounds idx (nd.shape X) → in_bounds [feature_of idx] [features X].
Proof.
  intros Hr Hb. unfold features, feature_of.
  destruct Hr as [Hr|Hr]; destruct (nd.shape X) as [|? [|? ?]]; try done;
    inversion Hb as [|? ? ? ? ? Hb1]; subst; inversion Hb1; subst;
    simpl; by repeat constructor.
Qed.

(** [(X - mean) * 1.0 / nd.sqrt(variance + eps)] for any per-feature [mean]
    and [variance] (rank 2). *)
Lemma x_hat_dense (X mean variance : NDArray) (eps : F) N Fe :
  nd.shape X = [N; Fe] →
  per_feature X mean → per_feature X variance → nd.wf variance →
  (xc ← nd.broadcast_sub X mean;
   nd.broadcast_div (nd.mul_scalar xc fone) (nd.sqrt (nd.plus_scalar variance eps)))
  = Ok (spec_x_hat X eps mean variance).
Proof.
  intros HX Hm Hv Hwf.
  assert (Hr : valid_rank X) by (left; by rewrite HX).
  unfold per_feature, features in *. rewrite HX in *. simpl in Hm, Hv.
  unfold nd.broadcast_sub, nd.broadcast_div.
  rewrite (broadcast_rows _ X mean N Fe) by done. simpl.
  rewrite (broadcast_rows _ _ _ N Fe) by done.
  f_equal. unfold spec_x_hat. rewrite HX.
  apply tabulate_ext. intros idx Hidx.
  assert (Hc : in_bounds [feature_of idx] [Fe]).
  { pose proof (feature_in_bounds X idx Hr) as Hfb.
    unfold features in Hfb. rewrite HX in Hfb. by apply Hfb. }
  unfold nd.mul_scalar, nd.sqrt, nd.plus_scalar.
  rewrite get_map_nd by (apply wf_tabulate || done).
  rewrite get_tabulate by done. rewrite fmul_1_r.
  rewrite !get_map_nd; try done; try (by apply wf_map_nd); simpl; by rewrite Hv.
Qed.

(** The same for rank 4, each per-channel array reshaped to [(1, C, 1, 1)]. *)
Lemma x_hat_conv (X mean variance : NDArray) (eps : F) N C H' W :
  nd.shape X = [N; C; H'; W] →
  per_feature X mean → per_feature X variance → nd.wf variance →
  (m4 ← nd.reshape mean [1; C; 1; 1];
   xc ← nd.broadcast_sub X m4;
   v4 ← nd.reshape variance [1; C; 1; 1];
   nd.broadcast_div (nd.mul_scalar xc fone) (nd.sqrt (nd.plus_scalar v4 eps)))
  = Ok (spec_x_hat X eps mean variance).
Proof.
  intros HX Hm Hv Hwf.
  assert (Hr : valid_rank X) by (right; by rewrite HX).
  unfold per_feature, features in *. rewrite HX in *. simpl in Hm, Hv.
  unfold nd.broadcast_sub, nd.broadcast_div.
  rewrite !reshape_channels by done. simpl.
  rewrite (broadcast_channels _ X _ N C H' W) by done. simpl.
  change (nd.sqrt (nd.plus_scalar (nd.mkND [1; C; 1; 1] (nd.data variance)) eps))
    with (nd.mkND [1; C; 1; 1] (map fsqrt (map (λ x, (x + eps)%sc) (nd.data variance)))).
  rewrite (broadcast_channels _ _ _ N C H' W) by done.
  f_equal. unfold spec_x_hat. rewrite HX.
  apply tabulate_ext. intros idx Hidx.
  assert (Hc : in_bounds [feature_of idx] [C]).
  { pose proof (feature_in_bounds X idx Hr) as Hfb.
    unfold features in Hfb. rewrite HX in Hfb. by apply Hfb. }
  unfold nd.mul_scalar.
  rewrite get_map_nd by (apply wf_tabulate || done).
  rewrite get_tabulate by done. rewrite fmul_1_r.
  rewrite !mkND_eta by done.
  change (nd.mkND [C] (map fsqrt (map (λ x, (x + eps)%sc) (nd.data variance))))
    with (nd.map_nd fsqrt (nd.map_nd (λ x, (x + eps)%sc)
                             (nd.mkND [C] (nd.data variance)))).
  rewrite (mkND_eta variance) by done.
  rewrite !get_map_nd; try done; try (by apply wf_map_nd); simpl; by rewrite Hv.
Qed.

(** [gamma * X_hat + beta] (rank 2). *)
Lemma affine_dense (X gamma beta mean variance : NDArray) (eps : F) N Fe :
  nd.shape X = [N; Fe] → per_feature X gamma → per_feature X beta →
  (gx ← nd.broadcast_mul gamma (spec_x_hat X eps mean variance);
   nd.broadcast_add gx beta)
  = Ok (spec_normalize X gamma beta eps mean variance).
Proof.
  intros HX Hg Hb.
  unfold per_feature, features in *. rewrite HX in *. simpl in Hg, Hb.
  unfold nd.broadcast_mul, nd.broadcast_add.
  rewrite (broadcast_rows_l _ gamma _ N Fe) by (done || (simpl; by rewrite HX)). simpl.
  rewrite (broadcast_rows _ _ beta N Fe) by done.
  f_equal. unfold spec_normalize, spec_x_hat. rewrite HX.
  apply tabulate_ext. intros idx Hidx. by rewrite !get_tabulate.
Qed.

(** [gamma.reshape((1, C, 1, 1)) * X_hat + beta.reshape((1, C, 1, 1))]. *)
Lemma affine_conv (X gamma beta mean variance : NDArray) (eps : F) N C H' W :
  nd.shape X = [N; C; H'; W] → per_feature X gamma → per_feature X beta →
  (g4 ← nd.reshape gamma [1; C; 1; 1];
   gx ← nd.broadcast_mul g4 (spec_x_hat X eps mean variance);
   b4 ← nd.reshape beta [1; C; 1; 1];
   nd.broadcast_add gx b4)
  = Ok (spec_normalize X gamma beta eps mean variance).
Proof.
  intros HX Hg Hb.
  unfold per_feature, features in *. rewrite HX in *. simpl in Hg, Hb.
  unfold nd.broadcast_mul, nd.broadcast_add.
  rewrite !reshape_channels by done. simpl.
  rewrite (broadcast_channels_l _ _ _ N C H' W) by (simpl; by rewrite HX). simpl.
  rewrite (broadcast_channels _ _ _ N C H' W) by done.
  f_equal. unfold spec_normalize, spec_x_hat. rewrite HX.
  apply tabulate_ext. intros idx Hidx.
  rewrite !get_tabulate by done. by rewrite !mkND_eta.
Qed.

Lemma centered_dense (X m : NDArray) N Fe :
  nd.shape X = [N; Fe] → per_feature X m → nd.broadcast_sub X m = Ok (centered X m).
Proof.
  intros HX Hm. unfold per_feature, features in Hm. rewrite HX in Hm.
  unfold nd.broadcast_sub. rewrite (broadcast_rows _ X m N Fe) by done.
  unfold centered. by rewrite HX.
Qed.

Lemma centered_conv (X m : NDArray) N C H' W :
  nd.shape X = [N; C; H'; W] → per_feature X m →
  nd.broadcast_sub X (nd.mkND [1; C; 1; 1] (nd.data m)) = Ok (centered X m).
Proof.
  intros HX Hm. unfold per_feature, features in Hm. rewrite HX in Hm.
  unfold nd.broadcast_sub. rewrite (broadcast_channels _ X _ N C H' W) by done.
  unfold centered. rewrite HX. by rewrite mkND_eta.
Qed.

Lemma decay_code (running stat : NDArray) (momentum : F) :
  nd.wf running → nd.wf stat → nd.shape running = nd.shape stat →
  nd.broadcast_add (nd.mul_scalar running momentum)
                   (nd.mul_scalar stat (fone - momentum)%sc)
  = Ok (spec_decay running stat momentum).
Proof.
  intros Hr Hs Hsh. unfold nd.broadcast_add.
  rewrite (broadcast_same _ _ _ (nd.shape stat)) by done.
  f_equal. apply tabulate_ext. intros idx Hidx.
  unfold nd.mul_scalar. rewrite !get_map_nd; try done. by rewrite Hsh.
Qed.

Lemma valid_rank_cases (X : NDArray) :
  valid_rank X →
  (∃ N Fe, nd.shape X = [N; Fe]) ∨ (∃ N C H' W, nd.shape X = [N; C; H'; W]).
Proof.
  intros [Hr|Hr]; destruct (nd.shape X) as [|N [|C [|H' [|W [|? ?]]]]]; try done;
    [left | right]; eauto.
Qed.

(** One step of a Python computation. *)
Ltac py_step := cbn [run mbind Py_bind lift mret Py_ret raise load_MEANS load_VARS].

(** Follow a chain of library calls that is known to end in a value. *)
Ltac follow Hn :=
  repeat match type of Hn with
         | mbind _ ?r = Ok _ =>
             destruct r eqn:?; cbn [mbind result_bind] in Hn; [|discriminate Hn];
             py_step
         end.

(** The batch statistics and the first steps of the two branches. *)
Ltac enter_dense X N Fe HX :=
  unfold the_usual_batch_norm_transformation, rank_not_in_2_4; rewrite HX;
  simpl negb; cbv iota; simpl Nat.eqb; cbv iota;
  rewrite (batch_mean_dense X N Fe HX);
  rewrite (centered_dense X _ N Fe HX (per_feature_mean X));
  py_step;
  rewrite (batch_variance_dense X N Fe HX).

Ltac enter_conv X N C H' W HX :=
  unfold the_usual_batch_norm_transformation, rank_not_in_2_4; rewrite HX;
  simpl negb; cbv iota; simpl Nat.eqb; cbv iota;
  rewrite (batch_mean_conv X N C H' W HX);
  rewrite (reshape_channels (spec_batch_mean X) C)
    by (unfold spec_batch_mean, features; by rewrite HX);
  py_step;
  rewrite (centered_conv X _ N C H' W HX (per_feature_mean X));
  py_step;
  rewrite (batch_variance_conv X N C H' W HX);
  rewrite (reshape_channels (spec_batch_variance X) C)
    by (unfold spec_batch_variance, features; by rewrite HX);
  py_step.

Lemma transformation_training (X gamma beta : NDArray) (eps : F) s g :
  valid_rank X → per_feature X gamma → per_feature X beta →
  run (the_usual_batch_norm_transformation X gamma beta eps s true) g
  = (Ok (spec_batch_mean X, spec_batch_variance X,
         spec_normalize X gamma beta eps (spec_batch_mean X) (spec_batch_variance X)),
     g).
Proof.
  intros Hr Hg Hb.
  destruct (valid_rank_cases X Hr) as [(N & Fe & HX)|(N & C & H' & W & HX)].
  - pose proof (x_hat_dense X _ _ eps N Fe HX (per_feature_mean X)
                  (per_feature_variance X) (wf_tabulate _ _)) as Hx.
    pose proof (affine_dense X gamma beta (spec_batch_mean X) (spec_batch_variance X)
                  eps N Fe HX Hg Hb) as Ha.
    enter_dense X N Fe HX.
    rewrite (centered_dense X _ N Fe HX (per_feature_mean X)) in Hx.
    cbn [mbind result_bind] in Hx. rewrite Hx. py_step.
    follow Ha. by rewrite Ha.
  - pose proof (x_hat_conv X _ _ eps N C H' W HX (per_feature_mean X)
                  (per_feature_variance X) (wf_tabulate _ _)) as Hx.
    pose proof (affine_conv X gamma beta (spec_batch_mean X) (spec_batch_variance X)
                  eps N C H' W HX Hg Hb) as Ha.
    enter_conv X N C H' W HX.
    rewrite (reshape_channels (spec_batch_mean X) C) in Hx
      by (unfold spec_batch_mean, features; by rewrite HX).
    cbn [mbind result_bind] in Hx.
    rewrite (centered_conv X _ N C H' W HX (per_feature_mean X)) in Hx.
    cbn [mbind result_bind] in Hx.
    rewrite (reshape_channels (spec_batch_variance X) C) in Hx
      by (unfold spec_batch_variance, features; by rewrite HX).
    cbn [mbind result_bind] in Hx. rewrite Hx. py_step.
    follow Ha. by rewrite Ha.
Qed.

Lemma transformation_inference (X gamma beta : NDArray) (eps : F) s g rm rv :
  valid_rank X → per_feature X gamma → per_feature X beta →
  running_mean g s = Some rm → running_var g s = Some rv →
  per_feature X rm → per_feature X rv → nd.wf rv →
  run (the_usual_batch_norm_transformation X gamma beta eps s false) g
  = (Ok (spec_batch_mean X, spec_batch_variance X,
         spec_normalize X gamma beta eps rm rv),
     g).
Proof.
  intros Hr Hg Hb Hrm Hrv Hpm Hpv Hwf.
  destruct g as [[m|] [v|]]; try done. unfold running_mean, running_var in Hrm, Hrv.
  simpl in Hrm, Hrv.
  destruct (valid_rank_cases X Hr) as [(N & Fe & HX)|(N & C & H' & W & HX)].
  - pose proof (x_hat_dense X rm rv eps N Fe HX Hpm Hpv Hwf) as Hx.
    pose proof (affine_dense X gamma beta rm rv eps N Fe HX Hg Hb) as Ha.
    enter_dense X N Fe HX.
    simpl _BN_MOVING_MEANS. cbv iota. py_step. unfold getitem. rewrite Hrm. py_step.
    destruct (nd.broadcast_sub X rm) eqn:?; cbn [mbind result_bind] in Hx;
      [|discriminate Hx].
    py_step. simpl _BN_MOVING_VARS. cbv iota. py_step. rewrite Hrv. py_step. rewrite Hx. py_step.
    follow Ha. by rewrite Ha.
  - pose proof (x_hat_conv X _ _ eps N C H' W HX (per_feature_mean X)
                  (per_feature_variance X) (wf_tabulate _ _)) as Hx0.
    pose proof (x_hat_conv X rm rv eps N C H' W HX Hpm Hpv Hwf) as Hx.
    pose proof (affine_conv X gamma beta rm rv eps N C H' W HX Hg Hb) as Ha.
    enter_conv X N C H' W HX.
    rewrite (reshape_channels (spec_batch_mean X) C) in Hx0
      by (unfold spec_batch_mean, features; by rewrite HX).
    cbn [mbind result_bind] in Hx0.
    rewrite (centered_conv X _ N C H' W HX (per_feature_mean X)) in Hx0.
    cbn [mbind result_bind] in Hx0.
    rewrite (reshape_channels (spec_batch_variance X) C) in Hx0
      by (unfold spec_batch_variance, features; by rewrite HX).
    cbn [mbind result_bind] in Hx0. rewrite Hx0. py_step.
    simpl _BN_MOVING_MEANS. cbv iota. py_step. unfold getitem. rewrite Hrm. py_step.
    destruct (nd.reshape rm [1; C; 1; 1]) eqn:?; cbn [mbind result_bind] in Hx;
      [|discriminate Hx].
    py_step.
    destruct (nd.broadcast_sub X a) eqn:?; cbn [mbind result_bind] in Hx;
      [|discriminate Hx].
    py_step. simpl _BN_MOVING_VARS. cbv iota. py_step. rewrite Hrv. py_step.
    destruct (nd.reshape rv [1; C; 1; 1]) eqn:?; cbn [mbind result_bind] in Hx;
      [|discriminate Hx].
    py_step. rewrite Hx. py_step.
    follow Ha. by rewrite Ha.
Qed.

Lemma transformation_missing (X gamma beta : NDArray) (eps : F) s g :
  valid_rank X → running_mean g s = None →
  run (the_usual_batch_norm_transformation X gamma beta eps s false) g
  = (Raise (match _BN_MOVING_MEANS g with
            | Some _ => KeyError s
            | None => NameError "_BN_MOVING_MEANS"
            end), g).
Proof.
  intros Hr Hrm.
  destruct (valid_rank_cases X Hr) as [(N & Fe & HX)|(N & C & H' & W & HX)].
  - enter_dense X N Fe HX.
    destruct g as [[m|] ov]; unfold running_mean in Hrm; simpl in Hrm |- *; [|done].
    unfold getitem. by rewrite Hrm.
  - pose proof (x_hat_conv X _ _ eps N C H' W HX (per_feature_mean X)
                  (per_feature_variance X) (wf_tabulate _ _)) as Hx0.
    enter_conv X N C H' W HX.
    rewrite (reshape_channels (spec_batch_mean X) C) in Hx0
      by (unfold spec_batch_mean, features; by rewrite HX).
    cbn [mbind result_bind] in Hx0.
    rewrite (centered_conv X _ N C H' W HX (per_feature_mean X)) in Hx0.
    cbn [mbind result_bind] in Hx0.
    rewrite (reshape_channels (spec_batch_variance X) C) in Hx0
      by (unfold spec_batch_variance, features; by rewrite HX).
    cbn [mbind result_bind] in Hx0. rewrite Hx0. py_step.
    destruct g as [[m|] ov]; unfold running_mean in Hrm; simpl in Hrm |- *; [|done].
    unfold getitem. by rewrite Hrm.
Qed.

Lemma transformation_invalid (X gamma beta : NDArray) (eps : F) s tr g :
  ¬ valid_rank X →
  run (the_usual_batch_norm_transformation X gamma beta eps s tr) g
  = (Raise (ValueError batch_norm_message), g).
Proof.
  intros Hr. unfold the_usual_batch_norm_transformation.
  replace (rank_not_in_2_4 X) with true; [done|].
  unfold rank_not_in_2_4, valid_rank in *.
  destruct (length (nd.shape X)) as [|[|[|[|[|n]]]]]; simpl; try done; exfalso; auto.
Qed.

Lemma run_bind {A B : Type} (c : Py F A) (k : A → Py F B) g :
  run (c ≫= k) g
  = match run c g with
    | (Ok a, g') => run (k a) g'
    | (Raise e, g') => (Raise e, g')
    end.
Proof. reflexivity. Qed.

Lemma read_only_ret {A : Type} (a : A) : read_only (mret a : Py F A).
Proof. by intros g. Qed.

Lemma read_only_raise {A : Type} (e : exn) : read_only (raise e : Py F A).
Proof. by intros g. Qed.

Lemma read_only_lift {A : Type} (r : result A) : read_only (lift r : Py F A).
Proof. by intros g. Qed.

Lemma read_only_load_MEANS : read_only (load_MEANS (F := F)).
Proof. intros g. unfold load_MEANS. simpl. by destruct (_BN_MOVING_MEANS g). Qed.

Lemma read_only_load_VARS : read_only (load_VARS (F := F)).
Proof. intros g. unfold load_VARS. simpl. by destruct (_BN_MOVING_VARS g). Qed.

Lemma read_only_getitem (d : gmap string NDArray) (key : string) :
  read_only (getitem d key).
Proof. intros g. unfold getitem. by destruct (d !! key). Qed.

Lemma read_only_bind {A B : Type} (c : Py F A) (k : A → Py F B) :
  read_only c → (∀ a, read_only (k a)) → read_only (c ≫= k).
Proof.
  intros Hc Hk g. rewrite run_bind. specialize (Hc g).
  destruct (run c g) as [[a|e] g']; simpl in Hc; subst; [apply Hk | done].
Qed.

Ltac read_only_steps :=
  repeat first
    [ apply read_only_lift | apply read_only_ret | apply read_only_raise
    | apply read_only_load_MEANS | apply read_only_load_VARS
    | apply read_only_getitem
    | apply read_only_bind; [|intros ?]
    | match goal with
      | |- read_only (if ?b then _ else _) => destruct b
      | |- read_only (match ?l with [] => _ | _ :: _ => _ end) => destruct l
      end ].

(** The transformation reads the globals and never writes them. *)
Lemma transformation_read_only (X gamma beta : NDArray) (eps : F) s tr :
  read_only (the_usual_batch_norm_transformation X gamma beta eps s tr).
Proof. unfold the_usual_batch_norm_transformation. read_only_steps. Qed.

Lemma keeps_others_read_only s {A : Type} (c : Py F A) :
  read_only c → keeps_others s c.
Proof. intros Hc g Hg. split; [by rewrite Hc | intros s' _; by rewrite Hc]. Qed.

Lemma keeps_others_bind s {A B : Type} (c : Py F A) (k : A → Py F B) :
  keeps_others s c → (∀ a, keeps_others s (k a)) → keeps_others s (c ≫= k).
Proof.
  intros Hc Hk g Hg. rewrite run_bind.
  destruct (Hc g Hg) as [Hb Ho].
  destruct (run c g) as [[a|e] g']; simpl in Hb, Ho; [|done].
  destruct (Hk a g' Hb) as [Hb' Ho']. split; [done|].
  intros s' Hs'. destruct (Ho s' Hs') as [<- <-]. by apply Ho'.
Qed.

Lemma keeps_others_init s : keeps_others s (init_the_attributes (F := F)).
Proof.
  intros [[m|] [v|]] Hg; try done.
Qed.

Lemma keeps_others_setitem_MEANS s (a : NDArray) : keeps_others s (setitem_MEANS s a).
Proof.
  intros [[m|] [v|]] Hg; try done. split; [done|].
  intros s' Hs'. unfold running_mean, running_var. simpl.
  by rewrite lookup_insert_ne.
Qed.

Lemma keeps_others_setitem_VARS s (a : NDArray) : keeps_others s (setitem_VARS s a).
Proof.
  intros [[m|] [v|]] Hg; try done. split; [done|].
  intros s' Hs'. unfold running_mean, running_var. simpl.
  by rewrite lookup_insert_ne.
Qed.

Ltac keeps_others_steps :=
  repeat first
    [ apply keeps_others_init | apply keeps_others_setitem_MEANS
    | apply keeps_others_setitem_VARS
    | apply keeps_others_read_only;
      first [ apply read_only_lift | apply read_only_ret | apply read_only_load_MEANS
            | apply read_only_load_VARS | apply read_only_getitem
            | apply transformation_read_only ]
    | apply keeps_others_bind; [|intros ?]
    | match goal with
      | |- keeps_others _ (if ?b then _ else _) => destruct b
      | |- keeps_others _ (let '(_, _) := ?p in _) => destruct p
      end ].

Lemma keep_statistics_keeps_others (mean variance : NDArray) (momentum : F) s :
  keeps_others s (to_keep_the_moving_statistics mean variance momentum s).
Proof. unfold to_keep_the_moving_statistics. keeps_others_steps. Qed.

Lemma batch_norm_keeps_others (X gamma beta : NDArray) (momentum eps : F) s tr dbg :
  keeps_others s (batch_norm X gamma beta momentum eps s tr dbg).
Proof.
  unfold batch_norm. keeps_others_steps.
Qed.

(** The block that keeps the moving statistics, run on statistics that fit the
    stored ones. *)
Lemma keep_statistics_run (mean variance : NDArray) (momentum : F) s g :
  bound_together g → nd.wf mean → nd.wf variance →
  (∀ r, running_mean g s = Some r → nd.shape r = nd.shape mean ∧ nd.wf r) →
  (∀ r, running_var g s = Some r → nd.shape r = nd.shape variance ∧ nd.wf r) →
  run (to_keep_the_moving_statistics mean variance momentum s) g
  = (Ok tt, spec_store_update g s mean variance momentum).
Proof.
  intros Hg Hwm Hwv Hfm Hfv.
  unfold to_keep_the_moving_statistics, spec_store_update, contains, getitem.
  destruct g as [[m|] [v|]]; try done; unfold running_mean, running_var in *;
    simpl in Hfm, Hfv; cbn.
  assert (Hdm : ∀ rm, m !! s = Some rm →
               nd.broadcast_add (nd.mul_scalar rm momentum)
                                (nd.mul_scalar mean (fone - momentum)%sc)
               = Ok (spec_decay rm mean momentum)).
    { intros rm Hm. destruct (Hfm _ Hm). by apply decay_code. }
    assert (Hdv : ∀ rv, v !! s = Some rv →
               nd.broadcast_add (nd.mul_scalar rv momentum)
                                (nd.mul_scalar variance (fone - momentum)%sc)
               = Ok (spec_decay rv variance momentum)).
    { intros rv Hv. destruct (Hfv _ Hv). by apply decay_code. }
    destruct (m !! s) as [rm|] eqn:Hm; destruct (v !! s) as [rv|] eqn:Hv; cbn;
      repeat first [ rewrite Hm | rewrite Hv | rewrite (Hdm _ eq_refl)
                   | rewrite (Hdv _ eq_refl) | progress cbn ];
      reflexivity.
Qed.

Lemma run_bind_Ok {A B : Type} (c : Py F A) (k : A → Py F B) g v g' :
  run (c ≫= k) g = (Ok v, g') →
  ∃ a g1, run c g = (Ok a, g1) ∧ run (k a) g1 = (Ok v, g').
Proof.
  rewrite run_bind. destruct (run c g) as [[a|e] g1]; [eauto | done].
Qed.

Lemma batch_norm_training_run (X gamma beta : NDArray) (momentum eps : F) s dbg g :
  valid_rank X → per_feature X gamma → per_feature X beta → store_fits g s X →
  run (batch_norm X gamma beta momentum eps s true dbg) g
  = (Ok (spec_normalize X gamma beta eps (spec_batch_mean X) (spec_batch_variance X)),
     spec_store_update g s (spec_batch_mean X) (spec_batch_variance X) momentum).
Proof.
  intros Hr Hg Hb (Hbt & Hfm & Hfv). unfold batch_norm.
  rewrite run_bind, transformation_training by done.
  rewrite run_bind, keep_statistics_run; try done; apply wf_tabulate.
Qed.

Lemma batch_norm_inference_run (X gamma beta : NDArray) (momentum eps : F) s dbg g
    rm rv :
  valid_rank X → per_feature X gamma → per_feature X beta → store_fits g s X →
  running_mean g s = Some rm → running_var g s = Some rv →
  run (batch_norm X gamma beta momentum eps s false dbg) g
  = (Ok (spec_normalize X gamma beta eps rm rv),
     spec_store_update g s (spec_batch_mean X) (spec_batch_variance X) momentum).
Proof.
  intros Hr Hg Hb (Hbt & Hfm & Hfv) Hrm Hrv. unfold batch_norm.
  destruct (Hfm _ Hrm) as [Hpm Hwm]. destruct (Hfv _ Hrv) as [Hpv Hwv].
  rewrite run_bind, (transformation_inference X gamma beta eps s g rm rv) by done.
  rewrite run_bind, keep_statistics_run; try done; apply wf_tabulate.
Qed.

Lemma batch_norm_missing_run (X gamma beta : NDArray) (momentum eps : F) s dbg g :
  valid_rank X → running_mean g s = None →
  run (batch_norm X gamma beta momentum eps s false dbg) g
  = (Raise (match _BN_MOVING_MEANS g with
            | Some _ => KeyError s
            | None => NameError "_BN_MOVING_MEANS"
            end), g).
Proof.
  intros Hr Hrm. unfold batch_norm.
  by rewrite run_bind, transformation_missing.
Qed.

Lemma batch_norm_invalid_run (X gamma beta : NDArray) (momentum eps : F) s tr dbg g :
  ¬ valid_rank X →
  run (batch_norm X gamma beta momentum eps s tr dbg) g
  = (Raise (ValueError batch_norm_message), g).
Proof.
  intros Hr. unfold batch_norm. by rewrite run_bind, transformation_invalid.
Qed.

Lemma store_update_mean (g : globals F) s (mean variance : NDArray) momentum :
  running_mean (spec_store_update g s mean variance momentum) s
  = Some (spec_updated (running_mean g s) mean momentum).
Proof. unfold running_mean at 1. simpl. apply lookup_insert_eq. Qed.

Lemma store_update_var (g : globals F) s (mean variance : NDArray) momentum :
  running_var (spec_store_update g s mean variance momentum) s
  = Some (spec_updated (running_var g s) variance momentum).
Proof. unfold running_var at 1. simpl. apply lookup_insert_eq. Qed.

Lemma store_update_bound (g : globals F) s (mean variance : NDArray) momentum :
  bound_together (spec_store_update g s mean variance momentum).
Proof. done. Qed.

(** A call that gets past the lookup of the stored statistics returns, with
    the entry of its identifier updated. *)
Lemma batch_norm_update_run (X gamma beta : NDArray) (momentum eps : F) s tr dbg g :
  valid_rank X → per_feature X gamma → per_feature X beta → store_fits g s X →
  tr = true ∨ (is_Some (running_mean g s) ∧ is_Some (running_var g s)) →
  ∃ out,
    run (batch_norm X gamma beta momentum eps s tr dbg) g
    = (Ok out, spec_store_update g s (spec_batch_mean X) (spec_batch_variance X)
                 momentum).
Proof.
  intros Hr Hg Hb Hs Hmode. destruct tr.
  - eexists. by apply batch_norm_training_run.
  - destruct Hmode as [|[[rm Hrm] [rv Hrv]]]; [done|].
    eexists. by apply (batch_norm_inference_run _ _ _ _ _ _ _ _ rm rv).
Qed.

(** Read the triple off a run of the rest of the transformation. *)
Ltac triple_of Hrun :=
  repeat first
    [ apply run_bind_Ok in Hrun as (? & ? & _ & Hrun)
    | progress cbn [run mbind Py_bind lift mret Py_ret raise] in Hrun
    | match type of Hrun with
      | context [match ?r with Ok _ => _ | Raise _ => _ end] => destruct r
      end ];
  try discriminate Hrun; inversion Hrun.

(** The triple that the transformation returns holds the batch statistics,
    whatever the mode. *)
Lemma transformation_statistics (X gamma beta : NDArray) (eps : F) s tr g
    mean variance out g' :
  valid_rank X →
  run (the_usual_batch_norm_transformation X gamma beta eps s tr) g
  = (Ok (mean, variance, out), g') →
  mean = spec_batch_mean X ∧ variance = spec_batch_variance X.
Proof.
  intros Hr.
  destruct (valid_rank_cases X Hr) as [(N & Fe & HX)|(N & C & H' & W & HX)].
  - enter_dense X N Fe HX. intros Hrun. by triple_of Hrun.
  - enter_conv X N C H' W HX. intros Hrun. by triple_of Hrun.
Qed.

(** In training mode the transformation computes its output as
    [pure_batch_norm] does, step by step, whatever [gamma] and [beta] are. *)
Lemma transformation_training_pure (X gamma beta : NDArray) (eps : F) s g :
  valid_rank X →
  run (the_usual_batch_norm_transformation X gamma beta eps s true) g
  = (match pure_batch_norm X gamma beta eps with
     | Ok out => Ok (spec_batch_mean X, spec_batch_variance X, out)
     | Raise e => Raise e
     end, g).
Proof.
  intros Hr.
  destruct (valid_rank_cases X Hr) as [(N & Fe & HX)|(N & C & H' & W & HX)].
  - enter_dense X N Fe HX.
    unfold pure_batch_norm, rank_not_in_2_4. rewrite HX.
    simpl negb. cbv iota. simpl Nat.eqb. cbv iota.
    rewrite (batch_mean_dense X N Fe HX).
    rewrite (centered_dense X _ N Fe HX (per_feature_mean X)).
    cbn [mbind result_bind].
    rewrite (batch_variance_dense X N Fe HX).
    repeat match goal with
           | |- context [match ?r with Ok _ => _ | Raise _ => _ end] =>
               destruct r; cbn [mbind result_bind]; try reflexivity
           end.
  - enter_conv X N C H' W HX.
    unfold pure_batch_norm, rank_not_in_2_4. rewrite HX.
    simpl negb. cbv iota. simpl Nat.eqb. cbv iota.
    rewrite (batch_mean_conv X N C H' W HX).
    rewrite (reshape_channels (spec_batch_mean X) C)
      by (unfold spec_batch_mean, features; by rewrite HX).
    cbn [mbind result_bind].
    rewrite (centered_conv X _ N C H' W HX (per_feature_mean X)).
    cbn [mbind result_bind].
    rewrite (batch_variance_conv X N C H' W HX).
    rewrite (reshape_channels (spec_batch_variance X) C)
      by (unfold spec_batch_variance, features; by rewrite HX).
    cbn [mbind result_bind].
    pose proof (x_hat_conv X _ _ eps N C H' W HX (per_feature_mean X)
                  (per_feature_variance X) (wf_tabulate _ _)) as Hx.
    rewrite (reshape_channels (spec_batch_mean X) C) in Hx
      by (unfold spec_batch_mean, features; by rewrite HX).
    cbn [mbind result_bind] in Hx.
    rewrite (centered_conv X _ N C H' W HX (per_feature_mean X)) in Hx.
    cbn [mbind result_bind] in Hx.
    rewrite (reshape_channels (spec_batch_variance X) C) in Hx
      by (unfold spec_batch_variance, features; by rewrite HX).
    cbn [mbind result_bind] in Hx. rewrite Hx. py_step. cbn [mbind result_bind].
    repeat match goal with
           | |- context [match ?r with Ok _ => _ | Raise _ => _ end] =>
               destruct r; cbn [mbind result_bind]; try reflexivity
           end.
Qed.

Lemma pure_batch_norm_run (X gamma beta : NDArray) (eps : F) :
  valid_rank X → per_feature X gamma → per_feature X beta →
  pure_batch_norm X gamma beta eps
  = Ok (spec_normalize X gamma beta eps (spec_batch_mean X) (spec_batch_variance X)).
Proof.
  intros Hr Hg Hb.
  pose proof (transformation_training X gamma beta eps "" fresh_kernel Hr Hg Hb) as Ht.
  rewrite transformation_training_pure in Ht by done.
  destruct (pure_batch_norm X gamma beta eps); by inversion Ht.
Qed.

(** As long as one of the two names is unbound, the block creates both
    dictionaries and stores the batch statistics in them. *)
Lemma keep_statistics_unbound (mean variance : NDArray) (momentum : F) s g :
  _BN_MOVING_MEANS g = None ∨ _BN_MOVING_VARS g = None →
  run (to_keep_the_moving_statistics mean variance momentum s) g
  = (Ok tt, mkGlobals (Some {[s := mean]}) (Some {[s := variance]})).
Proof.
  intros Hunbound.
  destruct g as [[m|] [v|]]; simpl in Hunbound;
    [destruct Hunbound; discriminate | reflexivity..].
Qed.

(** The block returns whenever the stored statistics of the identifier, if
    any, fit the batch statistics. *)
Lemma keep_statistics_returns (X : NDArray) (momentum : F) s g :
  entry_fits g s X →
  ∃ g', run (to_keep_the_moving_statistics (spec_batch_mean X) (spec_batch_variance X)
               momentum s) g = (Ok tt, g').
Proof.
  intros [Hfm Hfv].
  destruct (_BN_MOVING_MEANS g) as [m|] eqn:Hm;
    [destruct (_BN_MOVING_VARS g) as [v|] eqn:Hv|].
  - eexists. apply keep_statistics_run; try apply wf_tabulate.
    + unfold bound_together. by rewrite Hm, Hv.
    + intros r Hr. by destruct (Hfm r Hr).
    + intros r Hr. by destruct (Hfv r Hr).
  - eexists. apply keep_statistics_unbound. by right.
  - eexists. apply keep_statistics_unbound. by left.
Qed.

Lemma batch_norm_training_returns (X gamma beta : NDArray) (momentum eps : F) s dbg g :
  valid_rank X → per_feature X gamma → per_feature X beta → entry_fits g s X →
  ∃ g',
    run (batch_norm X gamma beta momentum eps s true dbg) g
    = (Ok (spec_normalize X gamma beta eps (spec_batch_mean X) (spec_batch_variance X)),
       g').
Proof.
  intros Hr Hg Hb Hs. unfold batch_norm.
  destruct (keep_statistics_returns X momentum s g Hs) as [g' Hkeep].
  exists g'. rewrite run_bind, transformation_training by done.
  by rewrite run_bind, Hkeep.
Qed.

(** *** Stored statistics of another length *)

Lemma broadcast_width_cases k c :
  k = c ∨ k = 1 ∨ c = 1 → nd.broadcast_dim k c = Some (broadcast_width k c).
Proof.
  intros Hkc. unfold nd.broadcast_dim, broadcast_width.
  destruct (Nat.eqb_spec k c) as [->|Hne].
  - by destruct (c =? 1).
  - destruct (Nat.eqb_spec k 1); [done|].
    destruct (Nat.eqb_spec c 1); [done|]. lia.
Qed.

Lemma broadcast_feature_lt k c i :
  k = c ∨ k = 1 ∨ c = 1 → i < broadcast_width k c →
  broadcast_feature k i < k ∧ broadcast_feature c i < c.
Proof.
  unfold broadcast_width, broadcast_feature.
  destruct (Nat.eqb_spec k 1), (Nat.eqb_spec c 1); lia.
Qed.

Lemma broadcast_feature_same c i : i < c → broadcast_feature c i = i.
Proof. unfold broadcast_feature. destruct (Nat.eqb_spec c 1); lia. Qed.

Lemma broadcast_width_same c : broadcast_width c c = c.
Proof. unfold broadcast_width. by destruct (c =? 1). Qed.

(** An operator on two vectors that broadcast. *)
Lemma broadcast_vectors (f : F → F → F) (a b : NDArray) k c :
  nd.shape a = [k] → nd.shape b = [c] → k = c ∨ k = 1 ∨ c = 1 →
  nd.broadcast f a b
  = Ok (nd.tabulate [broadcast_width k c]
          (λ idx, f (nd.get a [broadcast_feature k (hd 0 idx)])
                    (nd.get b [broadcast_feature c (hd 0 idx)]))).
Proof.
  intros Ha Hb Hkc. unfold nd.broadcast. rewrite Ha, Hb.
  assert (Hsh : nd.broadcast_shape [k] [c] = Some [broadcast_width k c]).
  { unfold nd.broadcast_shape, nd.pad_left. simpl.
    by rewrite broadcast_width_cases. }
  rewrite Hsh. reflexivity.
Qed.

Lemma decay_code_broadcast (running stat : NDArray) (momentum : F) k c :
  nd.wf running → nd.wf stat → nd.shape running = [k] → nd.shape stat = [c] →
  k = c ∨ k = 1 ∨ c = 1 →
  nd.broadcast_add (nd.mul_scalar running momentum)
                   (nd.mul_scalar stat (fone - momentum)%sc)
  = Ok (spec_decay_broadcast running stat momentum).
Proof.
  intros Hwr Hws Hk Hc Hkc. unfold nd.broadcast_add.
  rewrite (broadcast_vectors _ _ _ k c) by done.
  f_equal. unfold spec_decay_broadcast, width. rewrite Hk, Hc. simpl hd.
  apply tabulate_ext. intros idx Hidx.
  inversion Hidx as [|i ? l ? Hi Hl]; subst. inversion Hl; subst. simpl hd.
  destruct (broadcast_feature_lt k c i Hkc Hi) as [Hik Hic].
  unfold nd.mul_scalar.
  rewrite !get_map_nd; try done; rewrite ?Hk, ?Hc; by repeat constructor.
Qed.

(** With vectors of one length the broadcast update is the plain one. *)
Lemma spec_decay_broadcast_same (running stat : NDArray) (momentum : F) c :
  nd.shape running = [c] → nd.shape stat = [c] →
  spec_decay_broadcast running stat momentum = spec_decay running stat momentum.
Proof.
  intros Hr Hs. unfold spec_decay_broadcast, spec_decay, width.
  rewrite Hr, Hs. simpl hd. rewrite broadcast_width_same.
  apply tabulate_ext. intros idx Hidx.
  inversion Hidx as [|i ? l ? Hi Hl]; subst. inversion Hl; subst. simpl hd.
  by rewrite broadcast_feature_same.
Qed.

Lemma spec_updated_broadcast_fits (X stat : NDArray) (o : option NDArray) (momentum : F) :
  per_feature X stat → fits X o →
  spec_updated_broadcast o stat momentum = spec_updated o stat momentum.
Proof.
  intros Hs Hfit. destruct o as [r|]; [|done]. simpl.
  destruct (Hfit r eq_refl) as [Hr _].
  by apply (spec_decay_broadcast_same _ _ _ (features X)).
Qed.

Lemma fits_broadcasts (X : NDArray) (o : option NDArray) : fits X o → broadcasts X o.
Proof.
  intros Hfit r Hr. destruct (Hfit r Hr) as [Hp Hwf].
  split; [done|]. exists (features X). split; [exact Hp | by left].
Qed.

Lemma entry_fits_broadcasts (g : globals F) s (X : NDArray) :
  entry_fits g s X → entry_broadcasts g s X.
Proof. intros [Hm Hv]. split; by apply fits_broadcasts. Qed.

(** The block that keeps the moving statistics, run on statistics that
    broadcast against the stored ones. *)
Lemma keep_statistics_broadcast_run (X : NDArray) (momentum : F) s g :
  bound_together g → entry_broadcasts g s X →
  run (to_keep_the_moving_statistics (spec_batch_mean X) (spec_batch_variance X)
         momentum s) g
  = (Ok tt, spec_store_update_broadcast g s (spec_batch_mean X) (spec_batch_variance X)
              momentum).
Proof.
  intros Hg [Hfm Hfv].
  unfold to_keep_the_moving_statistics, spec_store_update_broadcast, contains, getitem.
  destruct g as [[m|] [v|]]; try done; unfold running_mean, running_var in *;
    simpl in Hfm, Hfv; cbn -[spec_batch_mean spec_batch_variance].
  assert (Hdm : ∀ rm, m !! s = Some rm →
             nd.broadcast_add (nd.mul_scalar rm momentum)
                              (nd.mul_scalar (spec_batch_mean X) (fone - momentum)%sc)
             = Ok (spec_decay_broadcast rm (spec_batch_mean X) momentum)).
  { intros rm Hm. destruct (Hfm _ Hm) as (Hwf & k & Hk & Hkc).
    apply (decay_code_broadcast _ _ _ k (features X)); try done. apply wf_tabulate. }
  assert (Hdv : ∀ rv, v !! s = Some rv →
             nd.broadcast_add (nd.mul_scalar rv momentum)
                              (nd.mul_scalar (spec_batch_variance X) (fone - momentum)%sc)
             = Ok (spec_decay_broadcast rv (spec_batch_variance X) momentum)).
  { intros rv Hv. destruct (Hfv _ Hv) as (Hwf & k & Hk & Hkc).
    apply (decay_code_broadcast _ _ _ k (features X)); try done. apply wf_tabulate. }
  destruct (m !! s) as [rm|] eqn:Hm; destruct (v !! s) as [rv|] eqn:Hv;
    cbn -[spec_batch_mean spec_batch_variance nd.broadcast_add];
    repeat first [ rewrite Hm | rewrite Hv | rewrite (Hdm _ eq_refl)
                 | rewrite (Hdv _ eq_refl)
                 | progress cbn -[spec_batch_mean spec_batch_variance nd.broadcast_add] ];
    reflexivity.
Qed.

Lemma store_update_broadcast_mean (g : globals F) s (mean variance : NDArray) momentum :
  running_mean (spec_store_update_broadcast g s mean variance momentum) s
  = Some (spec_updated_broadcast (running_mean g s) mean momentum).
Proof. unfold running_mean at 1. simpl. apply lookup_insert_eq. Qed.

Lemma store_update_broadcast_var (g : globals F) s (mean variance : NDArray) momentum :
  running_var (spec_store_update_broadcast g s mean variance momentum) s
  = Some (spec_updated_broadcast (running_var g s) variance momentum).
Proof. unfold running_var at 1. simpl. apply lookup_insert_eq. Qed.

(** The block returns whenever the stored statistics of the identifier, if
    any, broadcast against the batch statistics. *)
Lemma keep_statistics_broadcast_returns (X : NDArray) (momentum : F) s g :
  entry_broadcasts g s X →
  ∃ g', run (to_keep_the_moving_statistics (spec_batch_mean X) (spec_batch_variance X)
               momentum s) g = (Ok tt, g').
Proof.
  intros Hs.
  destruct (_BN_MOVING_MEANS g) as [m|] eqn:Hm;
    [destruct (_BN_MOVING_VARS g) as [v|] eqn:Hv|].
  - eexists. apply keep_statistics_broadcast_run; [|done].
    unfold bound_together. by rewrite Hm, Hv.
  - eexists. apply keep_statistics_unbound. by right.
  - eexists. apply keep_statistics_unbound. by left.
Qed.

Lemma batch_norm_training_broadcast_returns (X gamma beta : NDArray) (momentum eps : F)
    s dbg g :
  valid_rank X → per_feature X gamma → per_feature X beta → entry_broadcasts g s X →
  ∃ g',
    run (batch_norm X gamma beta momentum eps s true dbg) g
    = (Ok (spec_normalize X gamma beta eps (spec_batch_mean X) (spec_batch_variance X)),
       g').
Proof.
  intros Hr Hg Hb Hs. unfold batch_norm.
  destruct (keep_statistics_broadcast_returns X momentum s g Hs) as [g' Hkeep].
  exists g'. rewrite run_bind, transformation_training by done.
  by rewrite run_bind, Hkeep.
Qed.

Lemma batch_norm_training_broadcast_run (X gamma beta : NDArray) (momentum eps : F)
    s dbg g :
  valid_rank X → per_feature X gamma → per_feature X beta →
  bound_together g → entry_broadcasts g s X →
  run (batch_norm X gamma beta momentum eps s true dbg) g
  = (Ok (spec_normalize X gamma beta eps (spec_batch_mean X) (spec_batch_variance X)),
     spec_store_update_broadcast g s (spec_batch_mean X) (spec_batch_variance X)
       momentum).
Proof.
  intros Hr Hg Hb Hbt Hs. unfold batch_norm.
  rewrite run_bind, transformation_training by done.
  by rewrite run_bind, keep_statistics_broadcast_run.
Qed.

(** The first call under an identifier, from any state of the two names. *)
Lemma batch_norm_first_run (X gamma beta : NDArray) (momentum eps : F) s dbg g :
  valid_rank X → per_feature X gamma → per_feature X beta →
  running_mean g s = None → running_var g s = None →
  ∃ g',
    run (batch_norm X gamma beta momentum eps s true dbg) g
    = (Ok (spec_normalize X gamma beta eps (spec_batch_mean X) (spec_batch_variance X)),
       g') ∧
    bound_together g' ∧
    running_mean g' s = Some (spec_batch_mean X) ∧
    running_var g' s = Some (spec_batch_variance X).
Proof.
  intros Hr Hg Hb Hm Hv.
  destruct (_BN_MOVING_MEANS g) as [m|] eqn:Em;
    [destruct (_BN_MOVING_VARS g) as [v|] eqn:Ev|].
  - assert (Hs : store_fits g s X).
    { split; [unfold bound_together; by rewrite Em, Ev|].
      split; intros r Hr'; congruence. }
    eexists. split; [by apply batch_norm_training_run|].
    split; [apply store_update_bound|].
    by rewrite store_update_mean, store_update_var, Hm, Hv.
  - eexists. unfold batch_norm. rewrite run_bind, transformation_training by done.
    rewrite run_bind, keep_statistics_unbound by (by right).
    split; [reflexivity|]. split; [exact I|].
    unfold running_mean, running_var. simpl. by rewrite !lookup_singleton_eq.
  - eexists. unfold batch_norm. rewrite run_bind, transformation_training by done.
    rewrite run_bind, keep_statistics_unbound by (by left).
    split; [reflexivity|]. split; [exact I|].
    unfold running_mean, running_var. simpl. by rewrite !lookup_singleton_eq.
Qed.

(** What a run of the block that returns has stored. *)
Lemma keep_statistics_stored (mean variance : NDArray) (momentum : F) s g g' :
  bound_together g →
  run (to_keep_the_moving_statistics mean variance momentum s) g = (Ok tt, g') →
  match running_mean g s with
  | None => running_mean g' s = Some mean
  | Some r =>
      ∃ new, nd.broadcast_add (nd.mul_scalar r momentum)
                              (nd.mul_scalar mean (fone - momentum)%sc) = Ok new ∧
             running_mean g' s = Some new
  end ∧
  match running_var g s with
  | None => running_var g' s = Some variance
  | Some r =>
      ∃ new, nd.broadcast_add (nd.mul_scalar r momentum)
                              (nd.mul_scalar variance (fone - momentum)%sc) = Ok new ∧
             running_var g' s = Some new
  end.
Proof.
  intros Hg. destruct g as [[m|] [v|]]; try done.
  - unfold to_keep_the_moving_statistics, contains, getitem, running_mean, running_var.
    cbn -[nd.broadcast_add].
    destruct (m !! s) as [rm|] eqn:Hm; cbn -[nd.broadcast_add].
    + rewrite Hm. cbn -[nd.broadcast_add].
      destruct (nd.broadcast_add (nd.mul_scalar rm momentum) _) as [newm|e] eqn:Hnm;
        cbn -[nd.broadcast_add]; [|discriminate].
      destruct (v !! s) as [rv|] eqn:Hv; cbn -[nd.broadcast_add].
      * rewrite Hv. cbn -[nd.broadcast_add].
        destruct (nd.broadcast_add (nd.mul_scalar rv momentum) _) as [newv|e] eqn:Hnv;
          cbn -[nd.broadcast_add]; [|discriminate].
        intros [= <-]. simpl. rewrite ?lookup_insert_eq. split; eauto.
      * intros [= <-]. simpl. rewrite ?lookup_insert_eq. split; eauto.
    + destruct (v !! s) as [rv|] eqn:Hv; cbn -[nd.broadcast_add].
      * rewrite Hv. cbn -[nd.broadcast_add].
        destruct (nd.broadcast_add (nd.mul_scalar rv momentum) _) as [newv|e] eqn:Hnv;
          cbn -[nd.broadcast_add]; [|discriminate].
        intros [= <-]. simpl. rewrite ?lookup_insert_eq. split; eauto.
      * intros [= <-]. simpl. rewrite ?lookup_insert_eq. split; eauto.
  - rewrite keep_statistics_unbound by (by left). intros [= <-].
    unfold running_mean, running_var. simpl. by rewrite !lookup_singleton_eq.
Qed.

(** *** Inference with a stored vector of a single scalar *)

(** A rank-2 array against a vector of one scalar per feature, or of a
    single scalar. *)
Lemma broadcast_rows_vector (f : F → F → F) (A v : NDArray) N Fe k :
  nd.shape A = [N; Fe] → nd.shape v = [k] → k = Fe ∨ k = 1 →
  nd.broadcast f A v
  = Ok (nd.tabulate [N; Fe]
          (λ idx, f (nd.get A idx) (nd.get v [broadcast_feature k (feature_of idx)]))).
Proof.
  intros Ha Hv [->| ->].
  - rewrite (broadcast_rows f A v N Fe) by done. f_equal.
    apply tabulate_ext. intros idx Hidx.
    inversion Hidx as [|i ? l ? Hi Hl]; subst. inversion Hl as [|j ? l' ? Hj Hl']; subst.
    inversion Hl'; subst. unfold feature_of. simpl nth.
    by rewrite broadcast_feature_same.
  - unfold nd.broadcast. rewrite Ha, Hv.
    assert (Hsh : nd.broadcast_shape [N; Fe] [1] = Some [N; Fe]).
    { unfold nd.broadcast_shape, nd.pad_left. simpl. by rewrite !broadcast_dim_1_r. }
    rewrite Hsh. f_equal. apply tabulate_ext. intros idx Hidx.
    inversion Hidx as [|i ? l ? Hi Hl]; subst. inversion Hl as [|j ? l' ? Hj Hl']; subst.
    inversion Hl'; subst.
    unfold nd.bindex. simpl length. simpl skipn.
    by rewrite (clamp_in_bounds [N; Fe] [i; j]) by assumption.
Qed.

Lemma get_broadcast_to (X r : NDArray) c :
  c < features X →
  nd.get (broadcast_to X r) [c] = nd.get r [broadcast_feature (width r) c].
Proof.
  intros Hc. unfold broadcast_to. by rewrite get_tabulate by (by repeat constructor).
Qed.

Lemma normalizes_lt (X r : NDArray) c :
  normalizes X r → c < features X →
  in_bounds [broadcast_feature (width r) c] (nd.shape r).
Proof.
  intros (_ & k & Hk & Hkc) Hc. unfold width. rewrite Hk. simpl hd.
  repeat constructor. unfold broadcast_feature.
  destruct (Nat.eqb_spec k 1); lia.
Qed.

(** [(X - mean) * 1.0 / nd.sqrt(variance + eps)] for stored vectors that
    normalise a batch of rank 2. *)
Lemma x_hat_dense_broadcast (X mean variance : NDArray) (eps : F) N Fe :
  nd.shape X = [N; Fe] → normalizes X mean → normalizes X variance →
  (xc ← nd.broadcast_sub X mean;
   nd.broadcast_div (nd.mul_scalar xc fone) (nd.sqrt (nd.plus_scalar variance eps)))
  = Ok (spec_x_hat X eps (broadcast_to X mean) (broadcast_to X variance)).
Proof.
  intros HX Hm Hv.
  assert (Hr : valid_rank X) by (left; by rewrite HX).
  assert (HFe : features X = Fe) by (unfold features; by rewrite HX).
  pose proof Hm as (Hwm & km & Hkm & Hm').
  pose proof Hv as (Hwv & kv & Hkv & Hv').
  assert (Hkm' : km = Fe ∨ km = 1) by (rewrite <- HFe; tauto).
  assert (Hkv' : kv = Fe ∨ kv = 1) by (rewrite <- HFe; tauto).
  unfold nd.broadcast_sub, nd.broadcast_div.
  rewrite (broadcast_rows_vector _ X mean N Fe km) by done. simpl.
  rewrite (broadcast_rows_vector _ _ _ N Fe kv) by done.
  f_equal. unfold spec_x_hat. rewrite HX.
  apply tabulate_ext. intros idx Hidx.
  assert (Hc : feature_of idx < features X).
  { pose proof (feature_in_bounds X idx Hr) as Hfb.
    rewrite HX in Hfb. specialize (Hfb Hidx). by inversion Hfb. }
  pose proof (normalizes_lt X variance _ Hv Hc) as Hbv.
  unfold width in Hbv. rewrite Hkv in Hbv. simpl hd in Hbv.
  unfold nd.mul_scalar, nd.sqrt, nd.plus_scalar.
  rewrite get_map_nd by (apply wf_tabulate || done).
  rewrite get_tabulate by done. rewrite fmul_1_r.
  rewrite !get_map_nd; try done; try (by apply wf_map_nd); try (simpl; by rewrite Hkv).
  cbv zeta. rewrite !get_broadcast_to by done.
  unfold width. by rewrite Hkm, Hkv.
Qed.

Lemma spec_normalize_broadcast_to (X gamma beta rm rv : NDArray) (eps : F) :
  valid_rank X → per_feature X rm → per_feature X rv →
  spec_normalize X gamma beta eps (broadcast_to X rm) (broadcast_to X rv)
  = spec_normalize X gamma beta eps rm rv.
Proof.
  intros Hr Hm Hv. unfold spec_normalize. apply tabulate_ext. intros idx Hidx.
  cbv zeta.
  assert (Hc : feature_of idx < features X).
  { pose proof (feature_in_bounds X idx Hr Hidx) as Hfb. by inversion Hfb. }
  rewrite !get_broadcast_to by done. unfold width. rewrite Hm, Hv. simpl hd.
  by rewrite broadcast_feature_same.
Qed.

Lemma normalizes_broadcasts (X r : NDArray) : normalizes X r → broadcasts X (Some r).
Proof.
  intros (Hwf & k & Hk & Hkc) r' [= <-]. split; [done|].
  exists k. split; [done|]. tauto.
Qed.

Lemma transformation_inference_broadcast (X gamma beta : NDArray) (eps : F) s g rm rv :
  valid_rank X → per_feature X gamma → per_feature X beta →
  running_mean g s = Some rm → running_var g s = Some rv →
  normalizes X rm → normalizes X rv →
  run (the_usual_batch_norm_transformation X gamma beta eps s false) g
  = (Ok (spec_batch_mean X, spec_batch_variance X,
         spec_normalize X gamma beta eps (broadcast_to X rm) (broadcast_to X rv)),
     g).
Proof.
  intros Hr Hg Hb Hrm Hrv Hnm Hnv.
  destruct (valid_rank_cases X Hr) as [(N & Fe & HX)|(N & C & H' & W & HX)].
  - destruct g as [[m|] [v|]]; try done.
    unfold running_mean, running_var in Hrm, Hrv. simpl in Hrm, Hrv.
    pose proof (x_hat_dense_broadcast X rm rv eps N Fe HX Hnm Hnv) as Hx.
    pose proof (affine_dense X gamma beta (broadcast_to X rm) (broadcast_to X rv) eps
                  N Fe HX Hg Hb) as Ha.
    enter_dense X N Fe HX.
    simpl _BN_MOVING_MEANS. cbv iota. py_step. unfold getitem. rewrite Hrm. py_step.
    destruct (nd.broadcast_sub X rm) eqn:?; cbn [mbind result_bind] in Hx;
      [|discriminate Hx].
    py_step. simpl _BN_MOVING_VARS. cbv iota. py_step. rewrite Hrv. py_step.
    rewrite Hx. py_step.
    follow Ha. by rewrite Ha.
  - destruct Hnm as (Hwm & km & Hkm & [->|[_ Hl]]); [|rewrite HX in Hl; discriminate Hl].
    destruct Hnv as (Hwv & kv & Hkv & [->|[_ Hl]]); [|rewrite HX in Hl; discriminate Hl].
    rewrite spec_normalize_broadcast_to by done.
    by apply transformation_inference.
Qed.

Lemma batch_norm_inference_broadcast_run (X gamma beta : NDArray) (momentum eps : F)
    s dbg g rm rv :
  valid_rank X → per_feature X gamma → per_feature X beta →
  running_mean g s = Some rm → running_var g s = Some rv →
  normalizes X rm → normalizes X rv →
  run (batch_norm X gamma beta momentum eps s false dbg) g
  = (Ok (spec_normalize X gamma beta eps (broadcast_to X rm) (broadcast_to X rv)),
     spec_store_update_broadcast g s (spec_batch_mean X) (spec_batch_variance X)
       momentum).
Proof.
  intros Hr Hg Hb Hrm Hrv Hnm Hnv. unfold batch_norm.
  rewrite run_bind, (transformation_inference_broadcast X gamma beta eps s g rm rv)
    by done.
  rewrite run_bind, keep_statistics_broadcast_run; [done| |].
  - unfold bound_together, running_mean, running_var in *.
    by destruct (_BN_MOVING_MEANS g), (_BN_MOVING_VARS g).
  - split; [rewrite Hrm | rewrite Hrv]; by apply normalizes_broadcasts.
Qed.

End batch_norm_facts.

(** ** The claims, for any element arithmetic *)

Section claims.
Context {F : Type} `{Scalar F}.

#[local] Abbreviation NDArray := (nd.NDArray F).

Lemma get_batch_mean (X : NDArray) c :
  c < features X → nd.get (spec_batch_mean X) [c] = spec_mean_at X c.
Proof.
  intros Hc. unfold spec_batch_mean. by rewrite get_tabulate by (by repeat constructor).
Qed.

Lemma get_batch_variance (X : NDArray) c :
  c < features X → nd.get (spec_batch_variance X) [c] = spec_variance_at X c.
Proof.
  intros Hc. unfold spec_batch_variance.
  by rewrite get_tabulate by (by repeat constructor).
Qed.

Lemma feature_lt (X : NDArray) idx :
  valid_rank X → in_bounds idx (nd.shape X) → feature_of idx < features X.
Proof.
  intros Hr Hb. pose proof (feature_in_bounds X idx Hr Hb) as Hf.
  by inversion Hf.
Qed.

Lemma get_spec_decay (running stat : NDArray) (momentum : F) idx :
  in_bounds idx (nd.shape stat) →
  nd.get (spec_decay running stat momentum) idx
  = (nd.get running idx * momentum + nd.get stat idx * (fone - momentum))%sc.
Proof. intros Hb. unfold spec_decay. by rewrite get_tabulate. Qed.

(** The elements of the array that training mode returns. *)
Lemma get_normalized_batch (X gamma beta : NDArray) (eps : F) idx :
  valid_rank X → in_bounds idx (nd.shape X) →
  nd.get (spec_normalize X gamma beta eps (spec_batch_mean X) (spec_batch_variance X))
         idx
  = (nd.get gamma [feature_of idx]
     * ((nd.get X idx - spec_mean_at X (feature_of idx))
        / fsqrt (spec_variance_at X (feature_of idx) + eps))
     + nd.get beta [feature_of idx])%sc.
Proof.
  intros Hr Hidx. unfold spec_normalize. rewrite get_tabulate by done.
  cbv zeta. pose proof (feature_lt X idx Hr Hidx).
  by rewrite get_batch_mean, get_batch_variance.
Qed.

(** C1, as amended.  A training-mode call of [batch_norm] on a batch of
    rank 2 or 4, with per-feature [gamma] and [beta], from a store whose
    running statistics for the identifier, if any, broadcast against the
    batch statistics, returns an array of the shape of [X] whose element at
    every index is [gamma * X_hat + beta], where
    [X_hat = (X - mean) / sqrt(variance + eps)] and the batch mean and
    variance are those of the feature of that index, the same along the
    reduced axes. *)
Theorem training_output_formula (X gamma beta : NDArray) (momentum eps : F) s dbg g :
  valid_rank X → per_feature X gamma → per_feature X beta → entry_broadcasts g s X →
  ∃ out g',
    run (batch_norm X gamma beta momentum eps s true dbg) g = (Ok out, g') ∧
    nd.shape out = nd.shape X ∧ nd.wf out ∧
    ∀ idx, in_bounds idx (nd.shape X) →
      nd.get out idx
      = (nd.get gamma [feature_of idx]
         * ((nd.get X idx - spec_mean_at X (feature_of idx))
            / fsqrt (spec_variance_at X (feature_of idx) + eps))
         + nd.get beta [feature_of idx])%sc.
Proof.
  intros Hr Hg Hb Hs.
  destruct (batch_norm_training_broadcast_returns X gamma beta momentum eps s dbg g
              Hr Hg Hb Hs) as [g' Hrun].
  eexists _, g'. split; [exact Hrun|].
  split; [reflexivity|]. split; [apply wf_tabulate|].
  intros idx Hidx. by apply get_normalized_batch.
Qed.

(** C2, as amended.  With a batch of valid rank, per-feature [gamma] and
    [beta] and the two names bound together: a training-mode call from a
    store whose running statistics for the identifier, if any, broadcast
    against the batch statistics, and an inference-mode call whose
    identifier has running statistics that normalise [X], return and update
    the entry of the identifier with the batch statistics of [X]: a missing
    running statistic becomes the batch statistic itself, an existing one
    becomes [running * momentum + batch_statistic * (1 - momentum)],
    elementwise, a vector of a single scalar being broadcast.  For stored
    vectors of one scalar per feature that is [spec_decay].  An
    inference-mode call whose identifier has no entry raises and leaves the
    store as it was. *)
Theorem running_statistics_update (X gamma beta : NDArray) (momentum eps : F) s tr
    dbg g :
  valid_rank X → per_feature X gamma → per_feature X beta → bound_together g →
  ((tr = true ∧ entry_broadcasts g s X) ∨
   (tr = false ∧
    ∃ rm rv, running_mean g s = Some rm ∧ running_var g s = Some rv ∧
             normalizes X rm ∧ normalizes X rv) →
   ∃ out g',
     run (batch_norm X gamma beta momentum eps s tr dbg) g = (Ok out, g') ∧
     running_mean g' s
     = Some (spec_updated_broadcast (running_mean g s) (spec_batch_mean X) momentum) ∧
     running_var g' s
     = Some (spec_updated_broadcast (running_var g s) (spec_batch_variance X)
               momentum)) ∧
  (entry_fits g s X →
   spec_updated_broadcast (running_mean g s) (spec_batch_mean X) momentum
   = match running_mean g s with
     | None => spec_batch_mean X
     | Some running => spec_decay running (spec_batch_mean X) momentum
     end ∧
   spec_updated_broadcast (running_var g s) (spec_batch_variance X) momentum
   = match running_var g s with
     | None => spec_batch_variance X
     | Some running => spec_decay running (spec_batch_variance X) momentum
     end) ∧
  (tr = false → running_mean g s = None →
   ∃ e, run (batch_norm X gamma beta momentum eps s tr dbg) g = (Raise e, g)).
Proof.
  intros Hr Hg Hb Hbt. split; [|split].
  - intros [[-> Hs]|[-> (rm & rv & Hrm & Hrv & Hnm & Hnv)]].
    + eexists _, _. split; [by apply batch_norm_training_broadcast_run|].
      split; [apply store_update_broadcast_mean | apply store_update_broadcast_var].
    + eexists _, _.
      split; [by apply (batch_norm_inference_broadcast_run _ _ _ _ _ _ _ _ rm rv)|].
      split; [apply store_update_broadcast_mean | apply store_update_broadcast_var].
  - intros [Hfm Hfv].
    split; apply (spec_updated_broadcast_fits X);
      done || apply per_feature_mean || apply per_feature_variance.
  - intros -> Hnone. eexists. by apply batch_norm_missing_run.
Qed.

(** C3.  The batch statistics of [batch_norm] hold one value per feature:
    for rank 2 the mean over axis 0 only, for rank 4 the mean over axes 0, 2
    and 3; the variance is the mean of the squared deviations from that batch
    mean over the same axes, and the divisor is the number of reduced
    elements ([N], or [N * H * W]), not that number minus one.  They are what
    a training-mode call stores under an identifier that had no entry, and
    what every call that returns, in either mode, folds into an entry that
    exists. *)
Theorem batch_statistics_axes (X gamma beta : NDArray) (momentum eps : F) s dbg g :
  valid_rank X →
  ∃ mean variance,
    (∀ N Fe, nd.shape X = [N; Fe] →
       nd.shape mean = [Fe] ∧ nd.shape variance = [Fe] ∧
       ∀ j, j < Fe →
         nd.get mean [j]
         = (nd.total (map (λ i, nd.get X [i; j]) (seq 0 N)) / fof_nat N)%sc ∧
         nd.get variance [j]
         = (nd.total (map (λ i, fpow (nd.get X [i; j] - nd.get mean [j])%sc 2)
                          (seq 0 N))
            / fof_nat N)%sc) ∧
    (∀ N C H' W, nd.shape X = [N; C; H'; W] →
       nd.shape mean = [C] ∧ nd.shape variance = [C] ∧
       ∀ c, c < C →
         let positions :=
           flat_map (λ n, flat_map (λ h, map (λ w, [n; c; h; w]) (seq 0 W))
                                   (seq 0 H'))
                    (seq 0 N) in
         nd.get mean [c]
         = (nd.total (map (nd.get X) positions) / fof_nat (N * H' * W))%sc ∧
         nd.get variance [c]
         = (nd.total (map (λ idx, fpow (nd.get X idx - nd.get mean [c])%sc 2)
                          positions)
            / fof_nat (N * H' * W))%sc) ∧
    (per_feature X gamma → per_feature X beta →
     running_mean g s = None → running_var g s = None →
     ∃ out g',
       run (batch_norm X gamma beta momentum eps s true dbg) g = (Ok out, g') ∧
       running_mean g' s = Some mean ∧ running_var g' s = Some variance) ∧
    (∀ tr out g',
       bound_together g →
       run (batch_norm X gamma beta momentum eps s tr dbg) g = (Ok out, g') →
       match running_mean g s with
       | None => running_mean g' s = Some mean
       | Some running =>
           ∃ new, nd.broadcast_add (nd.mul_scalar running momentum)
                                   (nd.mul_scalar mean (fone - momentum)%sc) = Ok new ∧
                  running_mean g' s = Some new
       end ∧
       match running_var g s with
       | None => running_var g' s = Some variance
       | Some running =>
           ∃ new, nd.broadcast_add (nd.mul_scalar running momentum)
                                   (nd.mul_scalar variance (fone - momentum)%sc)
                  = Ok new ∧
                  running_var g' s = Some new
       end).
Proof.
  intros Hr. exists (spec_batch_mean X), (spec_batch_variance X).
  split; [|split; [|split]].
  - intros N Fe HX.
    assert (HFe : features X = Fe) by (unfold features; by rewrite HX).
    split; [by rewrite <- HFe|]. split; [by rewrite <- HFe|].
    intros j Hj. rewrite get_batch_mean, get_batch_variance by lia.
    unfold spec_variance_at, spec_mean_at. rewrite HX. simpl.
    by rewrite !map_map.
  - intros N C H' W HX.
    assert (HC : features X = C) by (unfold features; by rewrite HX).
    split; [by rewrite <- HC|]. split; [by rewrite <- HC|].
    intros c Hc. cbv zeta. rewrite get_batch_mean, get_batch_variance by lia.
    unfold spec_variance_at, spec_mean_at. by rewrite HX.
  - intros Hg Hb Hm Hv.
    destruct (batch_norm_first_run X gamma beta momentum eps s dbg g Hr Hg Hb Hm Hv)
      as (g' & Hrun & _ & Hm' & Hv').
    by eexists _, g'.
  - intros tr out g' Hbt Hrun. unfold batch_norm in Hrun.
    apply run_bind_Ok in Hrun as ([[mean variance] out'] & g1 & Htrans & Hrest).
    destruct (transformation_statistics _ _ _ _ _ _ _ _ _ _ _ Hr Htrans) as [-> ->].
    assert (Hg1 : g1 = g).
    { pose proof (transformation_read_only X gamma beta eps s tr g) as Hro.
      by rewrite Htrans in Hro. }
    subst g1.
    apply run_bind_Ok in Hrest as ([] & g2 & Hkeep & Hret).
    cbn in Hret. injection Hret as _ <-.
    by apply (keep_statistics_stored _ _ momentum).
Qed.

(** C4.  On an input whose rank is neither 2 nor 4, [batch_norm] raises a
    [ValueError], in either mode and whatever the other arguments are; it
    returns no array.  The message of the error names the two accepted
    shapes. *)
Theorem invalid_rank_raises (X gamma beta : NDArray) (momentum eps : F) s tr dbg g :
  length (nd.shape X) ≠ 2 → length (nd.shape X) ≠ 4 →
  (run (batch_norm X gamma beta momentum eps s tr dbg) g).1
  = Raise (ValueError batch_norm_message) ∧
  ∃ pre mid,
    batch_norm_message
    = pre +:+ "dense: (batch size, # of features)" +:+ mid
      +:+ "2d conv: (batch size, # of features, height, width)".
Proof.
  intros H2 H4. split.
  - rewrite batch_norm_invalid_run; [done|]. by intros [?|?].
  - by exists ("the input data shape should be one of:" +:+ newline), newline.
Qed.

(** C5, as amended.  An inference-mode call with per-feature [gamma] and
    [beta] on an identifier whose stored running mean and running variance
    normalise [X] (one scalar per feature, or for a batch of rank 2 a single
    scalar, which is broadcast) returns [gamma * X_hat + beta] where [X_hat]
    is computed from the stored running mean and running variance, as they
    are when the call starts, and not from the statistics of the batch.  An
    inference-mode call on an identifier with no entry raises a [NameError]
    or a [KeyError] and returns no value; the store is as it was. *)
Theorem inference_uses_running_statistics (X gamma beta : NDArray) (momentum eps : F)
    s dbg g :
  valid_rank X →
  (∀ rm rv,
     per_feature X gamma → per_feature X beta →
     running_mean g s = Some rm → running_var g s = Some rv →
     normalizes X rm → normalizes X rv →
     ∃ out g',
       run (batch_norm X gamma beta momentum eps s false dbg) g = (Ok out, g') ∧
       nd.shape out = nd.shape X ∧ nd.wf out ∧
       ∀ idx, in_bounds idx (nd.shape X) →
         nd.get out idx
         = (nd.get gamma [feature_of idx]
            * ((nd.get X idx
                - nd.get rm [broadcast_feature (width rm) (feature_of idx)])
               / fsqrt (nd.get rv [broadcast_feature (width rv) (feature_of idx)]
                        + eps))
            + nd.get beta [feature_of idx])%sc) ∧
  (running_mean g s = None →
   ∃ e,
     run (batch_norm X gamma beta momentum eps s false dbg) g = (Raise e, g) ∧
     missing_statistics s e).
Proof.
  intros Hr. split.
  - intros rm rv Hg Hb Hrm Hrv Hnm Hnv.
    eexists _, _.
    split; [by apply (batch_norm_inference_broadcast_run _ _ _ _ _ _ _ _ rm rv)|].
    split; [reflexivity|]. split; [apply wf_tabulate|].
    intros idx Hidx. unfold spec_normalize. rewrite get_tabulate by done.
    cbv zeta. pose proof (feature_lt X idx Hr Hidx).
    by rewrite !get_broadcast_to.
  - intros Hnone. eexists. split; [by apply batch_norm_missing_run|].
    unfold missing_statistics. destruct (_BN_MOVING_MEANS g); auto.
Qed.

(** C6, as amended.  Two successive training-mode calls, each with
    per-feature [gamma] and [beta], on an identifier that had no entry, on
    batches with statistics [m1], [v1] and then [m2], [v2] whose numbers of
    features are equal or one of them is 1, leave the running mean
    [m1 * momentum + m2 * (1 - momentum)] and the running variance
    [v1 * momentum + v2 * (1 - momentum)], feature by feature, where
    [momentum] is that of the second call and the statistics of a batch with
    a single feature are broadcast. *)
Theorem two_training_calls (X1 X2 gamma1 beta1 gamma2 beta2 : NDArray)
    (momentum1 momentum eps1 eps2 : F) s dbg1 dbg2 g :
  valid_rank X1 → per_feature X1 gamma1 → per_feature X1 beta1 →
  valid_rank X2 → per_feature X2 gamma2 → per_feature X2 beta2 →
  features X1 = features X2 ∨ features X1 = 1 ∨ features X2 = 1 →
  running_mean g s = None → running_var g s = None →
  ∃ out1 g1 out2 g2 rm rv,
    run (batch_norm X1 gamma1 beta1 momentum1 eps1 s true dbg1) g = (Ok out1, g1) ∧
    run (batch_norm X2 gamma2 beta2 momentum eps2 s true dbg2) g1 = (Ok out2, g2) ∧
    running_mean g2 s = Some rm ∧ running_var g2 s = Some rv ∧
    nd.shape rm = [broadcast_width (features X1) (features X2)] ∧
    nd.shape rv = [broadcast_width (features X1) (features X2)] ∧
    (∀ c, c < broadcast_width (features X1) (features X2) →
       nd.get rm [c]
       = (spec_mean_at X1 (broadcast_feature (features X1) c) * momentum
          + spec_mean_at X2 (broadcast_feature (features X2) c) * (fone - momentum))%sc ∧
       nd.get rv [c]
       = (spec_variance_at X1 (broadcast_feature (features X1) c) * momentum
          + spec_variance_at X2 (broadcast_feature (features X2) c)
            * (fone - momentum))%sc) ∧
    (features X1 = features X2 →
     rm = spec_decay (spec_batch_mean X1) (spec_batch_mean X2) momentum ∧
     rv = spec_decay (spec_batch_variance X1) (spec_batch_variance X2) momentum ∧
     ∀ c, c < features X2 →
       nd.get rm [c]
       = (spec_mean_at X1 c * momentum + spec_mean_at X2 c * (fone - momentum))%sc ∧
       nd.get rv [c]
       = (spec_variance_at X1 c * momentum
          + spec_variance_at X2 c * (fone - momentum))%sc).
Proof.
  intros Hr1 Hg1 Hb1 Hr2 Hg2 Hb2 Hfe Hm Hv.
  destruct (batch_norm_first_run X1 gamma1 beta1 momentum1 eps1 s dbg1 g
              Hr1 Hg1 Hb1 Hm Hv) as (g1 & Hrun1 & Hbt1 & Hm1 & Hv1).
  assert (Hs2 : entry_broadcasts g1 s X2).
  { split; intros r Hr; rewrite ?Hm1, ?Hv1 in Hr; injection Hr as <-;
      (split; [apply wf_tabulate|]); exists (features X1); by split. }
  pose proof (batch_norm_training_broadcast_run X2 gamma2 beta2 momentum eps2 s dbg2 g1
                Hr2 Hg2 Hb2 Hbt1 Hs2) as Hrun2.
  eexists _, g1, _, _.
  exists (spec_decay_broadcast (spec_batch_mean X1) (spec_batch_mean X2) momentum),
         (spec_decay_broadcast (spec_batch_variance X1) (spec_batch_variance X2) momentum).
  split; [exact Hrun1|]. split; [exact Hrun2|].
  split; [by rewrite store_update_broadcast_mean, Hm1|].
  split; [by rewrite store_update_broadcast_var, Hv1|].
  split; [reflexivity|]. split; [reflexivity|].
  assert (Hget : ∀ c, c < broadcast_width (features X1) (features X2) →
            nd.get (spec_decay_broadcast (spec_batch_mean X1) (spec_batch_mean X2)
                      momentum) [c]
            = (spec_mean_at X1 (broadcast_feature (features X1) c) * momentum
               + spec_mean_at X2 (broadcast_feature (features X2) c)
                 * (fone - momentum))%sc ∧
            nd.get (spec_decay_broadcast (spec_batch_variance X1)
                      (spec_batch_variance X2) momentum) [c]
            = (spec_variance_at X1 (broadcast_feature (features X1) c) * momentum
               + spec_variance_at X2 (broadcast_feature (features X2) c)
                 * (fone - momentum))%sc).
  { intros c Hc.
    destruct (broadcast_feature_lt _ _ c Hfe Hc) as [Hc1 Hc2].
    unfold spec_decay_broadcast, width. simpl nd.shape. simpl hd.
    rewrite !get_tabulate by (by repeat constructor). simpl hd.
    by rewrite !get_batch_mean, !get_batch_variance. }
  split; [exact Hget|].
  intros Hsame.
  split; [apply (spec_decay_broadcast_same _ _ _ (features X2)); simpl; by rewrite ?Hsame|].
  split; [apply (spec_decay_broadcast_same _ _ _ (features X2)); simpl; by rewrite ?Hsame|].
  intros c Hc.
  assert (Hc' : c < broadcast_width (features X1) (features X2))
    by (by rewrite Hsame, broadcast_width_same).
  destruct (Hget c Hc') as [Hgm Hgv]. rewrite Hgm, Hgv.
  rewrite Hsame, !broadcast_feature_same by done. done.
Qed.

Lemma net_scope_names_distinct : NoDup net_scope_names.
Proof.
  apply (bool_decide_unpack _). vm_compute. exact I.
Qed.

(** C8.  A call of [batch_norm] with the identifier [s], in either mode and
    whether it returns or raises, leaves the running mean and the running
    variance of every other identifier as they were; and the three call sites
    of [net] pass three different identifiers. *)
Theorem other_scopes_unchanged (X gamma beta : NDArray) (momentum eps : F) s tr dbg
    g s' :
  bound_together g → s' ≠ s →
  running_mean (run (batch_norm X gamma beta momentum eps s tr dbg) g).2 s'
  = running_mean g s' ∧
  running_var (run (batch_norm X gamma beta momentum eps s tr dbg) g).2 s'
  = running_var g s' ∧
  NoDup net_scope_names.
Proof.
  intros Hbt Hs.
  destruct (batch_norm_keeps_others X gamma beta momentum eps s tr dbg g Hbt)
    as [_ Hothers].
  destruct (Hothers s' Hs) as [Hm Hv].
  split; [exact Hm|]. split; [exact Hv|].
  exact net_scope_names_distinct.
Qed.

(** C9, as amended.  From a store whose running statistics for the
    identifier, if any, broadcast against the batch statistics, [batch_norm]
    in training mode returns what [pure_batch_norm] returns on the same [X],
    [gamma], [beta] and [eps]: the same array, or the same exception when
    [gamma] or [beta] does not go with [X]. *)
Theorem training_refines_pure (X gamma beta : NDArray) (momentum eps : F) s dbg g :
  valid_rank X → entry_broadcasts g s X →
  (run (batch_norm X gamma beta momentum eps s true dbg) g).1
  = pure_batch_norm X gamma beta eps.
Proof.
  intros Hr Hs. unfold batch_norm.
  rewrite run_bind, transformation_training_pure by done.
  destruct (pure_batch_norm X gamma beta eps) as [out|e]; [|done].
  destruct (keep_statistics_broadcast_returns X momentum s g Hs) as [g' Hkeep].
  by rewrite run_bind, Hkeep.
Qed.

(** C10.  When the rank of the input is neither 2 nor 4, the call raises
    with the globals exactly as they were: no dictionary is created and no
    entry is stored or decayed. *)
Theorem invalid_rank_leaves_store (X gamma beta : NDArray) (momentum eps : F) s tr
    dbg g :
  length (nd.shape X) ≠ 2 → length (nd.shape X) ≠ 4 →
  run (batch_norm X gamma beta momentum eps s tr dbg) g
  = (Raise (ValueError batch_norm_message), g).
Proof.
  intros H2 H4. apply batch_norm_invalid_run. by intros [?|?].
Qed.

(** *** Invariants of the store *)

(** X1.  The two names are bound together in a fresh kernel and after every
    call, whether it returns or raises. *)
Theorem bound_together_invariant (X gamma beta : NDArray) (momentum eps : F) s tr dbg
    g :
  bound_together (fresh_kernel (F := F)) ∧
  (bound_together g →
   bound_together (run (batch_norm X gamma beta momentum eps s tr dbg) g).2).
Proof.
  split; [exact I|]. intros Hbt.
  by destruct (batch_norm_keeps_others X gamma beta momentum eps s tr dbg g Hbt).
Qed.

(** X2.  After a call that returns, the identifier has an entry, and the
    store is ready for the next call under it on any batch with as many
    features. *)
Theorem store_fits_after_call (X X' gamma beta : NDArray) (momentum eps : F) s tr dbg
    g :
  valid_rank X → per_feature X gamma → per_feature X beta → store_fits g s X →
  tr = true ∨ (is_Some (running_mean g s) ∧ is_Some (running_var g s)) →
  features X' = features X →
  let g' := (run (batch_norm X gamma beta momentum eps s tr dbg) g).2 in
  store_fits g' s X' ∧ is_Some (running_mean g' s) ∧ is_Some (running_var g' s).
Proof.
  intros Hr Hg Hb Hs Hmode Hfe g'.
  destruct (batch_norm_update_run X gamma beta momentum eps s tr dbg g Hr Hg Hb Hs
              Hmode) as [out Hrun].
  unfold g'. rewrite Hrun. cbn [snd].
  rewrite store_update_mean, store_update_var.
  split; [|by split].
  split; [apply store_update_bound|].
  unfold entry_fits. rewrite store_update_mean, store_update_var.
  destruct Hs as (_ & Hfm & Hfv).
  assert (Hshape : ∀ o stat, per_feature X stat → nd.wf stat → fits X o →
                             per_feature X' (spec_updated o stat momentum) ∧
                             nd.wf (spec_updated o stat momentum)).
  { intros o stat Hstat Hwf Hfit. unfold per_feature in *. rewrite Hfe.
    destruct o as [r|]; simpl; [split; [done | apply wf_tabulate] | done]. }
  split; intros r Hr'; injection Hr' as <-; apply Hshape;
    done || apply wf_tabulate.
Qed.

End claims.

(** ** The guard of the division *)

Section signs.
Context {F : Type} `{Signs F}.

Lemma total_fnonneg (l : list F) : Forall fnonneg l → fnonneg (nd.total l).
Proof.
  unfold nd.total.
  assert (Hacc : ∀ acc, fnonneg acc → Forall fnonneg l → fnonneg (fold_left fadd l acc)).
  { induction l as [|x l IH]; intros acc Hacc Hl; simpl; [done|].
    inversion Hl; subst. apply IH; [by apply fnonneg_add | done]. }
  apply Hacc, fnonneg_zero.
Qed.

Lemma variance_fnonneg (X : nd.NDArray F) c : fnonneg (spec_variance_at X c).
Proof.
  unfold spec_variance_at. apply fnonneg_div_count, total_fnonneg.
  rewrite Forall_map. apply Forall_true. intros idx. apply fnonneg_square.
Qed.

Lemma divisor_fpositive (X : nd.NDArray F) (eps : F) c :
  fpositive eps → fpositive (fsqrt (spec_variance_at X c + eps)%sc).
Proof. intros He. apply fpositive_sqrt, fpositive_add; [apply variance_fnonneg | done]. Qed.

(** C7, as amended.  In the arithmetic of the reals and in that of the
    binary32 numbers of the arrays alike: for a batch of rank 2 or 4 and an
    [eps] that is positive as an element of the arrays (over the reals
    [0 < eps]; in binary32 a positive number, [+inf] or a NaN, once rounded),
    every batch variance is not negative (in binary32: or a NaN), so every
    divisor [sqrt(variance + eps)] is positive (in binary32: or a NaN) and is
    not zero, also for a feature whose variance is exactly zero, where it is
    [sqrt(eps)]; and those divisors are the ones by which [pure_batch_norm]
    and the training mode of [batch_norm] divide: with per-feature [gamma]
    and [beta] and, for [batch_norm], from a store whose running statistics
    for the identifier, if any, broadcast against the batch statistics, both
    return the batch normalised with them. *)
Theorem normalization_divisor_positive (X gamma beta : nd.NDArray F) (momentum eps : F)
    s dbg g :
  valid_rank X → fpositive eps →
  let divisor c := fsqrt (spec_variance_at X c + eps)%sc in
  let out :=
    nd.tabulate (nd.shape X)
      (λ idx, let c := feature_of idx in
              (nd.get gamma [c] * ((nd.get X idx - spec_mean_at X c) / divisor c)
               + nd.get beta [c])%sc) in
  (∀ c, fnonneg (spec_variance_at X c) ∧ fpositive (divisor c) ∧ divisor c ≠ fzero) ∧
  (∀ c, spec_variance_at X c = fzero → divisor c = fsqrt eps ∧ fpositive (fsqrt eps)) ∧
  Forall fpositive (nd.data (nd.sqrt (nd.plus_scalar (spec_batch_variance X) eps))) ∧
  (per_feature X gamma → per_feature X beta →
   pure_batch_norm X gamma beta eps = Ok out) ∧
  (per_feature X gamma → per_feature X beta → entry_broadcasts g s X →
   (run (batch_norm X gamma beta momentum eps s true dbg) g).1 = Ok out).
Proof.
  intros Hr He divisor out.
  assert (Hout : spec_normalize X gamma beta eps (spec_batch_mean X)
                   (spec_batch_variance X) = out).
  { apply ndarray_ext; [apply wf_tabulate | apply wf_tabulate | reflexivity |].
    intros idx Hidx. rewrite get_normalized_batch by done.
    unfold out. by rewrite get_tabulate. }
  split; [|split; [|split; [|split]]].
  - intros c. split; [apply variance_fnonneg|].
    split; [by apply divisor_fpositive|].
    by apply fpositive_nonzero, divisor_fpositive.
  - intros c Hc. unfold divisor. rewrite Hc, fadd_0_positive by done.
    split; [done | by apply fpositive_sqrt].
  - unfold nd.sqrt, nd.plus_scalar, spec_batch_variance. simpl.
    rewrite !Forall_map. apply Forall_true. intros k. by apply divisor_fpositive.
  - intros Hg Hb. rewrite <- Hout. by apply pure_batch_norm_run.
  - intros Hg Hb Hs. rewrite <- Hout.
    destruct (batch_norm_training_broadcast_returns X gamma beta momentum eps s dbg g
                Hr Hg Hb Hs) as [g' Hrun].
    by rewrite Hrun.
Qed.

End signs.

(** ** Over the reals *)

Lemma total_nonneg (l : list R) :
  Forall (λ x, (0 <= x)%R) l → (0 <= nd.total l)%R.
Proof.
  unfold nd.total. simpl.
  assert (Hacc : ∀ acc, (0 <= acc)%R → Forall (λ x, (0 <= x)%R) l →
                        (0 <= fold_left Rplus l acc)%R).
  { induction l as [|x l IH]; intros acc Hacc Hl; simpl; [done|].
    inversion Hl; subst. apply IH; [lra | done]. }
  apply Hacc. lra.
Qed.

Lemma variance_nonneg (X : nd.NDArray R) c : (0 <= spec_variance_at X c)%R.
Proof.
  unfold spec_variance_at. apply div_count_nonneg, total_nonneg.
  rewrite Forall_map. apply Forall_true. intros idx. apply pow2_ge_0.
Qed.

(** ** Further properties over the reals *)


Lemma total_cons (x : R) (l : list R) : nd.total (x :: l) = (x + nd.total l)%R.
Proof.
  unfold nd.total. simpl.
  assert (Hacc : ∀ acc, fold_left Rplus l acc = (acc + fold_left Rplus l 0)%R).
  { induction l as [|y l IH]; intros acc; simpl; [lra|].
    rewrite (IH (acc + y)%R), (IH (0 + y)%R). lra. }
  rewrite Hacc. lra.
Qed.

Lemma total_nil : nd.total (F := R) [] = 0%R.
Proof. reflexivity. Qed.

Lemma total_centered {A : Type} (f : A → R) (a b : R) (l : list A) :
  nd.total (map (λ x, ((f x - a) * b)%R) l)
  = ((nd.total (map f l) - INR (length l) * a) * b)%R.
Proof.
  induction l as [|x l IH].
  - simpl. rewrite total_nil. lra.
  - cbn [map length]. rewrite !total_cons, IH, S_INR. lra.
Qed.

Lemma total_scaled_squares {A : Type} (f : A → R) (a b : R) (l : list A) :
  nd.total (map (λ x, (((f x - a) * b) ^ 2)%R) l)
  = (nd.total (map (λ x, ((f x - a) ^ 2)%R) l) * b ^ 2)%R.
Proof.
  induction l as [|x l IH].
  - simpl. rewrite total_nil. lra.
  - cbn [map]. rewrite !total_cons, IH. lra.
Qed.

Lemma length_flat_map_const {A B : Type} (f : A → list B) (l : list A) k :
  (∀ x, length (f x) = k) → length (flat_map f l) = length l * k.
Proof.
  intros Hf. induction l as [|x l IH]; simpl; [done|].
  by rewrite length_app, Hf, IH.
Qed.

Lemma length_reduced_indices sh c :
  length (reduced_indices sh c) = reduced_elements sh.
Proof.
  unfold reduced_indices, reduced_elements.
  destruct sh as [|N [|C [|H' [|W [|? ?]]]]]; try done.
  - by rewrite length_map, length_seq.
  - rewrite (length_flat_map_const _ _ (H' * W)), length_seq; [lia|].
    intros n. rewrite (length_flat_map_const _ _ W), length_seq; [done|].
    intros h. by rewrite length_map, length_seq.
Qed.

(** X4.  The moments of the normalised batch: per feature, the mean of
    [X_hat] is 0 and the mean of its squares is [variance / (variance + eps)],
    which is below 1 by [eps / (variance + eps)]. *)
Theorem normalized_moments (X gamma beta : nd.NDArray R) (momentum eps : R) s dbg g :
  valid_rank X → per_feature X gamma → per_feature X beta → store_fits g s X →
  (0 < eps)%R → 0 < reduced_elements (nd.shape X) →
  (∀ c, c < features X → nd.get gamma [c] = 1%R ∧ nd.get beta [c] = 0%R) →
  ∃ out g',
    run (batch_norm X gamma beta momentum eps s true dbg) g = (Ok out, g') ∧
    ∀ c, c < features X →
      let positions := reduced_indices (nd.shape X) c in
      let count := INR (reduced_elements (nd.shape X)) in
      (nd.total (map (nd.get out) positions) / count)%R = 0%R ∧
      (nd.total (map (λ idx, (nd.get out idx ^ 2)%R) positions) / count)%R
      = (spec_variance_at X c / (spec_variance_at X c + eps))%R.
Proof.
  intros Hr Hg Hb Hs He Hn Hone.
  eexists _, _. split; [by apply batch_norm_training_run|].
  intros c Hc positions count.
  set (out := spec_normalize X gamma beta eps (spec_batch_mean X)
                (spec_batch_variance X)).
  assert (Hplain : ∀ idx, in_bounds idx (nd.shape X) →
            nd.get out idx
            = ((nd.get X idx - spec_mean_at X (feature_of idx))
               / sqrt (spec_variance_at X (feature_of idx) + eps))%R).
  { intros idx Hidx. unfold out. rewrite get_normalized_batch by done.
    destruct (Hone _ (feature_lt X idx Hr Hidx)) as [-> ->]. simpl. lra. }
  set (mu := spec_mean_at X c). set (var := spec_variance_at X c).
  assert (Hvar : (0 <= var)%R) by apply variance_nonneg.
  set (sd := sqrt (var + eps)).
  assert (Hsd : (0 < sd)%R) by (apply sqrt_lt_R0; lra).
  assert (Hsd2 : (sd * sd = var + eps)%R) by (apply sqrt_sqrt; lra).
  assert (Hcount : (0 < count)%R) by (apply lt_0_INR; lia).
  assert (Hout : ∀ idx, In idx positions →
                        nd.get out idx = ((nd.get X idx - mu) * / sd)%R).
  { intros idx Hin.
    assert (Hcf : c < nth 1 (nd.shape X) 0) by done.
    destruct (reduced_indices_spec _ _ _ Hcf Hin) as [Hbnd Hfeat].
    rewrite Hplain by done. by rewrite Hfeat. }
  assert (Hmu : (nd.total (map (nd.get X) positions) = count * mu)%R).
  { assert (Hdef : mu = (nd.total (map (nd.get X) positions) / count)%R)
      by reflexivity.
    rewrite Hdef. field. lra. }
  assert (Hv : (nd.total (map (λ idx, ((nd.get X idx - mu) ^ 2)%R) positions)
                = count * var)%R).
  { assert (Hdef : var = (nd.total (map (λ idx, ((nd.get X idx - mu) ^ 2)%R)
                                         positions) / count)%R) by reflexivity.
    rewrite Hdef. field. lra. }
  split.
  - rewrite (map_ext_in _ _ _ Hout), total_centered, Hmu.
    unfold positions. rewrite length_reduced_indices. fold count.
    field. lra.
  - rewrite (map_ext_in _ (λ idx, (((nd.get X idx - mu) * / sd) ^ 2)%R))
      by (intros idx Hin; by rewrite Hout).
    rewrite total_scaled_squares, Hv.
    replace ((/ sd) ^ 2)%R with (/ (var + eps))%R
      by (rewrite <- Hsd2; field; lra).
    field. lra.
Qed.

(** ** Sanity checks on the inputs of the notebook *)

Ltac evaluate :=
  cbv -[Rplus Rminus Rmult Rdiv Rinv Ropp IZR sqrt INR pow]; simpl INR; simpl pow.

(** The matrix [A]: column means 4 and 7, population variances 14/3 and 6,
    and a 0 in row 0 of column 1, as the notebook prints. *)
Example cell5_statistics :
  ∃ mean variance out,
    run (the_usual_batch_norm_transformation inputs.A inputs.ga inputs.be inputs.eps
           "bn1" true) fresh_kernel
    = (Ok (mean, variance, out), fresh_kernel) ∧
    nd.shape mean = [2] ∧ nd.shape variance = [2] ∧ nd.shape out = [3; 2] ∧
    nd.get mean [0] = 4%R ∧ nd.get mean [1] = 7%R ∧
    nd.get variance [0] = (14 / 3)%R ∧ nd.get variance [1] = 6%R ∧
    nd.get out [0; 1] = 0%R.
Proof.
  eexists _, _, _. split; [reflexivity|].
  repeat split; try reflexivity; evaluate; lra.
Qed.

Lemma sqrt_between (x lo hi : R) :
  (0 <= lo)%R → (lo * lo < x)%R → (x < hi * hi)%R → (0 < hi)%R →
  (lo < sqrt x < hi)%R.
Proof.
  intros Hlo Hl Hh Hhi.
  assert (Hx : (0 <= x)%R) by nra.
  split.
  - rewrite <- (sqrt_square lo) at 1 by done. apply sqrt_lt_1; nra.
  - rewrite <- (sqrt_square hi) at 1 by lra. apply sqrt_lt_1; nra.
Qed.

Lemma inv_sqrt_between (x lo hi : R) :
  (0 < lo)%R → (lo * lo < x)%R → (x < hi * hi)%R → (0 < hi)%R →
  (/ hi < / sqrt x < / lo)%R.
Proof.
  intros Hlo Hl Hh Hhi.
  destruct (sqrt_between x lo hi) as [H1 H2]; try lra.
  split; apply Rinv_lt_contravar; try lra; apply Rmult_lt_0_compat; lra.
Qed.

(** X5.  The output of [pure_batch_norm] on the matrix [A], against the
    values that cell 5 prints. *)
Example cell5_output :
  ∃ out,
    pure_batch_norm inputs.A inputs.ga inputs.be inputs.eps = Ok out ∧
    nd.shape out = [3; 2] ∧
    printed (nd.get out [0; 0]) (-1.38872862) ∧ printed (nd.get out [0; 1]) 0 ∧
    printed (nd.get out [1; 0]) 0.46290955 ∧ printed (nd.get out [1; 1]) (-1.22474384) ∧
    printed (nd.get out [2; 0]) 0.9258191 ∧ printed (nd.get out [2; 1]) 1.22474384.
Proof.
  eexists. split; [by apply pure_batch_norm_run; [left|..]|].
  split; [reflexivity|].
  assert (Hm0 : spec_mean_at inputs.A 0 = 4%R) by (evaluate; lra).
  assert (Hm1 : spec_mean_at inputs.A 1 = 7%R) by (evaluate; lra).
  assert (Hv0 : spec_variance_at inputs.A 0 = (14 / 3)%R) by (evaluate; lra).
  assert (Hv1 : spec_variance_at inputs.A 1 = 6%R) by (evaluate; lra).
  pose proof (inv_sqrt_between (14 / 3 + inputs.eps) 2.1602492 2.1602493) as Hs0.
  pose proof (inv_sqrt_between (6 + inputs.eps) 2.4494917 2.4494918) as Hs1.
  unfold inputs.eps in *.
  destruct Hs0 as [Hs0 Hs0']; try lra. destruct Hs1 as [Hs1 Hs1']; try lra.
  unfold spec_normalize, printed.
  repeat split;
    rewrite get_tabulate
      by (unfold in_bounds; simpl;
          repeat match goal with |- Forall2 _ _ _ => constructor end; lia);
    cbv zeta; unfold feature_of; simpl nth;
    rewrite !get_batch_mean, !get_batch_variance by (unfold features; simpl; lia);
    rewrite ?Hm0, ?Hm1, ?Hv0, ?Hv1; unfold inputs.eps;
    unfold nd.get; simpl; unfold Rdiv at 1; lra.
Qed.

(** X6.  The output of [pure_batch_norm] on the rank-4 array [B], against
    the values that cell 7 prints. *)
Example cell7_output :
  ∃ out,
    pure_batch_norm inputs.B inputs.ga inputs.be inputs.eps = Ok out ∧
    nd.shape out = [2; 2; 2; 2] ∧
    printed (nd.get out [0; 0; 0; 0]) (-1.63784397) ∧
    printed (nd.get out [0; 0; 0; 1]) 0.88191599 ∧
    printed (nd.get out [0; 0; 1; 0]) 0.37796399 ∧
    printed (nd.get out [0; 0; 1; 1]) 1.38586795 ∧
    printed (nd.get out [0; 1; 0; 0]) 0.30779248 ∧
    printed (nd.get out [0; 1; 0; 1]) (-0.51298743) ∧
    printed (nd.get out [0; 1; 1; 0]) (-1.33376741) ∧
    printed (nd.get out [0; 1; 1; 1]) 1.12857234 ∧
    printed (nd.get out [1; 0; 0; 0]) 0.88191599 ∧
    printed (nd.get out [1; 0; 0; 1]) (-0.62993997) ∧
    printed (nd.get out [1; 0; 1; 0]) (-1.13389194) ∧
    printed (nd.get out [1; 0; 1; 1]) (-0.12598799) ∧
    printed (nd.get out [1; 1; 0; 0]) 1.12857234 ∧
    printed (nd.get out [1; 1; 0; 1]) (-0.51298743) ∧
    printed (nd.get out [1; 1; 1; 0]) (-1.33376741) ∧
    printed (nd.get out [1; 1; 1; 1]) 1.12857234.
Proof.
  eexists. split; [by apply pure_batch_norm_run; [right|..]|].
  split; [reflexivity|].
  assert (Hm0 : spec_mean_at inputs.B 0 = (17 / 4)%R) by (evaluate; lra).
  assert (Hm1 : spec_mean_at inputs.B 1 = (29 / 8)%R) by (evaluate; lra).
  assert (Hv0 : spec_variance_at inputs.B 0 = (63 / 16)%R) by (evaluate; lra).
  assert (Hv1 : spec_variance_at inputs.B 1 = (95 / 64)%R) by (evaluate; lra).
  pose proof (inv_sqrt_between (63 / 16 + inputs.eps) 1.9843160 1.9843161) as Hs0.
  pose proof (inv_sqrt_between (95 / 64 + inputs.eps) 1.2183533 1.2183534) as Hs1.
  unfold inputs.eps in *.
  destruct Hs0 as [Hs0 Hs0']; try lra. destruct Hs1 as [Hs1 Hs1']; try lra.
  unfold spec_normalize, printed.
  repeat split;
    rewrite get_tabulate
      by (unfold in_bounds; simpl;
          repeat match goal with |- Forall2 _ _ _ => constructor end; lia);
    cbv zeta; unfold feature_of; simpl nth;
    rewrite !get_batch_mean, !get_batch_variance by (unfold features; simpl; lia);
    rewrite ?Hm0, ?Hm1, ?Hv0, ?Hv1; unfold inputs.eps;
    unfold nd.get; simpl; unfold Rdiv at 1; lra.
Qed.

(** X7.  An identifier used again with a batch of another number of features:
    the update of the stored statistics does not broadcast. *)
Example reused_identifier_raises :
  ∃ g',
    run (batch_norm inputs.three_features inputs.ga3 inputs.be3 inputs.momentum
           inputs.eps "bn1" true false) inputs.trained
    = (Raise (MXNetError "operands could not be broadcast together"), g').
Proof. eexists. reflexivity. Qed.

(** ** The claims on the inputs of the notebook *)

(** A fresh kernel is ready for any call. *)
Lemma fresh_kernel_fits {F : Type} `{Scalar F} s (X : nd.NDArray F) :
  store_fits fresh_kernel s X.
Proof. split; [exact I|]. split; intros r Hr; discriminate Hr. Defined.

(** The store after the first training-mode call on [A] under ["bn1"]. *)
Lemma trained_eq :
  inputs.trained
  = spec_store_update fresh_kernel "bn1" (spec_batch_mean inputs.A)
      (spec_batch_variance inputs.A) inputs.momentum.
Proof.
  unfold inputs.trained.
  by rewrite batch_norm_training_run
    by first [ by left | reflexivity | apply fresh_kernel_fits ].
Qed.

Lemma trained_fits : store_fits inputs.trained "bn1" inputs.A.
Proof.
  rewrite trained_eq. split; [exact I|].
  split; intros r Hr;
    [rewrite store_update_mean in Hr | rewrite store_update_var in Hr];
    injection Hr as <-; (split; [reflexivity | apply wf_tabulate]).
Qed.

(** A fresh kernel has nothing stored that could fail to broadcast. *)
Lemma fresh_kernel_broadcasts {F : Type} `{Scalar F} s (X : nd.NDArray F) :
  entry_broadcasts fresh_kernel s X.
Proof. split; intros r Hr; discriminate Hr. Defined.

(** The store after the first training-mode call on [one_feature] under
    ["bn1"]: its entry holds a single scalar, which broadcasts against the
    two features of [A]. *)
Lemma trained_on_one_eq :
  inputs.trained_on_one
  = spec_store_update fresh_kernel "bn1" (spec_batch_mean inputs.one_feature)
      (spec_batch_variance inputs.one_feature) inputs.momentum.
Proof.
  unfold inputs.trained_on_one.
  by rewrite batch_norm_training_run
    by first [ by left | reflexivity | apply fresh_kernel_fits ].
Qed.

Lemma trained_on_one_broadcasts :
  entry_broadcasts inputs.trained_on_one "bn1" inputs.A.
Proof.
  rewrite trained_on_one_eq.
  split; intros r Hr;
    [rewrite store_update_mean in Hr | rewrite store_update_var in Hr];
    injection Hr as <-; (split; [apply wf_tabulate|]);
    exists 1; (split; [reflexivity | right; by left]).
Qed.

(** The entry that the call on [A] left normalises [A']. *)
Lemma trained_normalizes :
  normalizes inputs.A' (spec_batch_mean inputs.A) ∧
  normalizes inputs.A' (spec_batch_variance inputs.A).
Proof.
  split; (split; [apply wf_tabulate|]); exists 2; (split; [reflexivity | by left]).
Qed.

(** The claim C2 as it stands fails on an inference-mode call under an
    identifier that was never trained: after a training-mode call under
    ["bn1"], an inference-mode call under ["bn2"] raises [KeyError] at the
    lookup of the running mean, and ["bn2"] has no entry afterwards, where
    the claim promises the batch statistics of the call. *)
Lemma inference_without_entry_stores_nothing :
  running_mean inputs.trained "bn2" = None ∧
  run (batch_norm inputs.A inputs.ga inputs.be inputs.momentum inputs.eps
         "bn2" false false) inputs.trained
  = (Raise (KeyError "bn2"), inputs.trained) ∧
  running_mean
    (run (batch_norm inputs.A inputs.ga inputs.be inputs.momentum inputs.eps
            "bn2" false false) inputs.trained).2 "bn2"
  ≠ Some (spec_batch_mean inputs.A).
Proof.
  split; [reflexivity|]. split; [reflexivity|]. discriminate.
Qed.

(** A training-mode call under an identifier whose entry holds two scalars,
    on a batch with three features: the update does not broadcast, the call
    raises and the entry is as it was. *)
Lemma training_on_another_width_stores_nothing :
  valid_rank inputs.three_features ∧
  per_feature inputs.three_features inputs.ga3 ∧
  per_feature inputs.three_features inputs.be3 ∧
  running_mean inputs.trained "bn1" = Some (spec_batch_mean inputs.A) ∧
  run (batch_norm inputs.three_features inputs.ga3 inputs.be3 inputs.momentum
         inputs.eps "bn1" true false) inputs.trained
  = (Raise (MXNetError "operands could not be broadcast together"), inputs.trained).
Proof.
  split; [left; reflexivity|]. split; [reflexivity|]. split; [reflexivity|].
  split; reflexivity.
Qed.

(** A training-mode call with a [gamma] of three scalars on a batch with two
    features raises at [gamma * X_hat], before the update: nothing is stored
    under the identifier. *)
Lemma ill_shaped_gamma_stores_nothing :
  valid_rank inputs.A ∧
  run (batch_norm inputs.A inputs.ga3 inputs.be inputs.momentum inputs.eps
         "bn2" true false) inputs.trained
  = (Raise (MXNetError "operands could not be broadcast together"), inputs.trained) ∧
  running_mean inputs.trained "bn2" = None.
Proof.
  split; [left; reflexivity|]. split; reflexivity.
Qed.

(** The claim C2 as it stands fails on each of these three calls with a
    batch of valid rank: none of them updates the entry of its identifier
    with the batch statistics. *)
Lemma calls_that_update_nothing :
  (* inference mode, no entry *)
  (running_mean inputs.trained "bn2" = None ∧
   run (batch_norm inputs.A inputs.ga inputs.be inputs.momentum inputs.eps
          "bn2" false false) inputs.trained
   = (Raise (KeyError "bn2"), inputs.trained) ∧
   running_mean
     (run (batch_norm inputs.A inputs.ga inputs.be inputs.momentum inputs.eps
             "bn2" false false) inputs.trained).2 "bn2"
   ≠ Some (spec_batch_mean inputs.A)) ∧
  (* training mode, an entry of another length *)
  (running_mean inputs.trained "bn1" = Some (spec_batch_mean inputs.A) ∧
   run (batch_norm inputs.three_features inputs.ga3 inputs.be3 inputs.momentum
          inputs.eps "bn1" true false) inputs.trained
   = (Raise (MXNetError "operands could not be broadcast together"),
      inputs.trained)) ∧
  (* training mode, a gamma of another length *)
  (run (batch_norm inputs.A inputs.ga3 inputs.be inputs.momentum inputs.eps
          "bn2" true false) inputs.trained
   = (Raise (MXNetError "operands could not be broadcast together"), inputs.trained) ∧
   running_mean inputs.trained "bn2" = None).
Proof.
  split; [exact inference_without_entry_stores_nothing|].
  split.
  - exact (proj2 (proj2 (proj2 training_on_another_width_stores_nothing))).
  - exact (proj2 ill_shaped_gamma_stores_nothing).
Qed.

(** The claim C7 as it stands fails in the arithmetic of the arrays: the
    Python float [1e-46] is positive, as an operand of a binary32 array it is
    rounded to 0, and on a batch whose first feature is constant the batch
    variance of that feature is 0, the divisor [sqrt(variance + eps)] is 0,
    and [pure_batch_norm] and the training mode of [batch_norm] divide 0 by 0
    and return NaN for that feature. *)
Lemma tiny_eps_divides_by_zero :
  (* the binary64 number nearest to 10 ** -46, a positive one *)
  SpecFloat.valid_binary 53 1024 inputs32.python_1e_46 = true ∧
  (Z.abs (5142201741628769 * 10 ^ 46 - 2 ^ 205) * 2 <= 10 ^ 46)%Z ∧
  SpecFloat.SFltb (SpecFloat.S754_zero false) inputs32.python_1e_46 = true ∧
  (* as an operand of the arrays *)
  ` inputs32.eps = SpecFloat.S754_zero false ∧
  float32.pos_or_nan inputs32.eps = false ∧
  ∃ mean variance out,
    inputs32.transformation = Ok (mean, variance, out) ∧
    inputs32.elements variance
    = [SpecFloat.S754_zero false; SpecFloat.S754_finite false 12582912 (-21)] ∧
    inputs32.elements (nd.sqrt (H := float32.scalar)
                         (nd.plus_scalar (H := float32.scalar) variance inputs32.eps))
    = [SpecFloat.S754_zero false; SpecFloat.S754_finite false 10273905 (-22)] ∧
    inputs32.elements out
    = [SpecFloat.S754_nan; SpecFloat.S754_zero false;
       SpecFloat.S754_nan; SpecFloat.S754_finite true 10273904 (-23);
       SpecFloat.S754_nan; SpecFloat.S754_finite false 10273904 (-23)] ∧
    inputs32.pure = Ok out ∧ inputs32.stateful = Ok out.
Proof.
  split; [reflexivity|]. split; [by vm_compute|]. split; [reflexivity|].
  split; [by vm_compute|]. split; [by vm_compute|].
  assert (Hr : valid_rank inputs32.constant_feature) by (left; reflexivity).
  exists (spec_batch_mean (H := float32.scalar) inputs32.constant_feature),
         (spec_batch_variance (H := float32.scalar) inputs32.constant_feature),
         (spec_normalize (H := float32.scalar) inputs32.constant_feature inputs32.ga
            inputs32.be inputs32.eps
            (spec_batch_mean (H := float32.scalar) inputs32.constant_feature)
            (spec_batch_variance (H := float32.scalar) inputs32.constant_feature)).
  split.
  { unfold inputs32.transformation. by rewrite transformation_training. }
  split; [by vm_compute|]. split; [by vm_compute|]. split; [by vm_compute|].
  split.
  - unfold inputs32.pure. by apply pure_batch_norm_run.
  - unfold inputs32.stateful.
    by rewrite batch_norm_training_run
      by first [ done | reflexivity | apply fresh_kernel_fits ].
Qed.

(** The claim C1 as it stands fails on a training-mode call with per-feature
    [gamma] and [beta] under an identifier that was used with a batch of
    another number of features: no array is returned. *)
Lemma training_call_returns_no_array :
  valid_rank inputs.three_features ∧
  per_feature inputs.three_features inputs.ga3 ∧
  per_feature inputs.three_features inputs.be3 ∧
  (run (batch_norm inputs.three_features inputs.ga3 inputs.be3 inputs.momentum
          inputs.eps "bn1" true false) inputs.trained).1
  = Raise (MXNetError "operands could not be broadcast together").
Proof.
  split; [left; reflexivity|]. split; [reflexivity|]. split; reflexivity.
Qed.

(** The claim C5 as it stands fails on an inference-mode call under an
    identifier whose entry exists and holds two scalars, on a batch with
    three features: the subtraction of the stored mean does not broadcast.
    It fails as well on a batch with two features when [gamma] holds three
    scalars: [gamma * X_hat] does not broadcast. *)
Lemma inference_on_another_width_raises :
  running_mean inputs.trained "bn1" = Some (spec_batch_mean inputs.A) ∧
  running_var inputs.trained "bn1" = Some (spec_batch_variance inputs.A) ∧
  valid_rank inputs.three_features ∧
  run (batch_norm inputs.three_features inputs.ga3 inputs.be3 inputs.momentum
         inputs.eps "bn1" false false) inputs.trained
  = (Raise (MXNetError "operands could not be broadcast together"), inputs.trained) ∧
  valid_rank inputs.A ∧
  run (batch_norm inputs.A inputs.ga3 inputs.be inputs.momentum inputs.eps
         "bn1" false false) inputs.trained
  = (Raise (MXNetError "operands could not be broadcast together"), inputs.trained).
Proof.
  split; [reflexivity|]. split; [reflexivity|]. split; [left; reflexivity|].
  split; [reflexivity|]. split; [left; reflexivity|]. reflexivity.
Qed.

(** The claim C6 as it stands fails on two successive training-mode calls
    on batches with two and then three features: the second call raises and
    the running mean stays the batch mean of the first call.  It fails as
    well when the [gamma] of a call does not go with its batch: the call
    raises at [gamma * X_hat] and stores nothing. *)
Lemma second_call_on_another_width :
  running_mean (F := R) fresh_kernel "bn1" = None ∧
  (∃ out1,
     run (batch_norm inputs.A inputs.ga inputs.be inputs.momentum inputs.eps
            "bn1" true false) fresh_kernel = (Ok out1, inputs.trained)) ∧
  run (batch_norm inputs.three_features inputs.ga3 inputs.be3 inputs.momentum
         inputs.eps "bn1" true false) inputs.trained
  = (Raise (MXNetError "operands could not be broadcast together"), inputs.trained) ∧
  running_mean inputs.trained "bn1" = Some (spec_batch_mean inputs.A) ∧
  run (batch_norm inputs.A inputs.ga3 inputs.be inputs.momentum inputs.eps
         "bn1" true false) fresh_kernel
  = (Raise (MXNetError "operands could not be broadcast together"), fresh_kernel).
Proof.
  split; [reflexivity|]. split.
  - eexists. rewrite trained_eq.
    apply batch_norm_training_run;
      first [ by left | reflexivity | apply fresh_kernel_fits ].
  - split; [reflexivity|]. split; reflexivity.
Qed.

(** The claim C9 as it stands fails in the same state: [pure_batch_norm]
    returns an array and [batch_norm] raises. *)
Lemma stateful_call_raises_where_pure_returns :
  valid_rank inputs.three_features ∧
  pure_batch_norm inputs.three_features inputs.ga3 inputs.be3 inputs.eps
  = Ok (spec_normalize inputs.three_features inputs.ga3 inputs.be3 inputs.eps
          (spec_batch_mean inputs.three_features)
          (spec_batch_variance inputs.three_features)) ∧
  (run (batch_norm inputs.three_features inputs.ga3 inputs.be3 inputs.momentum
          inputs.eps "bn1" true false) inputs.trained).1
  = Raise (MXNetError "operands could not be broadcast together") ∧
  (run (batch_norm inputs.three_features inputs.ga3 inputs.be3 inputs.momentum
          inputs.eps "bn1" true false) inputs.trained).1
  ≠ pure_batch_norm inputs.three_features inputs.ga3 inputs.be3 inputs.eps.
Proof.
  assert (Hr : valid_rank inputs.three_features) by (left; reflexivity).
  assert (Hpure : pure_batch_norm inputs.three_features inputs.ga3 inputs.be3
                    inputs.eps
                  = Ok (spec_normalize inputs.three_features inputs.ga3 inputs.be3
                          inputs.eps (spec_batch_mean inputs.three_features)
                          (spec_batch_variance inputs.three_features)))
    by (by apply pure_batch_norm_run).
  split; [exact Hr|]. split; [exact Hpure|]. split; [reflexivity|].
  rewrite Hpure. discriminate.
Qed.

(** An inference-mode call as the first call of a kernel: the name of the
    dictionary is not bound yet. *)
Example first_call_in_inference_mode :
  run (batch_norm inputs.A inputs.ga inputs.be inputs.momentum inputs.eps
         "bn1" false false) fresh_kernel
  = (Raise (NameError "_BN_MOVING_MEANS"), fresh_kernel).
Proof. reflexivity. Qed.

(** A batch of rank 3. *)
Example rank3_is_refused :
  run (batch_norm inputs.rank3 inputs.ga inputs.be inputs.momentum inputs.eps
         "bn1" true false) fresh_kernel
  = (Raise (ValueError batch_norm_message), fresh_kernel).
Proof. reflexivity. Qed.

(** C1, as amended, on the matrix [A] under an identifier whose entry holds a
    single scalar. *)
Lemma training_output_formula_witness :
  valid_rank inputs.A ∧ per_feature inputs.A inputs.ga ∧
  per_feature inputs.A inputs.be ∧
  entry_broadcasts inputs.trained_on_one "bn1" inputs.A ∧
  ∃ out g',
    run (batch_norm inputs.A inputs.ga inputs.be inputs.momentum inputs.eps
           "bn1" true false) inputs.trained_on_one = (Ok out, g') ∧
    nd.shape out = [3; 2] ∧ nd.wf out ∧
    ∀ idx, in_bounds idx [3; 2] →
      nd.get out idx
      = (nd.get inputs.ga [feature_of idx]
         * ((nd.get inputs.A idx - spec_mean_at inputs.A (feature_of idx))
            / sqrt (spec_variance_at inputs.A (feature_of idx) + inputs.eps))
         + nd.get inputs.be [feature_of idx])%R.
Proof.
  split; [left; reflexivity|]. split; [reflexivity|]. split; [reflexivity|].
  split; [exact trained_on_one_broadcasts|].
  exact (training_output_formula inputs.A inputs.ga inputs.be inputs.momentum
           inputs.eps "bn1" false inputs.trained_on_one
           (or_introl eq_refl) eq_refl eq_refl trained_on_one_broadcasts).
Defined.

(** C2, as amended, on an inference-mode call under ["bn1"] after one
    training-mode call: both running statistics decay. *)
Lemma running_statistics_update_witness :
  valid_rank inputs.A' ∧ per_feature inputs.A' inputs.ga ∧
  per_feature inputs.A' inputs.be ∧ bound_together inputs.trained ∧
  running_mean inputs.trained "bn1" = Some (spec_batch_mean inputs.A) ∧
  running_var inputs.trained "bn1" = Some (spec_batch_variance inputs.A) ∧
  normalizes inputs.A' (spec_batch_mean inputs.A) ∧
  normalizes inputs.A' (spec_batch_variance inputs.A) ∧
  ∃ out g',
    run (batch_norm inputs.A' inputs.ga inputs.be inputs.momentum inputs.eps
           "bn1" false false) inputs.trained = (Ok out, g') ∧
    running_mean g' "bn1"
    = Some (spec_decay (spec_batch_mean inputs.A) (spec_batch_mean inputs.A')
              inputs.momentum) ∧
    running_var g' "bn1"
    = Some (spec_decay (spec_batch_variance inputs.A) (spec_batch_variance inputs.A')
              inputs.momentum).
Proof.
  assert (Hbt : bound_together inputs.trained) by (rewrite trained_eq; exact I).
  assert (Hm : running_mean inputs.trained "bn1" = Some (spec_batch_mean inputs.A))
    by (by rewrite trained_eq, store_update_mean).
  assert (Hv : running_var inputs.trained "bn1"
               = Some (spec_batch_variance inputs.A))
    by (by rewrite trained_eq, store_update_var).
  destruct trained_normalizes as [Hnm Hnv].
  split; [left; reflexivity|]. split; [reflexivity|]. split; [reflexivity|].
  split; [exact Hbt|]. split; [exact Hm|]. split; [exact Hv|].
  split; [exact Hnm|]. split; [exact Hnv|].
  destruct (running_statistics_update inputs.A' inputs.ga inputs.be inputs.momentum
              inputs.eps "bn1" false false inputs.trained
              (or_introl eq_refl) eq_refl eq_refl Hbt)
    as (Hupdate & Hsame & _).
  destruct Hupdate as (out & g' & Hrun & Hm' & Hv').
  { right. split; [reflexivity|]. by exists (spec_batch_mean inputs.A),
                                           (spec_batch_variance inputs.A). }
  destruct (Hsame (proj2 trained_fits)) as [Hsm Hsv].
  rewrite Hsm, Hm in Hm'. rewrite Hsv, Hv in Hv'.
  exists out, g'. split; [exact Hrun|]. split; [exact Hm' | exact Hv'].
Defined.

(** C3 on the matrix [A] in a fresh kernel. *)
Lemma batch_statistics_axes_witness :
  valid_rank inputs.A ∧
  ∃ mean variance out g',
    run (batch_norm inputs.A inputs.ga inputs.be inputs.momentum inputs.eps
           "bn1" true false) fresh_kernel = (Ok out, g') ∧
    running_mean g' "bn1" = Some mean ∧ running_var g' "bn1" = Some variance ∧
    nd.shape mean = [2] ∧ nd.shape variance = [2] ∧
    ∀ j, j < 2 →
      nd.get mean [j]
      = (nd.total (map (λ i, nd.get inputs.A [i; j]) (seq 0 3)) / INR 3)%R ∧
      nd.get variance [j]
      = (nd.total (map (λ i, (nd.get inputs.A [i; j] - nd.get mean [j]) ^ 2)
                       (seq 0 3)) / INR 3)%R.
Proof.
  assert (Hr : valid_rank inputs.A) by (left; reflexivity).
  split; [exact Hr|].
  destruct (batch_statistics_axes inputs.A inputs.ga inputs.be inputs.momentum
              inputs.eps "bn1" false fresh_kernel Hr)
    as (mean & variance & Hdense & _ & Hfresh & _).
  destruct (Hfresh eq_refl eq_refl eq_refl eq_refl) as (out & g' & Hrun & Hm & Hv).
  destruct (Hdense 3 2 eq_refl) as (Hsm & Hsv & Hformula).
  exists mean, variance, out, g'.
  split; [exact Hrun|]. split; [exact Hm|]. split; [exact Hv|].
  split; [exact Hsm|]. split; [exact Hsv|]. exact Hformula.
Defined.

(** C4 on a batch of rank 3. *)
Lemma invalid_rank_raises_witness :
  length (nd.shape inputs.rank3) ≠ 2 ∧ length (nd.shape inputs.rank3) ≠ 4 ∧
  (run (batch_norm inputs.rank3 inputs.ga inputs.be inputs.momentum inputs.eps
          "bn1" true false) fresh_kernel).1
  = Raise (ValueError batch_norm_message).
Proof.
  assert (H2 : length (nd.shape inputs.rank3) ≠ 2) by (simpl; lia).
  assert (H4 : length (nd.shape inputs.rank3) ≠ 4) by (simpl; lia).
  split; [exact H2|]. split; [exact H4|].
  exact (proj1 (invalid_rank_raises inputs.rank3 inputs.ga inputs.be inputs.momentum
                  inputs.eps "bn1" true false fresh_kernel H2 H4)).
Defined.

(** C5, as amended, after one training-mode call under ["bn1"]: inference
    under ["bn1"] normalises with the statistics of [A], inference under
    ["bn2"] raises. *)
Lemma inference_uses_running_statistics_witness :
  valid_rank inputs.A' ∧
  (∃ out g',
     run (batch_norm inputs.A' inputs.ga inputs.be inputs.momentum inputs.eps
            "bn1" false false) inputs.trained = (Ok out, g') ∧
     nd.shape out = [3; 2] ∧ nd.wf out ∧
     ∀ idx, in_bounds idx [3; 2] →
       nd.get out idx
       = (nd.get inputs.ga [feature_of idx]
          * ((nd.get inputs.A' idx - spec_mean_at inputs.A (feature_of idx))
             / sqrt (spec_variance_at inputs.A (feature_of idx) + inputs.eps))
          + nd.get inputs.be [feature_of idx])%R) ∧
  (∃ e,
     run (batch_norm inputs.A' inputs.ga inputs.be inputs.momentum inputs.eps
            "bn2" false false) inputs.trained = (Raise e, inputs.trained) ∧
     missing_statistics "bn2" e).
Proof.
  assert (Hr : valid_rank inputs.A') by (left; reflexivity).
  destruct trained_normalizes as [Hnm Hnv].
  split; [exact Hr|]. split.
  - destruct (inference_uses_running_statistics inputs.A' inputs.ga inputs.be
                inputs.momentum inputs.eps "bn1" false inputs.trained Hr)
      as [Hentry _].
    destruct (Hentry (spec_batch_mean inputs.A) (spec_batch_variance inputs.A))
      as (out & g' & Hrun & Hshape & Hwf & Hget);
      [reflexivity | reflexivity
      | by rewrite trained_eq, store_update_mean
      | by rewrite trained_eq, store_update_var
      | exact Hnm | exact Hnv |].
    exists out, g'. split; [exact Hrun|]. split; [exact Hshape|].
    split; [exact Hwf|]. intros idx Hidx. rewrite (Hget idx Hidx).
    assert (Hf : feature_of idx < features inputs.A)
      by (by apply (feature_lt inputs.A' idx Hr)).
    change (width (spec_batch_mean inputs.A)) with 2.
    change (width (spec_batch_variance inputs.A)) with 2.
    change (broadcast_feature 2 (feature_of idx)) with (feature_of idx).
    by rewrite get_batch_mean, get_batch_variance.
  - destruct (inference_uses_running_statistics inputs.A' inputs.ga inputs.be
                inputs.momentum inputs.eps "bn2" false inputs.trained Hr)
      as [_ Hmissing].
    apply Hmissing. rewrite trained_eq. unfold running_mean. simpl.
    by rewrite lookup_insert_ne.
Defined.

(** C6, as amended, on [one_feature] and then [A] under ["bn1"] in a fresh
    kernel: the single stored scalar is broadcast against the two features of
    [A]. *)
Lemma two_training_calls_witness :
  ∃ out1 g1 out2 g2 rm rv,
    run (batch_norm inputs.one_feature inputs.ga1 inputs.be1 inputs.momentum
           inputs.eps "bn1" true false) fresh_kernel = (Ok out1, g1) ∧
    run (batch_norm inputs.A inputs.ga inputs.be inputs.momentum inputs.eps
           "bn1" true false) g1 = (Ok out2, g2) ∧
    running_mean g2 "bn1" = Some rm ∧ running_var g2 "bn1" = Some rv ∧
    nd.shape rm = [2] ∧ nd.shape rv = [2] ∧
    ∀ c, c < 2 →
      nd.get rm [c]
      = (spec_mean_at inputs.one_feature 0 * inputs.momentum
         + spec_mean_at inputs.A c * (1 - inputs.momentum))%R ∧
      nd.get rv [c]
      = (spec_variance_at inputs.one_feature 0 * inputs.momentum
         + spec_variance_at inputs.A c * (1 - inputs.momentum))%R.
Proof.
  destruct (two_training_calls inputs.one_feature inputs.A inputs.ga1 inputs.be1
              inputs.ga inputs.be inputs.momentum inputs.momentum inputs.eps
              inputs.eps "bn1" false false fresh_kernel
              (or_introl eq_refl) eq_refl eq_refl (or_introl eq_refl) eq_refl eq_refl
              (or_intror (or_introl eq_refl)) eq_refl eq_refl)
    as (out1 & g1 & out2 & g2 & rm & rv & Hrun1 & Hrun2 & Hm & Hv & Hsm & Hsv
        & Hget & _).
  exists out1, g1, out2, g2, rm, rv.
  split; [exact Hrun1|]. split; [exact Hrun2|]. split; [exact Hm|].
  split; [exact Hv|]. split; [exact Hsm|]. split; [exact Hsv|]. exact Hget.
Defined.

(** C7, as amended, on a batch whose first feature is constant: over the
    reals, where its variance is 0, and in binary32 with the default
    [eps = 1e-5], the divisors are positive, and [pure_batch_norm] and
    [batch_norm] return the same array. *)
Lemma normalization_divisor_positive_witness :
  spec_variance_at inputs.constant_feature 0 = 0%R ∧
  (0 < sqrt (spec_variance_at inputs.constant_feature 0 + inputs.eps))%R ∧
  Forall (λ d, (0 < d)%R)
         (nd.data (nd.sqrt (nd.plus_scalar
                              (spec_batch_variance inputs.constant_feature)
                              inputs.eps))) ∧
  ` inputs32.default_eps = SpecFloat.S754_finite false 10995116 (-40) ∧
  Forall (λ d, Is_true (float32.pos_or_nan d)) (nd.data inputs32.default_divisors) ∧
  inputs32.elements inputs32.default_divisors
  = [SpecFloat.S754_finite false 13581879 (-32);
     SpecFloat.S754_finite false 10273913 (-22)] ∧
  ∃ out,
    pure_batch_norm (H := float32.scalar) inputs32.constant_feature inputs32.ga
      inputs32.be inputs32.default_eps = Ok out ∧
    (run (batch_norm (H := float32.scalar) inputs32.constant_feature inputs32.ga
            inputs32.be inputs32.momentum inputs32.default_eps "bn1" true false)
       fresh_kernel).1 = Ok out.
Proof.
  assert (He : (0 < inputs.eps)%R) by (unfold inputs.eps; lra).
  destruct (normalization_divisor_positive (H0 := R_signs)
              inputs.constant_feature inputs.ga inputs.be inputs.momentum
              inputs.eps "bn1" false fresh_kernel (or_introl eq_refl) He)
    as (Hpos & _ & Hall & _).
  assert (He32 : Is_true (float32.pos_or_nan inputs32.default_eps)) by (by vm_compute).
  destruct (normalization_divisor_positive (H := float32.scalar) (H0 := float32.signs)
              inputs32.constant_feature inputs32.ga
              inputs32.be inputs32.momentum inputs32.default_eps "bn1" false
              fresh_kernel (or_introl eq_refl) He32)
    as (_ & _ & Hall32 & Hpure & Hstateful).
  split; [|split; [exact (proj1 (proj2 (Hpos 0))) | split; [exact Hall|]]].
  { unfold spec_variance_at, spec_mean_at, nd.total, nd.get. simpl. lra. }
  split; [by vm_compute|]. split; [exact Hall32|]. split; [by vm_compute|].
  eexists. split; [exact (Hpure eq_refl eq_refl)|].
  exact (Hstateful eq_refl eq_refl
           (fresh_kernel_broadcasts (H := float32.scalar) "bn1"
              inputs32.constant_feature)).
Defined.

(** C8: a call under ["bn2"] leaves the entry of ["bn1"] as it was. *)
Lemma other_scopes_unchanged_witness :
  running_mean
    (run (batch_norm inputs.A' inputs.ga inputs.be inputs.momentum inputs.eps
            "bn2" true false) inputs.trained).2 "bn1"
  = running_mean inputs.trained "bn1" ∧
  running_var
    (run (batch_norm inputs.A' inputs.ga inputs.be inputs.momentum inputs.eps
            "bn2" true false) inputs.trained).2 "bn1"
  = running_var inputs.trained "bn1" ∧
  NoDup net_scope_names.
Proof.
  apply other_scopes_unchanged; [|discriminate].
  rewrite trained_eq. exact I.
Defined.

(** C9, as amended, on the matrix [A] under an identifier whose entry holds a
    single scalar. *)
Lemma training_refines_pure_witness :
  valid_rank inputs.A ∧ entry_broadcasts inputs.trained_on_one "bn1" inputs.A ∧
  (run (batch_norm inputs.A inputs.ga inputs.be inputs.momentum inputs.eps
          "bn1" true false) inputs.trained_on_one).1
  = pure_batch_norm inputs.A inputs.ga inputs.be inputs.eps.
Proof.
  split; [left; reflexivity|]. split; [exact trained_on_one_broadcasts|].
  exact (training_refines_pure inputs.A inputs.ga inputs.be inputs.momentum
           inputs.eps "bn1" false inputs.trained_on_one (or_introl eq_refl)
           trained_on_one_broadcasts).
Defined.

(** C10 on a batch of rank 3 and a store that holds an entry. *)
Lemma invalid_rank_leaves_store_witness :
  run (batch_norm inputs.rank3 inputs.ga inputs.be inputs.momentum inputs.eps
         "bn1" false false) inputs.trained
  = (Raise (ValueError batch_norm_message), inputs.trained).
Proof.
  apply invalid_rank_leaves_store; simpl; lia.
Defined.

(** X2 after the first training-mode call under ["bn1"]. *)
Lemma store_fits_after_call_witness :
  store_fits inputs.trained "bn1" inputs.A' ∧
  is_Some (running_mean inputs.trained "bn1") ∧
  is_Some (running_var inputs.trained "bn1").
Proof.
  exact (store_fits_after_call inputs.A inputs.A' inputs.ga inputs.be inputs.momentum
           inputs.eps "bn1" true false fresh_kernel
           (or_introl eq_refl) eq_refl eq_refl (fresh_kernel_fits "bn1" inputs.A)
           (or_introl eq_refl) eq_refl).
Defined.

(** [ga] is all ones and [be] all zeros. *)
Lemma unit_gamma_zero_beta (c : nat) :
  c < features inputs.A →
  nd.get inputs.ga [c] = 1%R ∧ nd.get inputs.be [c] = 0%R.
Proof.
  intros Hc. destruct c as [|[|c]]; [by split | by split |].
  unfold features in Hc. simpl in Hc. lia.
Defined.


(** X4 on the matrix [A] with [ga] and [be]. *)
Lemma normalized_moments_witness :
  ∃ out g',
    run (batch_norm inputs.A inputs.ga inputs.be inputs.momentum inputs.eps
           "bn1" true false) fresh_kernel = (Ok out, g') ∧
    ∀ c, c < 2 →
      (nd.total (map (nd.get out) (reduced_indices (nd.shape inputs.A) c)) / INR 3)%R
      = 0%R ∧
      (nd.total (map (λ idx, (nd.get out idx ^ 2)%R)
                     (reduced_indices (nd.shape inputs.A) c)) / INR 3)%R
      = (spec_variance_at inputs.A c / (spec_variance_at inputs.A c + inputs.eps))%R.
Proof.
  assert (He : (0 < inputs.eps)%R) by (unfold inputs.eps; lra).
  assert (Hn : 0 < reduced_elements (nd.shape inputs.A)) by (simpl; lia).
  exact (normalized_moments inputs.A inputs.ga inputs.be inputs.momentum inputs.eps
           "bn1" false fresh_kernel
           (or_introl eq_refl) eq_refl eq_refl (fresh_kernel_fits "bn1" inputs.A)
           He Hn unit_gamma_zero_beta).
Defined.

(** * The rest of the notebook *)

(** ** More on [batch_norm] *)

Ltac py_run := cbn [run mbind Py_bind lift mret Py_ret raise load_MEANS load_VARS].

Section more_batch_norm.
Context {F : Type} `{Scalar F}.

#[local] Abbreviation NDArray := (nd.NDArray F).

Lemma broadcast_shape_mismatch k c :
  k ≠ c → k ≠ 1 → c ≠ 1 → nd.broadcast_shape [k] [c] = None.
Proof.
  intros Hkc Hk Hc. unfold nd.broadcast_shape, nd.pad_left. simpl.
  unfold nd.broadcast_dim.
  destruct (Nat.eqb_spec k c); [done|].
  destruct (Nat.eqb_spec k 1); [done|].
  by destruct (Nat.eqb_spec c 1).
Qed.

Lemma broadcast_shape_rows_mismatch N c k :
  k ≠ c → k ≠ 1 → c ≠ 1 → nd.broadcast_shape [N; c] [k] = None.
Proof.
  intros Hkc Hk Hc. unfold nd.broadcast_shape, nd.pad_left. simpl.
  rewrite broadcast_dim_1_r. unfold nd.broadcast_dim.
  destruct (Nat.eqb_spec c k); [done|].
  destruct (Nat.eqb_spec c 1); [done|].
  by destruct (Nat.eqb_spec k 1).
Qed.

Lemma keep_statistics_mismatch (mean variance rm : NDArray) (momentum : F) s g k c :
  bound_together g → running_mean g s = Some rm →
  nd.shape rm = [k] → nd.shape mean = [c] → k ≠ c → k ≠ 1 → c ≠ 1 →
  run (to_keep_the_moving_statistics mean variance momentum s) g
  = (Raise (MXNetError "operands could not be broadcast together"), g).
Proof.
  intros Hbt Hrm Hk Hc Hkc Hk1 Hc1.
  destruct g as [[m|] [v|]]; try done. unfold running_mean in Hrm. simpl in Hrm.
  unfold to_keep_the_moving_statistics, contains, getitem.
  assert (Hfail : nd.broadcast_add (nd.mul_scalar rm momentum)
                                   (nd.mul_scalar mean (fone - momentum)%sc)
                  = Raise (MXNetError "operands could not be broadcast together")).
  { unfold nd.broadcast_add, nd.broadcast. simpl nd.shape. rewrite Hk, Hc.
    by rewrite broadcast_shape_mismatch. }
  cbn -[nd.broadcast_add]. rewrite Hrm. cbn -[nd.broadcast_add].
  rewrite Hrm. cbn -[nd.broadcast_add]. by rewrite Hfail.
Qed.

(** X8.  A call under an identifier whose stored mean holds [k] scalars, on
    a batch with another number of features (neither number being 1, which
    would broadcast), raises in either mode and leaves the store as it was.
    In training mode, and on a batch of rank 2, the exception is the
    [MXNetError] of the operands that do not broadcast. *)
Theorem mismatched_entry_raises (X gamma beta : NDArray) (momentum eps : F) s tr dbg g
    rm k :
  valid_rank X → per_feature X gamma → per_feature X beta →
  bound_together g → running_mean g s = Some rm → nd.shape rm = [k] →
  k ≠ features X → k ≠ 1 → features X ≠ 1 →
  ∃ e,
    run (batch_norm X gamma beta momentum eps s tr dbg) g = (Raise e, g) ∧
    (tr = true ∨ length (nd.shape X) = 2 →
     e = MXNetError "operands could not be broadcast together").
Proof.
  intros Hr Hg Hb Hbt Hrm Hk Hkc Hk1 Hc1. unfold batch_norm. destruct tr.
  - eexists. split; [|reflexivity].
    rewrite run_bind, transformation_training by done.
    rewrite run_bind.
    by rewrite (keep_statistics_mismatch _ _ rm momentum s g k (features X)).
  - rewrite run_bind.
    destruct g as [[m|] [v|]]; try done. unfold running_mean in Hrm. simpl in Hrm.
    destruct (valid_rank_cases X Hr) as [(N & Fe & HX)|(N & C & H' & W & HX)].
    + assert (HFe : features X = Fe) by (unfold features; by rewrite HX).
      eexists. split; [|reflexivity].
      unfold the_usual_batch_norm_transformation, rank_not_in_2_4. rewrite HX.
      simpl negb. cbv iota. simpl Nat.eqb. cbv iota.
      rewrite (batch_mean_dense X N Fe HX).
      rewrite (centered_dense X _ N Fe HX (per_feature_mean X)).
      py_run. simpl _BN_MOVING_MEANS. cbv iota. py_run.
      unfold getitem. rewrite Hrm. py_run.
      unfold nd.broadcast_sub, nd.broadcast. rewrite HX, Hk.
      rewrite broadcast_shape_rows_mismatch by lia. py_run. reflexivity.
    + assert (HC : features X = C) by (unfold features; by rewrite HX).
      pose proof (x_hat_conv X _ _ eps N C H' W HX (per_feature_mean X)
                    (per_feature_variance X) (wf_tabulate _ _)) as Hx0.
      eexists. split; [|intros [Ht|Hl]; [discriminate Ht | rewrite HX in Hl; discriminate Hl]].
      unfold the_usual_batch_norm_transformation, rank_not_in_2_4. rewrite HX.
      simpl negb. cbv iota. simpl Nat.eqb. cbv iota.
      rewrite (batch_mean_conv X N C H' W HX).
      rewrite (reshape_channels (spec_batch_mean X) C)
        by (unfold spec_batch_mean; by rewrite HC).
      py_run.
      rewrite (centered_conv X _ N C H' W HX (per_feature_mean X)).
      py_run.
      rewrite (batch_variance_conv X N C H' W HX).
      rewrite (reshape_channels (spec_batch_variance X) C)
        by (unfold spec_batch_variance; by rewrite HC).
      py_run.
      rewrite (reshape_channels (spec_batch_mean X) C) in Hx0
        by (unfold spec_batch_mean; by rewrite HC).
      cbn [mbind result_bind] in Hx0.
      rewrite (centered_conv X _ N C H' W HX (per_feature_mean X)) in Hx0.
      cbn [mbind result_bind] in Hx0.
      rewrite (reshape_channels (spec_batch_variance X) C) in Hx0
        by (unfold spec_batch_variance; by rewrite HC).
      cbn [mbind result_bind] in Hx0. rewrite Hx0. py_run.
      simpl _BN_MOVING_MEANS. cbv iota. py_run.
      unfold getitem. rewrite Hrm. py_run.
      unfold nd.reshape. rewrite Hk.
      replace (size [1; C; 1; 1] =? size [k]) with false
        by (symmetry; apply Nat.eqb_neq; simpl; lia).
      py_run. reflexivity.
Qed.

End more_batch_norm.

(** *** A per-feature shift of the batch, over the reals *)

Lemma total_shifted {A : Type} (f : A → R) (a : R) (l : list A) :
  nd.total (map (λ x, (f x + a)%R) l)
  = (nd.total (map f l) + INR (length l) * a)%R.
Proof.
  induction l as [|x l IH].
  - simpl. rewrite total_nil. lra.
  - cbn [map length]. rewrite !total_cons, IH, S_INR. lra.
Qed.

Lemma reduced_elements_pos (X : nd.NDArray R) idx :
  valid_rank X → in_bounds idx (nd.shape X) → 0 < reduced_elements (nd.shape X).
Proof.
  intros Hr Hb.
  destruct (valid_rank_cases X Hr) as [(N & Fe & HX)|(N & C & H' & W & HX)];
    rewrite HX in *; simpl.
  - inversion Hb; subst. lia.
  - inversion Hb as [|? ? ? ? ? Hb1]; subst.
    inversion Hb1 as [|? ? ? ? ? Hb2]; subst.
    inversion Hb2 as [|? ? ? ? ? Hb3]; subst.
    inversion Hb3; subst.
    destruct N; [lia|]. destruct H'; [lia|]. destruct W; [lia|]. simpl. lia.
Qed.

Section shifted.
Variables (X X' : nd.NDArray R) (shift : nat → R).
Hypothesis same_shape : nd.shape X' = nd.shape X.
Hypothesis shifted :
  ∀ idx, in_bounds idx (nd.shape X) →
         nd.get X' idx = (nd.get X idx + shift (feature_of idx))%R.

Lemma mean_shifted c :
  c < features X → 0 < reduced_elements (nd.shape X) →
  spec_mean_at X' c = (spec_mean_at X c + shift c)%R.
Proof.
  intros Hc Hn. unfold spec_mean_at. rewrite same_shape.
  rewrite (map_ext_in (nd.get X') (λ idx, (nd.get X idx + shift c)%R)).
  - rewrite total_shifted, length_reduced_indices.
    assert (0 < INR (reduced_elements (nd.shape X)))%R by (apply lt_0_INR; lia).
    simpl. field. lra.
  - intros idx Hin. destruct (reduced_indices_spec _ _ _ Hc Hin) as [Hb Hf].
    rewrite shifted by done. by rewrite Hf.
Qed.

Lemma variance_shifted c :
  c < features X → 0 < reduced_elements (nd.shape X) →
  spec_variance_at X' c = spec_variance_at X c.
Proof.
  intros Hc Hn. unfold spec_variance_at. rewrite same_shape.
  f_equal. f_equal. apply map_ext_in.
  intros idx Hin. destruct (reduced_indices_spec _ _ _ Hc Hin) as [Hb Hf].
  rewrite shifted, mean_shifted by done. rewrite Hf. simpl. f_equal; lra.
Qed.

Lemma normalize_shifted (gamma beta : nd.NDArray R) (eps : R) :
  valid_rank X →
  spec_normalize X' gamma beta eps (spec_batch_mean X') (spec_batch_variance X')
  = spec_normalize X gamma beta eps (spec_batch_mean X) (spec_batch_variance X).
Proof.
  intros Hr.
  assert (Hr' : valid_rank X') by (unfold valid_rank; by rewrite same_shape).
  apply ndarray_ext; [apply wf_tabulate | apply wf_tabulate | exact same_shape |].
  intros idx Hidx. change (in_bounds idx (nd.shape X')) in Hidx.
  rewrite get_normalized_batch by done.
  rewrite same_shape in Hidx.
  rewrite get_normalized_batch by done.
  pose proof (feature_lt X idx Hr Hidx) as Hc.
  pose proof (reduced_elements_pos X idx Hr Hidx) as Hn.
  rewrite shifted, mean_shifted, variance_shifted by done.
  simpl. f_equal. f_equal. f_equal. lra.
Qed.

End shifted.

(** X9.  Over the reals, in training mode: adding a constant per feature to
    the batch leaves the output as it is; the batch mean moves by the
    constant and the batch variance stays. *)
Theorem training_output_ignores_shift (X X' gamma beta : nd.NDArray R) (shift : nat → R)
    (momentum eps : R) s dbg g :
  valid_rank X → nd.shape X' = nd.shape X →
  per_feature X gamma → per_feature X beta → entry_fits g s X →
  (∀ idx, in_bounds idx (nd.shape X) →
          nd.get X' idx = (nd.get X idx + shift (feature_of idx))%R) →
  (run (batch_norm X' gamma beta momentum eps s true dbg) g).1
  = (run (batch_norm X gamma beta momentum eps s true dbg) g).1 ∧
  ∃ out, (run (batch_norm X gamma beta momentum eps s true dbg) g).1 = Ok out ∧
  ∀ c, c < features X → 0 < reduced_elements (nd.shape X) →
       spec_mean_at X' c = (spec_mean_at X c + shift c)%R ∧
       spec_variance_at X' c = spec_variance_at X c.
Proof.
  intros Hr Hsh Hg Hb Hs Hshift.
  assert (Hf : features X' = features X) by (unfold features; by rewrite Hsh).
  assert (Hr' : valid_rank X') by (unfold valid_rank; by rewrite Hsh).
  destruct (batch_norm_training_returns X gamma beta momentum eps s dbg g Hr Hg Hb Hs)
    as [g1 Hrun].
  destruct (batch_norm_training_returns X' gamma beta momentum eps s dbg g) as [g2 Hrun'];
    try done.
  { unfold per_feature. by rewrite Hf. }
  { unfold per_feature. by rewrite Hf. }
  { destruct Hs as [Hm Hv]. unfold entry_fits, fits, per_feature in *.
    rewrite Hf. by split. }
  rewrite Hrun, Hrun'. cbn [fst].
  split; [by rewrite (normalize_shifted X X' shift)|].
  eexists. split; [reflexivity|].
  intros c Hc Hn. split.
  - by apply mean_shifted.
  - by apply (variance_shifted X X' shift).
Qed.

(** ** Any number of training-mode calls *)

Section many_calls.
Context {F : Type} `{Scalar F}.

#[local] Abbreviation NDArray := (nd.NDArray F).

Lemma successive_calls_run (calls : list (NDArray * NDArray * NDArray))
    (momentum eps : F) s c :
  Forall (call_with c) calls →
  ∀ g rm rv,
    bound_together g →
    running_mean g s = Some rm → running_var g s = Some rv →
    nd.shape rm = [c] → nd.wf rm → nd.shape rv = [c] → nd.wf rv →
    ∃ g',
      run (successive_calls calls momentum eps s) g = (Ok tt, g') ∧
      bound_together g' ∧
      running_mean g' s
      = Some (moving_average rm (map (λ call, spec_batch_mean call.1.1) calls) momentum) ∧
      running_var g' s
      = Some (moving_average rv (map (λ call, spec_batch_variance call.1.1) calls)
                momentum).
Proof.
  intros Hall. induction Hall as [|[[X gamma] beta] rest (Hr & Hf & Hg & Hb) Hall IH];
    intros g rm rv Hbt Hrm Hrv Hsm Hwm Hsv Hwv.
  - exists g. by repeat split.
  - assert (Hfit : store_fits g s X).
    { split; [done|]. split; intros r Hr'; unfold per_feature; rewrite Hf;
        [rewrite Hrm in Hr' | rewrite Hrv in Hr']; by injection Hr' as <-. }
    assert (Hpg : per_feature X gamma) by (unfold per_feature; by rewrite Hf).
    assert (Hpb : per_feature X beta) by (unfold per_feature; by rewrite Hf).
    pose proof (batch_norm_training_run X gamma beta momentum eps s false g Hr Hpg Hpb
                  Hfit) as Hrun.
    set (g1 := spec_store_update g s _ _ momentum) in *.
    destruct (IH g1 (spec_decay rm (spec_batch_mean X) momentum)
                 (spec_decay rv (spec_batch_variance X) momentum))
      as (g' & Hrest & Hbt' & Hm' & Hv').
    + apply store_update_bound.
    + unfold g1. by rewrite store_update_mean, Hrm.
    + unfold g1. by rewrite store_update_var, Hrv.
    + unfold spec_decay, spec_batch_mean. simpl. by rewrite Hf.
    + apply wf_tabulate.
    + unfold spec_decay, spec_batch_variance. simpl. by rewrite Hf.
    + apply wf_tabulate.
    + exists g'. split; [|by repeat split].
      cbn [successive_calls]. rewrite run_bind, Hrun. exact Hrest.
Qed.

(** X10.  Any number of training-mode calls under an identifier that had no
    entry: the first call stores its batch statistics and every later call
    folds its own in, so that the entry is the exponential moving average of
    the batch statistics in the order of the calls. *)
Theorem running_statistics_after_many_calls (X gamma beta : NDArray)
    (later : list (NDArray * NDArray * NDArray)) (momentum eps : F) s g :
  Forall (call_with (features X)) ((X, gamma, beta) :: later) →
  bound_together g → running_mean g s = None → running_var g s = None →
  ∃ g',
    run (successive_calls ((X, gamma, beta) :: later) momentum eps s) g = (Ok tt, g') ∧
    running_mean g' s
    = Some (moving_average (spec_batch_mean X)
              (map (λ call, spec_batch_mean call.1.1) later) momentum) ∧
    running_var g' s
    = Some (moving_average (spec_batch_variance X)
              (map (λ call, spec_batch_variance call.1.1) later) momentum).
Proof.
  intros Hall Hbt Hm Hv. inversion Hall as [|? ? Hcall Hlater]; subst.
  simpl in Hcall. destruct Hcall as (Hr & _ & Hg & Hb).
  assert (Hfit : store_fits g s X).
  { split; [done|]. split; intros r Hr'; congruence. }
  pose proof (batch_norm_training_run X gamma beta momentum eps s false g Hr Hg Hb Hfit)
    as Hrun.
  set (g1 := spec_store_update g s _ _ momentum) in *.
  destruct (successive_calls_run later momentum eps s (features X) Hlater g1
              (spec_batch_mean X) (spec_batch_variance X))
    as (g' & Hrest & _ & Hm' & Hv'); try done; try apply wf_tabulate.
  - unfold g1. by rewrite store_update_mean, Hm.
  - unfold g1. by rewrite store_update_var, Hv.
  - exists g'. split; [|by split].
    cbn [successive_calls]. by rewrite run_bind, Hrun.
Qed.

End many_calls.

(** ** The layers of [net] *)

Section layer_facts.
Context {F : Type} `{Elementary F}.

#[local] Abbreviation NDArray := (nd.NDArray F).

Lemma in_bounds_4 n c i j N C H' W :
  in_bounds [n; c; i; j] [N; C; H'; W] ↔ n < N ∧ c < C ∧ i < H' ∧ j < W.
Proof.
  split.
  - intros Hb. inversion Hb as [|? ? ? ? ? Hb1]; subst.
    inversion Hb1 as [|? ? ? ? ? Hb2]; subst.
    inversion Hb2 as [|? ? ? ? ? Hb3]; subst.
    by inversion Hb3; subst.
  - intros (? & ? & ? & ?). by repeat constructor.
Qed.

Lemma in_bounds_2 i j N K : in_bounds [i; j] [N; K] ↔ i < N ∧ j < K.
Proof.
  split.
  - intros Hb. inversion Hb as [|? ? ? ? ? Hb1]; subst. by inversion Hb1; subst.
  - intros (? & ?). by repeat constructor.
Qed.

(** [nd.Convolution] on arguments whose shapes agree. *)
Lemma Convolution_returns (data weight bias : NDArray) kh kw nf N C H' W :
  nd.shape data = [N; C; H'; W] → nd.shape weight = [nf; C; kh; kw] →
  nd.shape bias = [nf] → 0 < kh ≤ H' → 0 < kw ≤ W →
  ∃ out,
    ndarray.Convolution data weight bias (kh, kw) nf = Ok out ∧
    nd.shape out = [N; nf; H' - kh + 1; W - kw + 1] ∧ nd.wf out ∧
    ∀ n f i j, in_bounds [n; f; i; j] (nd.shape out) →
      nd.get out [n; f; i; j]
      = (nd.total
           (flat_map (λ c,
              flat_map (λ di,
                map (λ dj, (nd.get data [n; c; (i + di)%nat; (j + dj)%nat]
                            * nd.get weight [f; c; di; dj])%sc)
                    (seq 0 kw))
                (seq 0 kh))
              (seq 0 C))
         + nd.get bias [f])%sc.
Proof.
  intros Hd Hw Hb Hkh Hkw. unfold ndarray.Convolution. rewrite Hd.
  rewrite bool_decide_eq_true_2 by done.
  eexists. split; [reflexivity|]. split; [reflexivity|].
  split; [apply wf_tabulate|].
  intros n f i j Hidx. by rewrite get_tabulate.
Qed.

(** [nd.Pooling] with a window that fits. *)
Lemma Pooling_returns (data : NDArray) kh kw sh sw N C H' W :
  nd.shape data = [N; C; H'; W] → 0 < kh ≤ H' → 0 < kw ≤ W → 0 < sh → 0 < sw →
  ∃ out,
    ndarray.Pooling data (kh, kw) (sh, sw) = Ok out ∧
    nd.shape out = [N; C; 1 + (H' - kh) / sh; 1 + (W - kw) / sw] ∧ nd.wf out.
Proof.
  intros Hd Hkh Hkw Hsh Hsw. unfold ndarray.Pooling. rewrite Hd.
  rewrite bool_decide_eq_true_2 by done.
  eexists. split; [reflexivity|]. split; [reflexivity | apply wf_tabulate].
Qed.

Lemma size_pos_wf_flatten (A : NDArray) d sh :
  nd.shape A = d :: sh → nd.wf A →
  nd.shape (ndarray.flatten A) = [d; size sh] ∧ nd.wf (ndarray.flatten A).
Proof.
  intros Hs Hwf. unfold ndarray.flatten. rewrite Hs. split; [done|].
  unfold nd.wf in *. simpl. rewrite Hwf, Hs. simpl. lia.
Qed.

(** [nd.dot] of two matrices. *)
Lemma dot_returns (A B : NDArray) N K M :
  nd.shape A = [N; K] → nd.shape B = [K; M] →
  ∃ out,
    ndarray.dot A B = Ok out ∧ nd.shape out = [N; M] ∧ nd.wf out ∧
    ∀ i j, in_bounds [i; j] [N; M] →
      nd.get out [i; j]
      = nd.total (map (λ k, (nd.get A [i; k] * nd.get B [k; j])%sc) (seq 0 K)).
Proof.
  intros Ha Hb. unfold ndarray.dot. rewrite Ha, Hb.
  rewrite bool_decide_eq_true_2 by done.
  eexists. split; [reflexivity|]. split; [reflexivity|].
  split; [apply wf_tabulate|].
  intros i j Hidx. by rewrite get_tabulate.
Qed.

Lemma shape_relu (X : NDArray) : nd.shape (relu X) = nd.shape X.
Proof. reflexivity. Qed.

Lemma wf_relu (X : NDArray) : nd.wf X → nd.wf (relu X).
Proof. apply wf_map_nd. Qed.

End layer_facts.

Section store_facts.
Context {F : Type} `{Scalar F}.

#[local] Abbreviation NDArray := (nd.NDArray F).

Lemma store_update_mean_ne (g : globals F) s s' (mean variance : NDArray) momentum :
  s' ≠ s →
  running_mean (spec_store_update g s mean variance momentum) s' = running_mean g s'.
Proof.
  intros Hs. unfold running_mean. simpl. rewrite lookup_insert_ne by done.
  by destruct (_BN_MOVING_MEANS g).
Qed.

Lemma store_update_var_ne (g : globals F) s s' (mean variance : NDArray) momentum :
  s' ≠ s →
  running_var (spec_store_update g s mean variance momentum) s' = running_var g s'.
Proof.
  intros Hs. unfold running_var. simpl. rewrite lookup_insert_ne by done.
  by destruct (_BN_MOVING_VARS g).
Qed.

Lemma shape_spec_updated (o : option NDArray) (stat : NDArray) momentum :
  nd.shape (spec_updated o stat momentum) = nd.shape stat.
Proof. by destruct o. Qed.

Lemma wf_spec_updated (o : option NDArray) (stat : NDArray) momentum :
  nd.wf stat → nd.wf (spec_updated o stat momentum).
Proof. destruct o; [intros _; apply wf_tabulate | done]. Qed.

Lemma holds_entry_fits (g : globals F) s (X : NDArray) :
  holds g s (features X) → entry_fits g s X.
Proof. intros [Hm Hv]. split; intros r Hr; [by apply Hm | by apply Hv]. Qed.

Lemma holds_update (g : globals F) s s' c (mean variance : NDArray) momentum :
  (s' = s → nd.shape mean = [c] ∧ nd.shape variance = [c] ∧
            nd.wf mean ∧ nd.wf variance) →
  (s' ≠ s → holds g s' c) →
  holds (spec_store_update g s mean variance momentum) s' c.
Proof.
  intros Hsame Hother. destruct (decide (s' = s)) as [->|Hne].
  - destruct (Hsame eq_refl) as (Hm & Hv & Hwm & Hwv).
    split; intros r Hr;
      [rewrite store_update_mean in Hr | rewrite store_update_var in Hr];
      injection Hr as <-; rewrite shape_spec_updated;
      (split; [done | by apply wf_spec_updated]).
  - destruct (Hother Hne) as [Hm Hv].
    split; intros r Hr;
      [rewrite store_update_mean_ne in Hr by done; by apply Hm
      |rewrite store_update_var_ne in Hr by done; by apply Hv].
Qed.

Lemma is_Some_update_mean (g : globals F) s s' (mean variance : NDArray) momentum :
  s' = s ∨ is_Some (running_mean g s') →
  is_Some (running_mean (spec_store_update g s mean variance momentum) s').
Proof.
  intros Hs. destruct (decide (s' = s)) as [->|Hne].
  - by rewrite store_update_mean.
  - rewrite store_update_mean_ne by done. by destruct Hs.
Qed.

Lemma is_Some_update_var (g : globals F) s s' (mean variance : NDArray) momentum :
  s' = s ∨ is_Some (running_var g s') →
  is_Some (running_var (spec_store_update g s mean variance momentum) s').
Proof.
  intros Hs. destruct (decide (s' = s)) as [->|Hne].
  - by rewrite store_update_var.
  - rewrite store_update_var_ne by done. by destruct Hs.
Qed.

(** A call that gets past the lookup of the stored statistics returns an
    array of the shape of its input. *)
Lemma batch_norm_returns (X gamma beta : NDArray) (momentum eps : F) s tr dbg g :
  valid_rank X → per_feature X gamma → per_feature X beta →
  bound_together g → holds g s (features X) →
  tr = true ∨ (is_Some (running_mean g s) ∧ is_Some (running_var g s)) →
  ∃ out,
    run (batch_norm X gamma beta momentum eps s tr dbg) g
    = (Ok out, spec_store_update g s (spec_batch_mean X) (spec_batch_variance X)
                 momentum) ∧
    nd.shape out = nd.shape X ∧ nd.wf out ∧
    (tr = true →
     out = spec_normalize X gamma beta eps (spec_batch_mean X) (spec_batch_variance X)).
Proof.
  intros Hr Hg Hb Hbt Hh Hmode.
  assert (Hs : store_fits g s X) by (split; [done | by apply holds_entry_fits]).
  destruct tr.
  - eexists. split; [by apply batch_norm_training_run|].
    split; [reflexivity|]. split; [apply wf_tabulate | done].
  - destruct Hmode as [|[[rm Hrm] [rv Hrv]]]; [done|].
    eexists. split; [by apply (batch_norm_inference_run _ _ _ _ _ _ _ _ rm rv)|].
    split; [reflexivity|]. split; [apply wf_tabulate | done].
Qed.

End store_facts.

Section net_facts.
Context {F : Type} `{Elementary F}.

#[local] Abbreviation NDArray := (nd.NDArray F).

Lemma ready_update (g : globals F) s c (mean variance : NDArray) momentum :
  ready_for_net g → In (s, c) [("bn1", 20); ("bn2", 50); ("bn3", 128)] →
  nd.shape mean = [c] → nd.shape variance = [c] → nd.wf mean → nd.wf variance →
  ready_for_net (spec_store_update g s mean variance momentum).
Proof.
  intros (Hbt & H1 & H2 & H3) Hin Hm Hv Hwm Hwv.
  split; [apply store_update_bound|].
  simpl in Hin.
  destruct Hin as [[= <- <-]|[[= <- <-]|[[= <- <-]|[]]]];
    refine (conj _ (conj _ _)); apply holds_update; intros Hs;
    first [ discriminate Hs | done | by destruct Hs ].
Qed.

Lemma mode_update (g : globals F) tr s (mean variance : NDArray) momentum :
  tr = true ∨ trained_net g →
  tr = true ∨ trained_net (spec_store_update g s mean variance momentum).
Proof.
  intros [?|Ht]; [by left | right].
  intros s' Hs'. destruct (Ht s' Hs').
  split; [apply is_Some_update_mean | apply is_Some_update_var]; by right.
Qed.

Lemma mode_entry (g : globals F) tr s :
  In s net_scope_names → tr = true ∨ trained_net g →
  tr = true ∨ (is_Some (running_mean g s) ∧ is_Some (running_var g s)).
Proof. intros Hs [?|Ht]; [by left | right; by apply Ht]. Qed.

(** The first convolutional layer: from [(N, 1, 28, 28)] to
    [(N, 20, 13, 13)]. *)
Lemma first_layer_returns (P : parameters F) (X : NDArray) tr g N :
  cell9_shapes P → nd.shape X = [N; 1; 28; 28] →
  ready_for_net g → tr = true ∨ trained_net g →
  ∃ h1_conv h1_normed h1,
    ndarray.Convolution X (W1 P) (b1 P) (3, 3) 20 = Ok h1_conv ∧
    nd.shape h1_conv = [N; 20; 26; 26] ∧
    (tr = true →
     h1_normed = spec_normalize h1_conv (gamma1 P) (beta1 P) default_eps
                   (spec_batch_mean h1_conv) (spec_batch_variance h1_conv)) ∧
    ndarray.Pooling (relu h1_normed) (2, 2) (2, 2) = Ok h1 ∧
    run (the_first_convolutional_layer P X tr) g
    = (Ok h1, spec_store_update g "bn1" (spec_batch_mean h1_conv)
                (spec_batch_variance h1_conv) default_momentum) ∧
    nd.shape h1 = [N; 20; 13; 13] ∧ nd.wf h1.
Proof.
  intros HP HX (Hbt & Hh1 & _) Hmode.
  destruct HP as (HW1 & Hb1 & Hg1 & Hbe1 & _).
  destruct (Convolution_returns X (W1 P) (b1 P) 3 3 20 N 1 28 28)
    as (c & Hc & Hsc & Hwc & _); try done; try lia.
  change [N; 20; 28 - 3 + 1; 28 - 3 + 1] with [N; 20; 26; 26] in Hsc.
  assert (Hf : features c = 20) by (unfold features; by rewrite Hsc).
  destruct (batch_norm_returns c (gamma1 P) (beta1 P) default_momentum default_eps
              "bn1" tr false g) as (n & Hn & Hsn & Hwn & Hval);
    try (unfold per_feature; by rewrite Hf).
  { right. by rewrite Hsc. }
  { done. }
  { apply mode_entry; [|done]. simpl. auto. }
  destruct (Pooling_returns (relu n) 2 2 2 2 N 20 26 26)
    as (p & Hp & Hsp & Hwp); try lia.
  { by rewrite shape_relu, Hsn. }
  change [N; 20; 1 + (26 - 2) / 2; 1 + (26 - 2) / 2] with [N; 20; 13; 13] in Hsp.
  exists c, n, p. repeat split; try done.
  unfold the_first_convolutional_layer.
  rewrite run_bind. cbn [run lift]. rewrite Hc.
  rewrite run_bind, Hn. cbn [run lift]. by rewrite Hp.
Qed.

(** The second convolutional layer: from [(N, 20, 13, 13)] to
    [(N, 50, 4, 4)]. *)
Lemma second_layer_returns (P : parameters F) (h1 : NDArray) tr g N :
  cell9_shapes P → nd.shape h1 = [N; 20; 13; 13] →
  ready_for_net g → tr = true ∨ trained_net g →
  ∃ h2_conv h2_normed h2,
    ndarray.Convolution h1 (W2 P) (b2 P) (5, 5) 50 = Ok h2_conv ∧
    nd.shape h2_conv = [N; 50; 9; 9] ∧
    (tr = true →
     h2_normed = spec_normalize h2_conv (gamma2 P) (beta2 P) default_eps
                   (spec_batch_mean h2_conv) (spec_batch_variance h2_conv)) ∧
    ndarray.Pooling (relu h2_normed) (2, 2) (2, 2) = Ok h2 ∧
    run (the_second_convolutional_layer P h1 tr) g
    = (Ok h2, spec_store_update g "bn2" (spec_batch_mean h2_conv)
                (spec_batch_variance h2_conv) default_momentum) ∧
    nd.shape h2 = [N; 50; 4; 4] ∧ nd.wf h2.
Proof.
  intros HP HX (Hbt & _ & Hh2 & _) Hmode.
  destruct HP as (_ & _ & _ & _ & HW2 & Hb2 & Hg2 & Hbe2 & _).
  destruct (Convolution_returns h1 (W2 P) (b2 P) 5 5 50 N 20 13 13)
    as (c & Hc & Hsc & Hwc & _); try done; try lia.
  change [N; 50; 13 - 5 + 1; 13 - 5 + 1] with [N; 50; 9; 9] in Hsc.
  assert (Hf : features c = 50) by (unfold features; by rewrite Hsc).
  destruct (batch_norm_returns c (gamma2 P) (beta2 P) default_momentum default_eps
              "bn2" tr false g) as (n & Hn & Hsn & Hwn & Hval);
    try (unfold per_feature; by rewrite Hf).
  { right. by rewrite Hsc. }
  { done. }
  { apply mode_entry; [|done]. simpl. auto. }
  destruct (Pooling_returns (relu n) 2 2 2 2 N 50 9 9)
    as (p & Hp & Hsp & Hwp); try lia.
  { by rewrite shape_relu, Hsn. }
  change [N; 50; 1 + (9 - 2) / 2; 1 + (9 - 2) / 2] with [N; 50; 4; 4] in Hsp.
  exists c, n, p. repeat split; try done.
  unfold the_second_convolutional_layer.
  rewrite run_bind. cbn [run lift]. rewrite Hc.
  rewrite run_bind, Hn. cbn [run lift]. by rewrite Hp.
Qed.

(** The third layer: from [(N, 800)] to [(N, 128)]. *)
Lemma third_layer_returns (P : parameters F) (h2 : NDArray) tr g N :
  cell9_shapes P → nd.shape h2 = [N; 800] →
  ready_for_net g → tr = true ∨ trained_net g →
  ∃ product h3_linear h3_normed,
    ndarray.dot h2 (W3 P) = Ok product ∧
    nd.broadcast_add product (b3 P) = Ok h3_linear ∧
    nd.shape h3_linear = [N; 128] ∧
    (∀ idx, in_bounds idx [N; 128] →
       nd.get h3_linear idx
       = (nd.get product idx + nd.get (b3 P) [feature_of idx])%sc) ∧
    (tr = true →
     h3_normed = spec_normalize h3_linear (gamma3 P) (beta3 P) default_eps
                   (spec_batch_mean h3_linear) (spec_batch_variance h3_linear)) ∧
    run (the_third_layer P h2 tr) g
    = (Ok (relu h3_normed),
       spec_store_update g "bn3" (spec_batch_mean h3_linear)
         (spec_batch_variance h3_linear) default_momentum) ∧
    nd.shape (relu h3_normed) = [N; 128] ∧ nd.wf (relu h3_normed).
Proof.
  intros HP HX (Hbt & _ & _ & Hh3) Hmode.
  destruct HP as (_ & _ & _ & _ & _ & _ & _ & _ & HW3 & Hb3 & Hg3 & Hbe3 & _).
  destruct (dot_returns h2 (W3 P) N 800 128) as (d & Hd & Hsd & Hwd & _); try done.
  pose proof (broadcast_rows fadd d (b3 P) N 128 Hsd Hb3) as Hadd.
  set (l := nd.tabulate [N; 128]
              (λ idx, (nd.get d idx + nd.get (b3 P) [feature_of idx])%sc)) in *.
  assert (Hf : features l = 128) by reflexivity.
  destruct (batch_norm_returns l (gamma3 P) (beta3 P) default_momentum default_eps
              "bn3" tr false g) as (n & Hn & Hsn & Hwn & Hval);
    try (unfold per_feature; by rewrite Hf).
  { by left. }
  { done. }
  { apply mode_entry; [|done]. simpl. auto. }
  exists d, l, n. repeat split; try done.
  - intros idx Hidx. unfold l. by rewrite get_tabulate.
  - unfold the_third_layer.
    rewrite run_bind. cbn [run lift]. rewrite Hd.
    rewrite run_bind. cbn [run lift]. unfold nd.broadcast_add. rewrite Hadd.
    by rewrite run_bind, Hn.
  - by apply wf_relu.
Qed.

(** The output layer: from [(N, 128)] to [(N, 10)]. *)
Lemma output_layer_returns (P : parameters F) (h3 : NDArray) g N :
  cell9_shapes P → nd.shape h3 = [N; 128] →
  ∃ yhat_linear,
    run (the_output_layer P h3) g = (Ok yhat_linear, g) ∧
    nd.shape yhat_linear = [N; 10] ∧ nd.wf yhat_linear.
Proof.
  intros HP HX.
  destruct HP as (_ & _ & _ & _ & _ & _ & _ & _ & _ & _ & _ & _ & HW4 & Hb4).
  destruct (dot_returns h3 (W4 P) N 128 10) as (d & Hd & Hsd & Hwd & _); try done.
  pose proof (broadcast_rows fadd d (b4 P) N 10 Hsd Hb4) as Hadd.
  eexists. split; [|split; [|apply wf_tabulate]].
  - unfold the_output_layer. rewrite run_bind. cbn [run lift]. rewrite Hd.
    cbn [run lift]. unfold nd.broadcast_add. by rewrite Hadd.
  - reflexivity.
Qed.

End net_facts.

Section net_theorems.
Context {F : Type} `{Elementary F}.

#[local] Abbreviation NDArray := (nd.NDArray F).

Lemma not_in_scope_names s :
  ¬ In s net_scope_names → s ≠ "bn1" ∧ s ≠ "bn2" ∧ s ≠ "bn3".
Proof. simpl. intros Hs. repeat split; intros ->; apply Hs; auto. Qed.

(** A run of [net] layer by layer: the inputs of the three batch
    normalisations, the outputs of the layers, and the globals in between. *)
Lemma net_run (P : parameters F) (X : NDArray) tr dbg g N :
  cell9_shapes P → nd.shape X = [N; 1; 28; 28] →
  ready_for_net g → tr = true ∨ trained_net g →
  ∃ h1_conv h1 h2_conv h2 h3_linear h3 yhat_linear,
    let g1 := spec_store_update g "bn1" (spec_batch_mean h1_conv)
                (spec_batch_variance h1_conv) default_momentum in
    let g2 := spec_store_update g1 "bn2" (spec_batch_mean h2_conv)
                (spec_batch_variance h2_conv) default_momentum in
    let g3 := spec_store_update g2 "bn3" (spec_batch_mean h3_linear)
                (spec_batch_variance h3_linear) default_momentum in
    ndarray.Convolution X (W1 P) (b1 P) (3, 3) 20 = Ok h1_conv ∧
    nd.shape h1_conv = [N; 20; 26; 26] ∧
    nd.shape h2_conv = [N; 50; 9; 9] ∧
    nd.shape h3_linear = [N; 128] ∧
    run (the_first_convolutional_layer P X tr) g = (Ok h1, g1) ∧
    nd.shape h1 = [N; 20; 13; 13] ∧
    run (the_second_convolutional_layer P h1 tr) g1 = (Ok h2, g2) ∧
    nd.shape h2 = [N; 50; 4; 4] ∧
    nd.shape (ndarray.flatten h2) = [N; 800] ∧
    run (the_third_layer P (ndarray.flatten h2) tr) g2 = (Ok h3, g3) ∧
    nd.shape h3 = [N; 128] ∧
    run (the_output_layer P h3) g3 = (Ok yhat_linear, g3) ∧
    nd.shape yhat_linear = [N; 10] ∧ nd.wf yhat_linear ∧
    run (net P X tr dbg) g = (Ok yhat_linear, g3) ∧
    ready_for_net g3 ∧ trained_net g3.
Proof.
  intros HP HX Hg Hmode.
  destruct (first_layer_returns P X tr g N HP HX Hg Hmode)
    as (c1 & n1 & h1 & Hc1 & Hsc1 & _ & _ & Hrun1 & Hsh1 & Hwh1).
  set (g1 := spec_store_update g "bn1" (spec_batch_mean c1) (spec_batch_variance c1)
               default_momentum) in *.
  assert (Hg1 : ready_for_net g1).
  { apply (ready_update g "bn1" 20); try done; try apply wf_tabulate.
    - simpl. auto.
    - unfold spec_batch_mean, features. by rewrite Hsc1.
    - unfold spec_batch_variance, features. by rewrite Hsc1. }
  assert (Hmode1 : tr = true ∨ trained_net g1) by by apply mode_update.
  destruct (second_layer_returns P h1 tr g1 N HP Hsh1 Hg1 Hmode1)
    as (c2 & n2 & h2 & _ & Hsc2 & _ & _ & Hrun2 & Hsh2 & Hwh2).
  set (g2 := spec_store_update g1 "bn2" (spec_batch_mean c2) (spec_batch_variance c2)
               default_momentum) in *.
  assert (Hg2 : ready_for_net g2).
  { apply (ready_update g1 "bn2" 50); try done; try apply wf_tabulate.
    - simpl. auto.
    - unfold spec_batch_mean, features. by rewrite Hsc2.
    - unfold spec_batch_variance, features. by rewrite Hsc2. }
  assert (Hmode2 : tr = true ∨ trained_net g2) by by apply mode_update.
  destruct (size_pos_wf_flatten h2 N [50; 4; 4] Hsh2 Hwh2) as [Hsf Hwf].
  change (size [50; 4; 4]) with 800 in Hsf.
  destruct (third_layer_returns P (ndarray.flatten h2) tr g2 N HP Hsf Hg2 Hmode2)
    as (d3 & l3 & n3 & _ & _ & Hsl3 & _ & _ & Hrun3 & Hsh3 & Hwh3).
  set (g3 := spec_store_update g2 "bn3" (spec_batch_mean l3) (spec_batch_variance l3)
               default_momentum) in *.
  assert (Hg3 : ready_for_net g3).
  { apply (ready_update g2 "bn3" 128); try done; try apply wf_tabulate.
    - simpl. auto.
    - unfold spec_batch_mean, features. by rewrite Hsl3.
    - unfold spec_batch_variance, features. by rewrite Hsl3. }
  destruct (output_layer_returns P (relu n3) g3 N HP Hsh3) as (y & Hrun4 & Hsy & Hwy).
  exists c1, h1, c2, h2, l3, (relu n3), y. cbv zeta.
  fold g1. fold g2. fold g3.
  do 14 (split; [done|]).
  split.
  { unfold net. rewrite run_bind, Hrun1. rewrite run_bind, Hrun2.
    cbv zeta. by rewrite run_bind, Hrun3. }
  split; [done|].
  intros s Hs. simpl in Hs.
  unfold g3, g2, g1.
  destruct Hs as [<-|[<-|[<-|[]]]];
    (split; [repeat (apply is_Some_update_mean; first [by left | right])
            |repeat (apply is_Some_update_var; first [by left | right])]).
Qed.

(** X11.  [net] on a batch of [N] images of shape (1, 28, 28), with
    parameters of the shapes of cell 9: in training mode, or in inference
    mode once its three layers have statistics, it returns scores of shape
    (N, 10) through the shapes that cell 16 prints, (N, 20, 13, 13),
    (N, 50, 4, 4), (N, 800) and (N, 128); afterwards the three layers have
    statistics of the widths 20, 50 and 128, and the entries of other
    identifiers are as they were. *)
Theorem net_returns (P : parameters F) (X : NDArray) tr dbg g N :
  cell9_shapes P → nd.shape X = [N; 1; 28; 28] →
  ready_for_net g → tr = true ∨ trained_net g →
  ∃ h1 h2 h3 yhat_linear g1 g2 g3,
    run (the_first_convolutional_layer P X tr) g = (Ok h1, g1) ∧
    nd.shape h1 = [N; 20; 13; 13] ∧
    run (the_second_convolutional_layer P h1 tr) g1 = (Ok h2, g2) ∧
    nd.shape h2 = [N; 50; 4; 4] ∧
    nd.shape (ndarray.flatten h2) = [N; 800] ∧
    run (the_third_layer P (ndarray.flatten h2) tr) g2 = (Ok h3, g3) ∧
    nd.shape h3 = [N; 128] ∧
    run (the_output_layer P h3) g3 = (Ok yhat_linear, g3) ∧
    nd.shape yhat_linear = [N; 10] ∧ nd.wf yhat_linear ∧
    run (net P X tr dbg) g = (Ok yhat_linear, g3) ∧
    ready_for_net g3 ∧ trained_net g3 ∧
    ∀ s, ¬ In s net_scope_names →
         running_mean g3 s = running_mean g s ∧ running_var g3 s = running_var g s.
Proof.
  intros HP HX Hg Hmode.
  destruct (net_run P X tr dbg g N HP HX Hg Hmode)
    as (c1 & h1 & c2 & h2 & l3 & h3 & y & Hrun). cbv zeta in Hrun.
  set (g1 := spec_store_update g "bn1" _ _ _) in Hrun.
  set (g2 := spec_store_update g1 "bn2" _ _ _) in Hrun.
  set (g3 := spec_store_update g2 "bn3" _ _ _) in Hrun.
  destruct Hrun as (_ & _ & _ & _ & Hr1 & Hs1 & Hr2 & Hs2 & Hsf & Hr3 & Hs3 & Hr4 & Hsy
                    & Hwy & Hnet & Hready & Htrained).
  exists h1, h2, h3, y, g1, g2, g3.
  split; [exact Hr1|]. split; [exact Hs1|]. split; [exact Hr2|]. split; [exact Hs2|].
  split; [exact Hsf|]. split; [exact Hr3|]. split; [exact Hs3|]. split; [exact Hr4|].
  split; [exact Hsy|]. split; [exact Hwy|]. split; [exact Hnet|].
  split; [exact Hready|]. split; [exact Htrained|].
  intros s Hs. destruct (not_in_scope_names s Hs) as (H1 & H2 & H3).
  unfold g3, g2, g1.
  rewrite (store_update_mean_ne _ "bn3" s), (store_update_mean_ne _ "bn2" s),
    (store_update_mean_ne _ "bn1" s) by done.
  by rewrite (store_update_var_ne _ "bn3" s), (store_update_var_ne _ "bn2" s),
    (store_update_var_ne _ "bn1" s) by done.
Qed.

(** X12.  In either mode [net] folds the batch statistics of the output of
    its first convolution into the entry of its first layer. *)
Theorem net_moves_the_statistics (P : parameters F) (X : NDArray) tr dbg g N :
  cell9_shapes P → nd.shape X = [N; 1; 28; 28] →
  ready_for_net g → tr = true ∨ trained_net g →
  ∃ h1_conv,
    ndarray.Convolution X (W1 P) (b1 P) (3, 3) 20 = Ok h1_conv ∧
    running_mean (run (net P X tr dbg) g).2 "bn1"
    = Some (spec_updated (running_mean g "bn1") (spec_batch_mean h1_conv)
              default_momentum) ∧
    running_var (run (net P X tr dbg) g).2 "bn1"
    = Some (spec_updated (running_var g "bn1") (spec_batch_variance h1_conv)
              default_momentum).
Proof.
  intros HP HX Hg Hmode.
  destruct (net_run P X tr dbg g N HP HX Hg Hmode)
    as (c1 & h1 & c2 & h2 & l3 & h3 & y & Hrun). cbv zeta in Hrun.
  destruct Hrun as (Hc1 & _ & _ & _ & _ & _ & _ & _ & _ & _ & _ & _ & _ & _ & Hnet & _).
  exists c1. split; [done|]. rewrite Hnet. cbn [snd].
  rewrite !store_update_mean_ne, !store_update_var_ne by done.
  by rewrite store_update_mean, store_update_var.
Qed.

(** In inference mode, with nothing stored for the first layer, [net] stops
    at the lookup of the first batch normalisation. *)
Lemma net_missing_run (P : parameters F) (X : NDArray) dbg g N H' W :
  nd.shape X = [N; 1; H'; W] → 3 ≤ H' → 3 ≤ W →
  nd.shape (W1 P) = [20; 1; 3; 3] → nd.shape (b1 P) = [20] →
  running_mean g "bn1" = None →
  run (net P X false dbg) g
  = (Raise (match _BN_MOVING_MEANS g with
            | Some _ => KeyError "bn1"
            | None => NameError "_BN_MOVING_MEANS"
            end), g).
Proof.
  intros HX HH HW HW1 Hb1 Hnone.
  destruct (Convolution_returns X (W1 P) (b1 P) 3 3 20 N 1 H' W)
    as (c & Hc & Hsc & Hwc & _); try done; try lia.
  unfold net. rewrite run_bind.
  unfold the_first_convolutional_layer. rewrite run_bind. cbn [run lift].
  rewrite Hc. rewrite run_bind.
  rewrite batch_norm_missing_run; [reflexivity | | done].
  right. by rewrite Hsc.
Qed.

(** X13.  In inference mode with nothing stored for its first layer, [net]
    raises the [NameError] or the [KeyError] of its first batch
    normalisation, and the globals are as they were. *)
Theorem net_inference_untrained (P : parameters F) (X : NDArray) dbg g N H' W :
  nd.shape X = [N; 1; H'; W] → 3 ≤ H' → 3 ≤ W →
  nd.shape (W1 P) = [20; 1; 3; 3] → nd.shape (b1 P) = [20] →
  running_mean g "bn1" = None →
  ∃ e, run (net P X false dbg) g = (Raise e, g) ∧ missing_statistics "bn1" e.
Proof.
  intros HX HH HW HW1 Hb1 Hnone.
  eexists. split; [by apply (net_missing_run P X dbg g N H' W)|].
  unfold missing_statistics. destruct (_BN_MOVING_MEANS g); auto.
Qed.

End net_theorems.

(** *** The biases in front of a batch normalisation, over the reals *)




(** ** Activation and loss *)

Section loss_facts.
Context {F : Type} `{Elementary F}.

#[local] Abbreviation NDArray := (nd.NDArray F).

(** A matrix against an array of shape [(1,)]. *)
Lemma broadcast_one (f : F → F → F) (A v : NDArray) N K :
  nd.shape A = [N; K] → nd.shape v = [1] →
  nd.broadcast f A v
  = Ok (nd.tabulate [N; K] (λ idx, f (nd.get A idx) (nd.get v [0]))).
Proof.
  intros Ha Hv. unfold nd.broadcast. rewrite Ha, Hv.
  replace (nd.broadcast_shape [N; K] [1]) with (Some [N; K]).
  2:{ unfold nd.broadcast_shape, nd.pad_left. simpl.
      by rewrite !broadcast_dim_1_r. }
  f_equal. apply tabulate_ext. intros idx Hidx.
  inversion Hidx as [|i ? l ? Hi Hl]; subst. inversion Hl as [|j ? l' ? Hj Hl']; subst.
  inversion Hl'; subst.
  unfold nd.bindex. simpl length. simpl skipn.
  by rewrite (clamp_in_bounds [N; K] [i; j]) by assumption.
Qed.

(** A matrix against a column: every row meets its own element. *)
Lemma broadcast_column (f : F → F → F) (A v : NDArray) N K :
  nd.shape A = [N; K] → nd.shape v = [N; 1] →
  nd.broadcast f A v
  = Ok (nd.tabulate [N; K] (λ idx, f (nd.get A idx) (nd.get v [hd 0 idx; 0]))).
Proof.
  intros Ha Hv. unfold nd.broadcast. rewrite Ha, Hv.
  replace (nd.broadcast_shape [N; K] [N; 1]) with (Some [N; K]).
  2:{ unfold nd.broadcast_shape, nd.pad_left. simpl.
      by rewrite broadcast_dim_refl, broadcast_dim_1_r. }
  f_equal. apply tabulate_ext. intros idx Hidx.
  inversion Hidx as [|i ? l ? Hi Hl]; subst. inversion Hl as [|j ? l' ? Hj Hl']; subst.
  inversion Hl'; subst.
  unfold nd.bindex. simpl length. simpl skipn.
  rewrite (clamp_in_bounds [N; K] [i; j]) by assumption.
  do 2 f_equal. simpl.
  destruct (Nat.eqb_spec N 1); [assert (i = 0) as -> by lia|]; reflexivity.
Qed.

Lemma row_slots N K i :
  nd.slots [1] 0 [N; K] [i] = map (λ k, [i; k]) (seq 0 K).
Proof.
  simpl. rewrite map_over_flat_map. simpl. by rewrite flat_map_singleton.
Qed.

(** [nd.nansum(A, axis=0, exclude=True)] of a matrix: one sum per row. *)
Lemma nansum_rows (A : NDArray) N K :
  nd.shape A = [N; K] →
  ndarray.nansum A [0] true
  = nd.tabulate [N]
      (λ oidx, nd.total (List.filter (λ x, negb (fis_nan x))
                           (map (λ k, nd.get A [hd 0 oidx; k]) (seq 0 K)))).
Proof.
  intros Ha. unfold ndarray.nansum. rewrite Ha.
  change (ndarray.reduced_axes [0] true (length [N; K])) with [1].
  change (ndarray.at_least_1d (nd.reduced_shape [1] 0 [N; K])) with [N].
  apply tabulate_ext. intros idx Hidx.
  inversion Hidx as [|i ? l ? Hi Hl]; subst. inversion Hl; subst.
  by rewrite row_slots, map_map.
Qed.

Lemma reshape_column (a : NDArray) N :
  nd.shape a = [N] → nd.reshape a [N; 1] = Ok (nd.mkND [N; 1] (nd.data a)).
Proof.
  intros Ha. unfold nd.reshape. rewrite Ha.
  replace (size [N; 1] =? size [N]) with true; [done|].
  symmetry. apply Nat.eqb_eq. simpl. lia.
Qed.

Lemma get_column (l : list F) N i :
  nd.get (nd.mkND [N; 1] l) [i; 0] = nd.get (nd.mkND [N] l) [i].
Proof. reflexivity. Qed.

Lemma along_last_row N K i j :
  ndarray.along_last [N; K] [i; j] = map (λ k, [i; k]) (seq 0 K).
Proof. reflexivity. Qed.

End loss_facts.

(** *** Over the reals *)

Lemma filter_not_nan (l : list R) : List.filter (λ x, negb (fis_nan x)) l = l.
Proof.
  induction l as [|x l IH]; [done|].
  change (x :: List.filter (λ x, negb (fis_nan x)) l = x :: l). by rewrite IH.
Qed.

Lemma total_scaled {A : Type} (f : A → R) (c : R) (l : list A) :
  nd.total (map (λ x, (f x * c)%R) l) = (nd.total (map f l) * c)%R.
Proof.
  induction l as [|x l IH].
  - simpl. rewrite total_nil. lra.
  - cbn [map]. rewrite !total_cons, IH. lra.
Qed.

Lemma total_pos {A : Type} (f : A → R) (l : list A) :
  l ≠ [] → (∀ x, 0 < f x)%R → (0 < nd.total (map f l))%R.
Proof.
  intros Hl Hf. destruct l as [|x l]; [done|].
  cbn [map]. rewrite total_cons.
  assert (0 <= nd.total (map f l))%R.
  { apply total_nonneg. rewrite Forall_map. apply Forall_true.
    intros y. apply Rlt_le, Hf. }
  specialize (Hf x). lra.
Qed.

Lemma term_le_total {A : Type} (f : A → R) (l : list A) x :
  In x l → (∀ y, 0 <= f y)%R → (f x <= nd.total (map f l))%R.
Proof.
  intros Hin Hf. induction l as [|y l IH]; [done|].
  cbn [map]. rewrite total_cons.
  assert (0 <= nd.total (map f l))%R.
  { apply total_nonneg. rewrite Forall_map. by apply Forall_true. }
  destruct Hin as [->|Hin].
  - lra.
  - specialize (IH Hin). specialize (Hf y). lra.
Qed.

Lemma seq_nonempty K : 0 < K → seq 0 K ≠ [].
Proof. destruct K; [lia | done]. Qed.

(** The value of [softmax] on a matrix, with the shift by the largest
    element still in it. *)
Lemma softmax_value (y : nd.NDArray R) N K :
  nd.shape y = [N; K] → nd.wf y →
  let M := ndarray.maximum_of (nd.data y) in
  softmax y
  = Ok (nd.tabulate [N; K]
          (λ idx, (exp (nd.get y idx - M)
                   / nd.total (map (λ k, exp (nd.get y [hd 0%nat idx; k] - M))
                                   (seq 0 K)))%R)).
Proof.
  intros Hy Hwf M. unfold softmax.
  unfold nd.broadcast_sub. rewrite (broadcast_one _ y _ N K) by done.
  cbn [mbind result_bind].
  set (shifted := nd.tabulate [N; K] _).
  assert (Hsh : nd.shape (ndarray.exp shifted) = [N; K]) by reflexivity.
  rewrite (nansum_rows _ N K Hsh).
  set (sums := nd.tabulate [N] _).
  replace (size (nd.shape sums)) with N by (simpl; lia).
  rewrite (reshape_column sums N) by reflexivity.
  cbn [mbind result_bind].
  unfold nd.broadcast_div. rewrite (broadcast_column _ _ _ N K) by done.
  f_equal. apply tabulate_ext. intros idx Hidx.
  inversion Hidx as [|i ? l ? Hi Hl]; subst. inversion Hl as [|j ? l' ? Hj Hl']; subst.
  inversion Hl'; subst. simpl hd.
  assert (Hexp : ∀ k, k < K →
            nd.get (ndarray.exp shifted) [i; k] = exp (nd.get y [i; k] - M)).
  { intros k Hk. unfold ndarray.exp.
    rewrite get_map_nd by (apply wf_tabulate || (by repeat constructor)).
    unfold shifted. rewrite get_tabulate by (by repeat constructor).
    reflexivity. }
  rewrite Hexp by done. f_equal.
  rewrite get_column.
  change (nd.mkND [N] (nd.data sums)) with sums.
  unfold sums. rewrite get_tabulate by (by repeat constructor).
  simpl hd. rewrite filter_not_nan. f_equal.
  apply map_ext_in. intros k Hk. apply in_seq in Hk. apply Hexp. lia.
Qed.

Lemma shifted_ratio (f : nat → R) (M : R) K j :
  0 < K →
  (exp (f j - M) / nd.total (map (λ k, exp (f k - M)) (seq 0 K)))%R
  = (exp (f j) / nd.total (map (λ k, exp (f k)) (seq 0 K)))%R.
Proof.
  intros HK.
  rewrite (map_ext (λ k, exp (f k - M)) (λ k, (exp (f k) * exp (- M))%R))
    by (intros k; unfold Rminus; apply exp_plus).
  rewrite total_scaled. unfold Rminus. rewrite exp_plus.
  pose proof (exp_pos (- M)).
  pose proof (total_pos (λ k, exp (f k)) (seq 0 K) (seq_nonempty K HK)
                (λ k, exp_pos (f k))).
  field. lra.
Qed.

(** The elements of [softmax] of a matrix: the shift by the largest element
    cancels. *)
Lemma softmax_get (y : nd.NDArray R) N K :
  nd.shape y = [N; K] → nd.wf y →
  ∃ out,
    softmax y = Ok out ∧ nd.shape out = [N; K] ∧ nd.wf out ∧
    ∀ i j, i < N → j < K →
      nd.get out [i; j]
      = (exp (nd.get y [i; j])
         / nd.total (map (λ k, exp (nd.get y [i; k])) (seq 0 K)))%R.
Proof.
  intros Hy Hwf. eexists. split; [by apply (softmax_value y N K)|].
  split; [reflexivity|]. split; [apply wf_tabulate|].
  intros i j Hi Hj. rewrite get_tabulate by (by repeat constructor). simpl hd.
  apply (shifted_ratio (λ k, nd.get y [i; k])). lia.
Qed.

(** X15.  Over the reals, where no exponential underflows: [softmax] of a
    matrix has in row [i] and column [j] the element [exp(y_ij)] over the
    sum of [exp(y_ik)] along the row, the largest element of the whole
    matrix, which the code subtracts, having cancelled; the element lies in
    (0, 1], and every row sums to 1. *)
Theorem softmax_rows (y : nd.NDArray R) N K :
  nd.shape y = [N; K] → nd.wf y →
  ∃ out,
    softmax y = Ok out ∧ nd.shape out = [N; K] ∧ nd.wf out ∧
    ∀ i j, i < N → j < K →
      nd.get out [i; j]
      = (exp (nd.get y [i; j])
         / nd.total (map (λ k, exp (nd.get y [i; k])) (seq 0 K)))%R ∧
      (0 < nd.get out [i; j] <= 1)%R ∧
      nd.total (map (λ k, nd.get out [i; k]) (seq 0 K)) = 1%R.
Proof.
  intros Hy Hwf.
  destruct (softmax_get y N K Hy Hwf) as (out & Hout & Hs & Hw & Hget).
  exists out. do 3 (split; [done|]).
  intros i j Hi Hj.
  set (S := nd.total (map (λ k, exp (nd.get y [i; k])) (seq 0 K))).
  assert (HS : (0 < S)%R).
  { apply total_pos; [apply seq_nonempty; lia | intros k; apply exp_pos]. }
  split; [by apply Hget|]. split.
  - rewrite Hget by done. fold S.
    pose proof (exp_pos (nd.get y [i; j])) as He.
    assert (Hle : (exp (nd.get y [i; j]) <= S)%R).
    { apply (term_le_total (λ k, exp (nd.get y [i; k])) (seq 0 K) j).
      - apply in_seq. lia.
      - intros k. apply Rlt_le, exp_pos. }
    split.
    + by apply Rdiv_lt_0_compat.
    + apply (Rmult_le_reg_r S); [done|]. unfold Rdiv.
      rewrite Rmult_assoc, Rinv_l by lra. lra.
  - rewrite (map_ext_in _ (λ k, (exp (nd.get y [i; k]) * / S)%R)).
    + rewrite total_scaled. fold S. field. lra.
    + intros k Hk. apply in_seq in Hk. rewrite Hget by lia. reflexivity.
Qed.

Lemma total_indicator (g : nat → R) l K s :
  nd.total (map (λ k, ((if k =? l then 1 else 0) * g k)%R) (seq s K))
  = if (s <=? l) && (l <? s + K) then g l else 0%R.
Proof.
  revert s. induction K as [|K IH]; intros s.
  - simpl. rewrite total_nil.
    destruct (Nat.leb_spec s l), (Nat.ltb_spec l (s + 0)); simpl; try done; lia.
  - cbn [seq map]. rewrite total_cons, IH.
    destruct (Nat.eqb_spec s l) as [->|Hne].
    + replace (S l <=? l) with false by (symmetry; apply Nat.leb_gt; lia).
      replace (l <=? l) with true by (symmetry; apply Nat.leb_le; lia).
      replace (l <? l + S K) with true by (symmetry; apply Nat.ltb_lt; lia).
      simpl. lra.
    + destruct (Nat.leb_spec (S s) l), (Nat.ltb_spec l (S s + K)),
        (Nat.leb_spec s l), (Nat.ltb_spec l (s + S K)); simpl; try lra; lia.
Qed.

(** The value of [softmax_cross_entropy] on matrices of one shape. *)
Lemma softmax_cross_entropy_value (yhat_linear y : nd.NDArray R) N K :
  nd.shape yhat_linear = [N; K] → nd.shape y = [N; K] →
  ∃ loss,
    softmax_cross_entropy yhat_linear y = Ok loss ∧
    nd.shape loss = [N] ∧ nd.wf loss ∧
    ∀ i, i < N →
      nd.get loss [i]
      = (- nd.total
             (map (λ k, (nd.get y [i; k]
                         * ln (exp (nd.get yhat_linear [i; k])
                               / nd.total (map (λ k', exp (nd.get yhat_linear [i; k']))
                                               (seq 0 K))))%R)
                  (seq 0 K)))%R.
Proof.
  intros Hx Hy. unfold softmax_cross_entropy.
  unfold nd.broadcast_mul. rewrite (broadcast_same _ _ _ [N; K]) by done.
  cbn [mbind result_bind].
  set (products := nd.tabulate [N; K] _).
  rewrite (nansum_rows products N K) by reflexivity.
  eexists. split; [reflexivity|]. split; [reflexivity|].
  split; [apply wf_map_nd, wf_tabulate|].
  intros i Hi. unfold nd.mul_scalar.
  rewrite get_map_nd by (apply wf_tabulate || (by repeat constructor)).
  rewrite get_tabulate by (by repeat constructor).
  simpl hd. rewrite filter_not_nan.
  replace (fliteral (-1) 0) with (-1)%R by (simpl; lra).
  assert (Hsum : ∀ a : R, (a * -1 = - a)%R) by (intros; lra).
  rewrite Hsum. f_equal. f_equal.
  apply map_ext_in. intros k Hk. apply in_seq in Hk.
  unfold products. rewrite get_tabulate by (repeat constructor; lia).
  f_equal. unfold ndarray.log_softmax. rewrite Hx.
  rewrite get_tabulate by (repeat constructor; lia).
  by rewrite along_last_row, map_map.
Qed.

(** X16.  For a one-hot row of labels, [softmax_cross_entropy] is the
    logarithm of the sum of [exp(yhat_ik)] along the row minus the score of
    the class of the row; it is not negative, and [exp(-loss)] is the
    probability that [softmax] gives that class. *)
Theorem softmax_cross_entropy_one_hot (yhat_linear y : nd.NDArray R) N K i l :
  nd.shape yhat_linear = [N; K] → nd.wf yhat_linear → nd.shape y = [N; K] →
  i < N → l < K →
  (∀ k, k < K → nd.get y [i; k] = if k =? l then 1%R else 0%R) →
  ∃ loss probabilities,
    softmax_cross_entropy yhat_linear y = Ok loss ∧ nd.shape loss = [N] ∧
    softmax yhat_linear = Ok probabilities ∧
    nd.get loss [i]
    = (ln (nd.total (map (λ k, exp (nd.get yhat_linear [i; k])) (seq 0 K)))
       - nd.get yhat_linear [i; l])%R ∧
    (0 <= nd.get loss [i])%R ∧
    exp (- nd.get loss [i]) = nd.get probabilities [i; l].
Proof.
  intros Hx Hwf Hy Hi Hl Hone.
  destruct (softmax_cross_entropy_value yhat_linear y N K Hx Hy)
    as (loss & Hloss & Hsl & _ & Hget).
  destruct (softmax_get yhat_linear N K Hx Hwf) as (p & Hp & _ & _ & Hrows).
  exists loss, p. split; [done|]. split; [done|]. split; [done|].
  set (S := nd.total (map (λ k, exp (nd.get yhat_linear [i; k])) (seq 0 K))).
  assert (HS : (0 < S)%R).
  { apply total_pos; [apply seq_nonempty; lia | intros k; apply exp_pos]. }
  assert (Hvalue : nd.get loss [i] = (ln S - nd.get yhat_linear [i; l])%R).
  { rewrite Hget by done. fold S.
    rewrite (map_ext_in _ (λ k, ((if k =? l then 1 else 0)
                                 * ln (exp (nd.get yhat_linear [i; k]) / S))%R)).
    2:{ intros k Hk. apply in_seq in Hk. rewrite Hone by lia. reflexivity. }
    rewrite (total_indicator (λ k, ln (exp (nd.get yhat_linear [i; k]) / S))).
    replace ((0 <=? l) && (l <? 0 + K)) with true.
    2:{ symmetry. apply andb_true_iff. split; [by apply Nat.leb_le; lia|].
        apply Nat.ltb_lt. lia. }
    unfold Rdiv. rewrite ln_mult by (apply exp_pos || by apply Rinv_0_lt_compat).
    rewrite ln_Rinv by done. rewrite ln_exp. lra. }
  split; [done|].
  assert (Hle : (exp (nd.get yhat_linear [i; l]) <= S)%R).
  { apply (term_le_total (λ k, exp (nd.get yhat_linear [i; k])) (seq 0 K) l).
    - apply in_seq. lia.
    - intros k. apply Rlt_le, exp_pos. }
  split.
  - rewrite Hvalue.
    assert (Hln : (ln (exp (nd.get yhat_linear [i; l])) <= ln S)%R).
    { destruct Hle as [Hlt|Heq]; [|rewrite Heq; lra].
      apply Rlt_le, ln_increasing; [apply exp_pos | done]. }
    rewrite ln_exp in Hln. lra.
  - rewrite (Hrows i l Hi Hl). fold S. rewrite Hvalue.
    replace (- (ln S - nd.get yhat_linear [i; l]))%R
      with (nd.get yhat_linear [i; l] + - ln S)%R by lra.
    rewrite exp_plus, exp_Ropp, exp_ln by done. reflexivity.
Qed.

(** X17.  [relu] keeps the shape and replaces every element by the larger of
    it and 0, so that no element of the result is negative; applied twice it
    changes nothing more, and it changes nothing at all on an array without
    negative elements. *)
Theorem relu_clips_at_zero (X : nd.NDArray R) :
  nd.wf X →
  nd.shape (relu X) = nd.shape X ∧ nd.wf (relu X) ∧
  (∀ idx, in_bounds idx (nd.shape X) →
     nd.get (relu X) idx = Rmax (nd.get X idx) 0 ∧ (0 <= nd.get (relu X) idx)%R) ∧
  relu (relu X) = relu X ∧
  (Forall (λ x, (0 <= x)%R) (nd.data X) → relu X = X).
Proof.
  intros Hwf. split; [reflexivity|]. split; [by apply wf_relu|].
  split; [|split].
  - intros idx Hidx. unfold relu, ndarray.maximum.
    rewrite get_map_nd by done. split; [reflexivity | apply Rmax_r].
  - unfold relu, ndarray.maximum, nd.map_nd. simpl. f_equal.
    rewrite map_map. apply map_ext. intros x.
    apply Rmax_left, Rmax_r.
  - intros Hpos. destruct X as [sh d]. unfold relu, ndarray.maximum, nd.map_nd.
    simpl in *. f_equal. clear Hwf.
    induction Hpos as [|x l Hx Hl IH]; [done|].
    simpl. rewrite IH. f_equal. by apply Rmax_left.
Qed.

(** ** The optimizer *)

Section SGD_facts.
Context {F : Type} `{Scalar F}.

#[local] Abbreviation NDArray := (nd.NDArray F).

Lemma store_same (h : heap F) r p : store h r p r = p.
Proof. unfold store. by rewrite Nat.eqb_refl. Qed.

Lemma store_other (h : heap F) r r' p : r' ≠ r → store h r p r' = h r'.
Proof. intros Hne. unfold store. by destruct (Nat.eqb_spec r' r). Qed.

Lemma SGD_body_returns (lr : F) param (h : heap F) :
  has_gradient h param →
  SGD_body lr param h
  = (Returns tt, store h param (mkParameter (stepped lr (h param)) (grad (h param)))).
Proof.
  intros (gr & Hg & Hs & Hwf). unfold SGD_body. rewrite Hg.
  unfold nd.broadcast_sub.
  rewrite (broadcast_same _ _ _ (nd.shape (value (h param)))) by done.
  rewrite decide_True by reflexivity.
  do 3 f_equal. unfold stepped. rewrite Hg. simpl.
  apply tabulate_ext. intros idx Hidx. f_equal.
  unfold nd.mul_scalar. rewrite get_map_nd; [done | done | by rewrite Hs].
Qed.

Lemma SGD_body_no_gradient (lr : F) param (h : heap F) :
  grad (h param) = None →
  SGD_body lr param h
  = (Fails (TypeError "unsupported operand type(s) for *: 'float' and 'NoneType'"), h).
Proof. intros Hg. unfold SGD_body. by rewrite Hg. Qed.

Lemma SGD_app (l1 l2 : list nat) (lr : F) (h : heap F) :
  SGD (l1 ++ l2) lr h
  = match SGD l1 lr h with
    | (Returns _, h') => SGD l2 lr h'
    | (Fails e, h') => (Fails e, h')
    end.
Proof.
  revert h. induction l1 as [|p l1 IH]; intros h; simpl; [done|].
  destruct (SGD_body lr p h) as [[[]|e] h']; [apply IH | done].
Qed.

Lemma has_gradient_store (h : heap F) r p param :
  param ≠ r → has_gradient h param → has_gradient (store h r p) param.
Proof. intros Hne Hg. unfold has_gradient. by rewrite store_other. Qed.

Lemma SGD_returns (params : list nat) (lr : F) (h : heap F) :
  NoDup params → (∀ param, In param params → has_gradient h param) →
  ∃ h',
    SGD params lr h = (Returns tt, h') ∧
    (∀ param, In param params →
       grad (h' param) = grad (h param) ∧
       nd.shape (value (h' param)) = nd.shape (value (h param)) ∧
       nd.wf (value (h' param)) ∧
       ∀ gradient idx,
         grad (h param) = Some gradient →
         in_bounds idx (nd.shape (value (h param))) →
         nd.get (value (h' param)) idx
         = (nd.get (value (h param)) idx - nd.get gradient idx * lr)%sc) ∧
    (∀ r, ¬ In r params → h' r = h r).
Proof.
  intros Hnd. revert h. induction Hnd as [|p params Hp Hnd IH]; intros h Hall.
  - exists h. split; [done|]. split; [intros ? []|done].
  - rewrite list_elem_of_In in Hp.
    simpl. rewrite SGD_body_returns by (apply Hall; by left).
    set (h1 := store h p _).
    destruct (IH h1) as (h' & Hrun & Hin & Hout).
    { intros q Hq. apply has_gradient_store; [|apply Hall; by right].
      intros ->. by apply Hp. }
    exists h'. split; [done|]. split.
    + intros q [<-|Hq].
      * rewrite (Hout p) by (by apply Hp). unfold h1. rewrite store_same. simpl.
        split; [done|]. split; [done|]. split; [apply wf_tabulate|].
        intros gr idx Hg Hidx. unfold stepped. rewrite get_tabulate by done.
        by rewrite Hg.
      * assert (Hne : q ≠ p) by (intros ->; by apply Hp).
        destruct (Hin q Hq) as (Hg & Hs & Hw & Hv).
        unfold h1 in Hg, Hs, Hv. rewrite store_other in Hg, Hs, Hv by done.
        by repeat split.
    + intros r Hr. rewrite Hout by (intros ?; apply Hr; by right).
      unfold h1. apply store_other. intros ->. apply Hr. by left.
Qed.

(** X18.  [SGD] on a list of distinct references whose arrays have gradients
    of their own shape: every listed array becomes [param - lr * param.grad]
    element by element, in its own shape and with its gradient as it was,
    and no other object of the heap changes. *)
Theorem SGD_steps_every_parameter (params : list nat) (lr : F) (h : heap F) :
  NoDup params → (∀ param, In param params → has_gradient h param) →
  ∃ h',
    SGD params lr h = (Returns tt, h') ∧
    (∀ param, In param params →
       grad (h' param) = grad (h param) ∧
       nd.shape (value (h' param)) = nd.shape (value (h param)) ∧
       nd.wf (value (h' param)) ∧
       ∀ gradient idx,
         grad (h param) = Some gradient →
         in_bounds idx (nd.shape (value (h param))) →
         nd.get (value (h' param)) idx
         = (nd.get (value (h param)) idx - nd.get gradient idx * lr)%sc) ∧
    (∀ r, ¬ In r params → h' r = h r).
Proof. apply SGD_returns. Qed.

(** X19.  When an array of the list has no gradient, [SGD] raises a
    [TypeError] at that array, and the arrays before it in the list stay
    updated. *)
Theorem SGD_is_not_atomic (before : list nat) (failing : nat)
    (after : list nat) (lr : F) (h : heap F) :
  NoDup before → (∀ p, In p before → has_gradient h p) →
  ¬ In failing before → grad (h failing) = None →
  ∃ h',
    SGD before lr h = (Returns tt, h') ∧
    SGD (before ++ failing :: after) lr h
    = (Fails (TypeError "unsupported operand type(s) for *: 'float' and 'NoneType'"),
       h') ∧
    ∀ p gradient idx,
      In p before → grad (h p) = Some gradient →
      in_bounds idx (nd.shape (value (h p))) →
      nd.get (value (h' p)) idx
      = (nd.get (value (h p)) idx - nd.get gradient idx * lr)%sc.
Proof.
  intros Hnd Hall Hnot Hnone.
  destruct (SGD_returns before lr h Hnd Hall) as (h' & Hrun & Hin & Hout).
  exists h'. split; [done|]. split.
  - rewrite SGD_app, Hrun. simpl.
    rewrite SGD_body_no_gradient; [done|]. by rewrite (Hout failing Hnot).
  - intros p gr idx Hp Hg Hidx. destruct (Hin p Hp) as (_ & _ & _ & Hv). by apply Hv.
Qed.

(** X20.  An array that the list names twice is stepped twice. *)
Theorem SGD_steps_twice_what_is_listed_twice (param : nat) (lr : F) (h : heap F)
    gradient :
  grad (h param) = Some gradient →
  nd.shape gradient = nd.shape (value (h param)) → nd.wf gradient →
  ∃ h',
    SGD [param; param] lr h = (Returns tt, h') ∧
    grad (h' param) = Some gradient ∧
    ∀ idx, in_bounds idx (nd.shape (value (h param))) →
      nd.get (value (h' param)) idx
      = (nd.get (value (h param)) idx - nd.get gradient idx * lr
         - nd.get gradient idx * lr)%sc.
Proof.
  intros Hg Hs Hwf.
  assert (H1 : has_gradient h param) by (by exists gradient).
  simpl. rewrite SGD_body_returns by done.
  set (h1 := store h param _).
  assert (H2 : has_gradient h1 param).
  { exists gradient. unfold h1. rewrite store_same. simpl.
    split; [done|]. by split. }
  rewrite SGD_body_returns by done.
  eexists. split; [reflexivity|]. rewrite store_same. simpl.
  unfold h1 at 1. rewrite store_same. simpl. split; [done|].
  intros idx Hidx. unfold stepped at 1. unfold h1. rewrite store_same. simpl.
  rewrite get_tabulate by done. rewrite Hg. simpl.
  unfold stepped. rewrite get_tabulate by done. by rewrite Hg.
Qed.

End SGD_facts.

(** ** The evaluation metric *)

Section metric_facts.
Context {F : Type} `{Elementary F}.

#[local] Abbreviation NDArray := (nd.NDArray F).

Lemma tabulate_one (f : list nat → F) : nd.tabulate [1] f = nd.mkND [1] [f [0]].
Proof. reflexivity. Qed.

(** [nd.argmax(output, axis=1)] of a matrix: per row, the position of its
    first largest element. *)
Lemma argmax_rows (output : NDArray) n K :
  nd.shape output = [n; K] →
  ndarray.argmax output 1
  = Ok (nd.tabulate [n]
          (λ idx, fof_nat (ndarray.argmax_of
                             (map (λ k, nd.get output [hd 0 idx; k]) (seq 0 K))))).
Proof.
  intros Ho. unfold ndarray.argmax. rewrite Ho.
  change (1 <? length [n; K]) with true. cbv iota.
  change (ndarray.at_least_1d (nd.reduced_shape [1] 0 [n; K])) with [n].
  f_equal. apply tabulate_ext. intros idx Hidx.
  inversion Hidx as [|i ? l ? Hi Hl]; subst. inversion Hl; subst.
  by rewrite row_slots, map_map.
Qed.

Lemma unravel_vector n k : unravel [n] k = [k].
Proof. change (unravel [n] k) with [k / 1]. by rewrite Nat.div_1_r. Qed.

Lemma tabulate_vector n (f : list nat → F) :
  nd.tabulate [n] f = nd.mkND [n] (map (λ i, f [i]) (seq 0 n)).
Proof.
  unfold nd.tabulate. f_equal. replace (size [n]) with n by (simpl; lia).
  apply map_ext. intros k. by rewrite unravel_vector.
Qed.

(** The array [predictions == label] for one batch. *)
Lemma correct_array (output label : NDArray) n K :
  nd.shape output = [n; K] → nd.shape label = [n] →
  (predictions ← ndarray.argmax output 1; ndarray.equal predictions label)
  = Ok (nd.mkND [n]
          (map (λ i, if feqb (fof_nat (ndarray.argmax_of
                                         (map (λ k, nd.get output [i; k]) (seq 0 K))))
                             (nd.get label [i])
                     then fone else fzero)
               (seq 0 n))).
Proof.
  intros Ho Hl. rewrite (argmax_rows output n K Ho). cbn [mbind result_bind].
  unfold ndarray.equal. rewrite (broadcast_same _ _ _ [n]) by done.
  f_equal. rewrite tabulate_vector. f_equal.
  apply map_ext_in. intros i Hi. apply in_seq in Hi.
  by rewrite get_tabulate by (repeat constructor; lia).
Qed.

End metric_facts.

(** *** Over the reals *)

Lemma total_count {A : Type} (b : A → bool) (l : list A) :
  nd.total (map (λ i, if b i then 1%R else 0%R) l) = INR (length (List.filter b l)).
Proof.
  induction l as [|x l IH]; [reflexivity|].
  cbn [map List.filter]. rewrite total_cons, IH.
  destruct (b x); [cbn [length]; rewrite S_INR|]; lra.
Qed.

Lemma length_correct_rows (output label : nd.NDArray R) n K :
  nd.shape output = [n; K] → length (correct_rows output label) ≤ n.
Proof.
  intros Ho. unfold correct_rows. rewrite Ho.
  etransitivity; [apply List.filter_length_le|]. by rewrite length_seq.
Qed.

(** The array [nd.sum(predictions == label)] holds the number of correct
    rows. *)
Lemma correct_sum (output label : nd.NDArray R) n K :
  nd.shape output = [n; K] → nd.shape label = [n] →
  (predictions ← ndarray.argmax output 1;
   correct ← ndarray.equal predictions label;
   Ok (ndarray.sum correct))
  = Ok (nd.mkND [1] [INR (length (correct_rows output label))]).
Proof.
  intros Ho Hl.
  pose proof (correct_array output label n K Ho Hl) as Hc.
  destruct (ndarray.argmax output 1) as [p|e]; [|discriminate Hc].
  cbn [mbind result_bind] in *. rewrite Hc. cbn [mbind result_bind].
  unfold ndarray.sum. cbn [nd.data]. do 3 f_equal.
  unfold correct_rows. rewrite Ho. apply (total_count _ (seq 0 n)).
Qed.

Section one_batch.
Variables (net : nd.NDArray R → bool → Py R (nd.NDArray R)).
Variables (data label output : nd.NDArray R) (g g1 : globals R) (n K : nat).
Hypothesis net_returns : run (net data false) g = (Ok output, g1).
Hypothesis scores : nd.shape output = [n; K].
Hypothesis labels : nd.shape label = [n].
Hypothesis examples : hd 0 (nd.shape data) = n.

Lemma body_first (x denominator : R) :
  run (evaluate_accuracy_body net data label (PyFloat x) denominator) g
  = (Ok (Array (nd.mkND [1] [(INR (length (correct_rows output label)) + x)%R]),
         (denominator + INR n)%R), g1).
Proof.
  pose proof (correct_sum output label n K scores labels) as Hs.
  unfold evaluate_accuracy_body. rewrite run_bind, net_returns.
  destruct (ndarray.argmax output 1) as [p|e]; [|discriminate Hs].
  cbn [mbind result_bind] in Hs.
  rewrite run_bind. cbn [run lift].
  destruct (ndarray.equal p label) as [c|e]; [|discriminate Hs].
  cbn [mbind result_bind] in Hs. injection Hs as Hs.
  rewrite run_bind. cbn [run lift]. rewrite run_bind. cbn [run lift].
  unfold ndarray.sum. rewrite Hs, examples. reflexivity.
Qed.

Lemma body_next (x denominator : R) :
  run (evaluate_accuracy_body net data label (Array (nd.mkND [1] [x])) denominator) g
  = (Ok (Array (nd.mkND [1] [(x + INR (length (correct_rows output label)))%R]),
         (denominator + INR n)%R), g1).
Proof.
  pose proof (correct_sum output label n K scores labels) as Hs.
  unfold evaluate_accuracy_body. rewrite run_bind, net_returns.
  destruct (ndarray.argmax output 1) as [p|e]; [|discriminate Hs].
  cbn [mbind result_bind] in Hs.
  rewrite run_bind. cbn [run lift].
  destruct (ndarray.equal p label) as [c|e]; [|discriminate Hs].
  cbn [mbind result_bind] in Hs. injection Hs as Hs.
  rewrite run_bind. cbn [run lift]. rewrite run_bind. cbn [run lift].
  unfold ndarray.sum. rewrite Hs, examples. reflexivity.
Qed.

End one_batch.

Lemma tally_cons (net : nd.NDArray R → bool → Py R (nd.NDArray R)) data label rest
    g c t g' :
  tally net ((data, label) :: rest) g = Some (c, t, g') →
  ∃ output g1 K c' t',
    run (net data false) g = (Ok output, g1) ∧
    nd.shape output = [hd 0 (nd.shape data); K] ∧
    nd.shape label = [hd 0 (nd.shape data)] ∧
    tally net rest g1 = Some (c', t', g') ∧
    c = length (correct_rows output label) + c' ∧ t = hd 0 (nd.shape data) + t'.
Proof.
  cbn [tally]. destruct (run (net data false) g) as [[output|e] g1]; [|done].
  cbv zeta.
  destruct (nd.shape output) as [|n' [|K [|? ?]]] eqn:Ho; try done.
  case_bool_decide as Hd; [|done]. destruct Hd as [-> Hl].
  destruct (tally net rest g1) as [[[c' t'] g2]|] eqn:Hrest; [|done].
  cbn. intros [= <- <- <-]. by exists output, g1, K, c', t'.
Qed.

Lemma tally_le (net : nd.NDArray R → bool → Py R (nd.NDArray R)) it :
  ∀ g c t g', tally net it g = Some (c, t, g') → c ≤ t.
Proof.
  induction it as [|[data label] rest IH]; intros g c t g' Ht.
  - injection Ht as <- <- <-. lia.
  - apply tally_cons in Ht as (output & g1 & K & c' & t' & _ & Ho & _ & Hrest & -> & ->).
    specialize (IH _ _ _ _ Hrest).
    pose proof (length_correct_rows output label _ K Ho). lia.
Qed.

Lemma loop_run (net : nd.NDArray R → bool → Py R (nd.NDArray R)) it :
  ∀ x d g c t g',
    tally net it g = Some (c, t, g') →
    ∃ x' d',
      run (evaluate_accuracy_loop net it (Array (nd.mkND [1] [x])) d) g
      = (Ok (Array (nd.mkND [1] [x']), d'), g') ∧
      x' = (x + INR c)%R ∧ d' = (d + INR t)%R.
Proof.
  induction it as [|[data label] rest IH]; intros x d g c t g' Ht.
  - injection Ht as <- <- <-. exists x, d. simpl. repeat split; lra.
  - apply tally_cons in Ht
      as (output & g1 & K & c' & t' & Hnet & Ho & Hl & Hrest & -> & ->).
    destruct (IH (x + INR (length (correct_rows output label)))%R
                 (d + INR (hd 0%nat (nd.shape data)))%R g1 c' t' g' Hrest)
      as (x' & d' & Hrun & -> & ->).
    exists (x + INR (length (correct_rows output label)) + INR c')%R,
           (d + INR (hd 0%nat (nd.shape data)) + INR t')%R.
    split; [|rewrite !plus_INR; split; lra].
    cbn [evaluate_accuracy_loop]. rewrite run_bind.
    rewrite (body_next net data label output g g1 _ K Hnet Ho Hl eq_refl).
    exact Hrun.
Qed.

Lemma evaluate_accuracy_run (net : nd.NDArray R → bool → Py R (nd.NDArray R))
    (data_iterator : list (nd.NDArray R * nd.NDArray R)) g correct examples g' :
  tally net data_iterator g = Some (correct, examples, g') → 0 < examples →
  evaluate_accuracy data_iterator net g = (Returns (INR correct / INR examples)%R, g') ∧
  correct ≤ examples ∧
  (0 <= INR correct / INR examples <= 1)%R.
Proof.
  intros Ht Hpos. pose proof (tally_le net _ _ _ _ _ Ht) as Hle.
  split; [|split; [done|]].
  - destruct data_iterator as [|[data label] rest].
    { injection Ht as <- <- <-. lia. }
    apply tally_cons in Ht
      as (output & g1 & K & c' & t' & Hnet & Ho & Hl & Hrest & -> & ->).
    destruct (loop_run net rest (INR (length (correct_rows output label)) + 0)%R
                (0 + INR (hd 0%nat (nd.shape data)))%R g1 c' t' g' Hrest)
      as (x' & d' & Hrun & -> & ->).
    unfold evaluate_accuracy. cbn [evaluate_accuracy_loop]. rewrite run_bind.
    change fzero with 0%R.
    rewrite (body_first net data label output g g1 _ K Hnet Ho Hl eq_refl).
    rewrite Hrun. unfold quotient, ndarray.asscalar, ndarray.div_scalar. simpl.
    do 2 f_equal. unfold nd.get. simpl. rewrite !plus_INR. f_equal; lra.
  - assert (0 < INR examples)%R by (apply lt_0_INR; lia).
    assert (INR correct <= INR examples)%R by (by apply le_INR).
    pose proof (pos_INR correct).
    split.
    + apply Rle_mult_inv_pos; done.
    + apply (Rmult_le_reg_r (INR examples)); [done|]. unfold Rdiv.
      rewrite Rmult_assoc, Rinv_l by lra. lra.
Qed.

(** X21.  Over the reals, what [evaluate_accuracy] accumulates in an array
    and a float is a count: it returns [correct / examples], where [correct]
    counts the rows whose first largest score stands at the label and
    [examples] the rows of all the batches; the result lies between 0 and 1,
    and the globals are those that the calls of [net] leave. *)
Theorem evaluate_accuracy_counts (net : nd.NDArray R → bool → Py R (nd.NDArray R))
    (data_iterator : list (nd.NDArray R * nd.NDArray R)) g correct examples g' :
  tally net data_iterator g = Some (correct, examples, g') → 0 < examples →
  evaluate_accuracy data_iterator net g = (Returns (INR correct / INR examples)%R, g') ∧
  correct ≤ examples ∧
  (0 <= INR correct / INR examples <= 1)%R.
Proof. apply evaluate_accuracy_run. Qed.

Section metric_edges.
Context {F : Type} `{Elementary F}.

(** X22.  On an iterator that yields no batch [evaluate_accuracy] raises
    [ZeroDivisionError]: numerator and denominator are still the floats
    [0.].  [net] is not called and the globals are as they were. *)
Theorem evaluate_accuracy_of_no_batch (net : nd.NDArray F → bool → Py F (nd.NDArray F))
    (g : globals F) :
  feqb (fzero : F) fzero = true →
  evaluate_accuracy [] net g = (Fails (ZeroDivisionError "float division by zero"), g).
Proof.
  intros Hz. unfold evaluate_accuracy. simpl. by rewrite Hz.
Qed.

End metric_edges.

(** ** The metric on the model *)

Section metric_on_net.
Context {F : Type} `{Elementary F}.

#[local] Abbreviation NDArray := (nd.NDArray F).

(** X23.  [evaluate_accuracy] on the model before any training-mode call:
    the first call of [net] raises for want of running statistics, and so
    does the evaluation, with the globals as they were. *)
Theorem evaluate_accuracy_before_training (P : parameters F) (data label : NDArray)
    (rest : list (NDArray * NDArray)) g N H' W :
  nd.shape data = [N; 1; H'; W] → 3 ≤ H' → 3 ≤ W →
  nd.shape (W1 P) = [20; 1; 3; 3] → nd.shape (b1 P) = [20] →
  running_mean g "bn1" = None →
  ∃ e,
    evaluate_accuracy ((data, label) :: rest) (λ X is_training, net P X is_training false) g
    = (Fails (Raised e), g) ∧
    missing_statistics "bn1" e.
Proof.
  intros HX HH HW HW1 Hb1 Hnone.
  pose proof (net_missing_run P data false g N H' W HX HH HW HW1 Hb1 Hnone) as Hrun.
  eexists. split.
  - unfold evaluate_accuracy. cbn [evaluate_accuracy_loop].
    rewrite run_bind. unfold evaluate_accuracy_body. rewrite run_bind.
    by rewrite Hrun.
  - unfold missing_statistics. destruct (_BN_MOVING_MEANS g); auto.
Qed.

End metric_on_net.




(** ** The properties of the rest of the notebook on sample inputs *)

(** The sample parameters have the shapes of cell 9. *)
Lemma sample_shapes : cell9_shapes samples.P.
Proof. by repeat split. Qed.


(** A fresh kernel is ready for [net]. *)
Lemma fresh_kernel_ready {F : Type} `{Scalar F} : ready_for_net (fresh_kernel (F := F)).
Proof.
  split; [exact I|]. split; [|split]; (split; intros ? Hr; discriminate Hr).
Qed.


(** [shifted_A] is [A] shifted per column. *)
Lemma shifted_A_spec idx :
  in_bounds idx (nd.shape inputs.A) →
  nd.get samples.shifted_A idx
  = (nd.get inputs.A idx + samples.shift (feature_of idx))%R.
Proof.
  intros Hb. inversion Hb as [|i ? l ? Hi Hl]; subst.
  inversion Hl as [|j ? l' ? Hj Hl']; subst. inversion Hl'; subst.
  destruct i as [|[|[|i]]]; [| | |lia];
    (destruct j as [|[|j]]; [| |lia]);
    unfold nd.get, samples.shift, feature_of; simpl; lra.
Qed.

(** Row 0 of [one_hot] names class 1. *)
Lemma one_hot_row_0 k :
  k < 2 → nd.get samples.one_hot [0; k] = if k =? 1 then 1%R else 0%R.
Proof. intros Hk. destruct k as [|[|k]]; [reflexivity | reflexivity | lia]. Qed.

(** Two of the three rows of [A] have their larger score at their class. *)
Lemma sample_tally :
  tally samples.scores_net [(inputs.A, samples.classes)] fresh_kernel
  = Some (2, 3, fresh_kernel).
Proof.
  cbn [tally samples.scores_net run mret Py_ret]. cbv zeta.
  change (nd.shape inputs.A) with [3; 2]. cbn [hd].
  rewrite bool_decide_eq_true_2 by done.
  cbn [mbind option_bind]. do 2 f_equal.
  unfold correct_rows. change (nd.shape inputs.A) with [3; 2].
  cbn [seq map List.filter]. unfold ndarray.argmax_of, ndarray.argmax_from.
  assert (G0 : fgtb (nd.get inputs.A [0; 1]) (nd.get inputs.A [0; 0]) = true).
  { unfold fgtb, nd.get. simpl. destruct (Rlt_dec 1 7); [done | lra]. }
  assert (G1 : fgtb (nd.get inputs.A [1; 1]) (nd.get inputs.A [1; 0]) = false).
  { unfold fgtb, nd.get. simpl. destruct (Rlt_dec 5 4); [lra | done]. }
  assert (G2 : fgtb (nd.get inputs.A [2; 1]) (nd.get inputs.A [2; 0]) = true).
  { unfold fgtb, nd.get. simpl. destruct (Rlt_dec 6 10); [done | lra]. }
  rewrite G0, G1, G2.
  assert (E0 : feqb (fof_nat 1) (nd.get samples.classes [0]) = true).
  { unfold feqb, fof_nat, nd.get. simpl. by destruct (Req_dec_T 1 1). }
  assert (E1 : feqb (fof_nat 0) (nd.get samples.classes [1]) = true).
  { unfold feqb, fof_nat, nd.get. simpl. by destruct (Req_dec_T 0 0). }
  assert (E2 : feqb (fof_nat 1) (nd.get samples.classes [2]) = false).
  { unfold feqb, fof_nat, nd.get. simpl. destruct (Req_dec_T 1 0); [lra | done]. }
  by rewrite E0, E1, E2.
Qed.

(** X8 on a batch of three features under an identifier that holds two
    scalars per statistic. *)
Lemma mismatched_entry_raises_witness :
  ∃ e,
    run (batch_norm inputs.three_features inputs.ga3 inputs.be3 inputs.momentum
           inputs.eps "bn1" true false) inputs.trained
    = (Raise e, inputs.trained) ∧
    e = MXNetError "operands could not be broadcast together".
Proof.
  destruct (mismatched_entry_raises inputs.three_features inputs.ga3 inputs.be3
              inputs.momentum inputs.eps "bn1" true false inputs.trained
              (spec_batch_mean inputs.A) 2) as (e & Hrun & Hclass).
  - by left.
  - reflexivity.
  - reflexivity.
  - rewrite trained_eq. exact I.
  - rewrite trained_eq. by rewrite store_update_mean.
  - reflexivity.
  - unfold features. simpl. lia.
  - lia.
  - unfold features. simpl. lia.
  - exists e. split; [exact Hrun|]. apply Hclass. by left.
Defined.

(** X9 on the matrix [A] and its shifted copy. *)
Lemma training_output_ignores_shift_witness :
  (run (batch_norm samples.shifted_A inputs.ga inputs.be inputs.momentum inputs.eps
          "bn1" true false) fresh_kernel).1
  = (run (batch_norm inputs.A inputs.ga inputs.be inputs.momentum inputs.eps
            "bn1" true false) fresh_kernel).1.
Proof.
  exact (proj1 (training_output_ignores_shift inputs.A samples.shifted_A inputs.ga
                  inputs.be samples.shift inputs.momentum inputs.eps "bn1" false
                  fresh_kernel (or_introl eq_refl) eq_refl eq_refl eq_refl
                  (proj2 (fresh_kernel_fits "bn1" inputs.A)) shifted_A_spec)).
Defined.

(** X10 on three calls under ["bn1"] in a fresh kernel. *)
Lemma running_statistics_after_many_calls_witness :
  ∃ g',
    run (successive_calls [(inputs.A, inputs.ga, inputs.be);
                           (inputs.A', inputs.ga, inputs.be);
                           (inputs.constant_feature, inputs.ga, inputs.be)]
           inputs.momentum inputs.eps "bn1") fresh_kernel = (Ok tt, g') ∧
    running_mean g' "bn1"
    = Some (spec_decay
              (spec_decay (spec_batch_mean inputs.A) (spec_batch_mean inputs.A')
                 inputs.momentum)
              (spec_batch_mean inputs.constant_feature) inputs.momentum).
Proof.
  destruct (running_statistics_after_many_calls inputs.A inputs.ga inputs.be
              [(inputs.A', inputs.ga, inputs.be);
               (inputs.constant_feature, inputs.ga, inputs.be)]
              inputs.momentum inputs.eps "bn1" fresh_kernel)
    as (g' & Hrun & Hmean & _).
  - repeat constructor.
  - exact I.
  - reflexivity.
  - reflexivity.
  - exists g'. split; [exact Hrun | exact Hmean].
Defined.

(** X17 on a matrix with negative elements. *)
Lemma relu_clips_at_zero_witness :
  nd.shape (relu samples.signed) = [2; 2] ∧
  relu (relu samples.signed) = relu samples.signed.
Proof.
  destruct (relu_clips_at_zero samples.signed eq_refl) as (Hs & _ & _ & Hi & _).
  split; [exact Hs | exact Hi].
Defined.

(** X15 on the matrix [A]. *)
Lemma softmax_rows_witness :
  ∃ out,
    softmax inputs.A = Ok out ∧ nd.shape out = [3; 2] ∧ nd.wf out ∧
    ∀ i j, i < 3 → j < 2 →
      nd.get out [i; j]
      = (exp (nd.get inputs.A [i; j])
         / nd.total (map (λ k, exp (nd.get inputs.A [i; k])) (seq 0 2)))%R ∧
      (0 < nd.get out [i; j] <= 1)%R ∧
      nd.total (map (λ k, nd.get out [i; k]) (seq 0 2)) = 1%R.
Proof. exact (softmax_rows inputs.A 3 2 eq_refl eq_refl). Defined.

(** X16 on the scores [A] and row 0 of [one_hot]. *)
Lemma softmax_cross_entropy_one_hot_witness :
  ∃ loss probabilities,
    softmax_cross_entropy inputs.A samples.one_hot = Ok loss ∧ nd.shape loss = [3] ∧
    softmax inputs.A = Ok probabilities ∧
    nd.get loss [0]
    = (ln (nd.total (map (λ k, exp (nd.get inputs.A [0%nat; k])) (seq 0 2)))
       - nd.get inputs.A [0%nat; 1%nat])%R ∧
    (0 <= nd.get loss [0%nat])%R ∧
    exp (- nd.get loss [0]) = nd.get probabilities [0; 1].
Proof.
  assert (H0 : 0 < 3) by lia. assert (H1 : 1 < 2) by lia.
  exact (softmax_cross_entropy_one_hot inputs.A samples.one_hot 3 2 0 1
           eq_refl eq_refl eq_refl H0 H1 one_hot_row_0).
Defined.

(** X11 on one image in a fresh kernel. *)
Lemma net_returns_witness :
  ∃ yhat_linear g',
    run (net samples.P samples.image true false) fresh_kernel = (Ok yhat_linear, g') ∧
    nd.shape yhat_linear = [1; 10] ∧ trained_net g'.
Proof.
  destruct (net_returns samples.P samples.image true false fresh_kernel 1 sample_shapes
              eq_refl fresh_kernel_ready (or_introl eq_refl))
    as (h1 & h2 & h3 & y & g1 & g2 & g3 & _ & _ & _ & _ & _ & _ & _ & _ & Hsy & _
        & Hrun & _ & Htrained & _).
  exists y, g3. split; [exact Hrun|]. split; [exact Hsy | exact Htrained].
Defined.

(** X13 on one image in a fresh kernel. *)
Lemma net_inference_untrained_witness :
  ∃ e,
    run (net samples.P samples.image false false) fresh_kernel
    = (Raise e, fresh_kernel) ∧
    missing_statistics "bn1" e.
Proof.
  assert (H3 : 3 ≤ 28) by lia.
  exact (net_inference_untrained samples.P samples.image false fresh_kernel 1 28 28
           eq_refl H3 H3 eq_refl eq_refl eq_refl).
Defined.

(** X12 on one image in a fresh kernel, in training mode. *)
Lemma net_moves_the_statistics_witness :
  ∃ h1_conv,
    ndarray.Convolution samples.image (W1 samples.P) (b1 samples.P) (3, 3) 20
    = Ok h1_conv ∧
    running_mean (run (net samples.P samples.image true false) fresh_kernel).2 "bn1"
    = Some (spec_batch_mean h1_conv).
Proof.
  destruct (net_moves_the_statistics samples.P samples.image true false fresh_kernel 1
              sample_shapes eq_refl fresh_kernel_ready (or_introl eq_refl))
    as (c1 & Hc1 & Hmean & _).
  exists c1. split; [exact Hc1 | exact Hmean].
Defined.


(** The arrays at references 0 and 1 have gradients. *)
Lemma sample_gradients param : In param [0; 1] → has_gradient samples.arrays param.
Proof.
  intros [<-|[<-|[]]]; exists inputs.A'; by repeat split.
Qed.

Lemma sample_references : NoDup [0; 1].
Proof. apply (bool_decide_unpack _). vm_compute. exact I. Qed.

(** X18 on the arrays at references 0 and 1. *)
Lemma SGD_steps_every_parameter_witness :
  ∃ h',
    SGD [0; 1] inputs.momentum samples.arrays = (Returns tt, h') ∧
    h' 2 = samples.arrays 2 ∧
    ∀ idx, in_bounds idx [3; 2] →
      nd.get (value (h' 0)) idx
      = (nd.get inputs.A idx - nd.get inputs.A' idx * inputs.momentum)%R.
Proof.
  destruct (SGD_steps_every_parameter [0; 1] inputs.momentum samples.arrays
              sample_references sample_gradients) as (h' & Hrun & Hin & Hout).
  exists h'. split; [exact Hrun|]. split.
  - apply Hout. simpl. lia.
  - intros idx Hidx.
    destruct (Hin 0 (or_introl eq_refl)) as (_ & _ & _ & Hget).
    exact (Hget inputs.A' idx eq_refl Hidx).
Defined.

(** X19 on a list whose third reference has no gradient. *)
Lemma SGD_is_not_atomic_witness :
  ∃ h',
    SGD [0; 1; 2; 3] inputs.momentum samples.arrays
    = (Fails (TypeError "unsupported operand type(s) for *: 'float' and 'NoneType'"),
       h') ∧
    ∀ idx, in_bounds idx [3; 2] →
      nd.get (value (h' 0)) idx
      = (nd.get inputs.A idx - nd.get inputs.A' idx * inputs.momentum)%R.
Proof.
  assert (Hnot : ¬ In 2 [0; 1]) by (simpl; lia).
  destruct (SGD_is_not_atomic [0; 1] 2 [3] inputs.momentum samples.arrays
              sample_references sample_gradients Hnot eq_refl)
    as (h' & _ & Hrun & Hget).
  exists h'. split; [exact Hrun|].
  intros idx Hidx. exact (Hget 0 inputs.A' idx (or_introl eq_refl) eq_refl Hidx).
Defined.

(** X20 on the array at reference 0. *)
Lemma SGD_steps_twice_what_is_listed_twice_witness :
  ∃ h',
    SGD [0; 0] inputs.momentum samples.arrays = (Returns tt, h') ∧
    ∀ idx, in_bounds idx [3; 2] →
      nd.get (value (h' 0)) idx
      = (nd.get inputs.A idx - nd.get inputs.A' idx * inputs.momentum
         - nd.get inputs.A' idx * inputs.momentum)%R.
Proof.
  destruct (SGD_steps_twice_what_is_listed_twice 0 inputs.momentum samples.arrays
              inputs.A' eq_refl eq_refl eq_refl) as (h' & Hrun & _ & Hget).
  exists h'. split; [exact Hrun | exact Hget].
Defined.

(** Over the reals [0. == 0.]. *)
Lemma zero_equals_zero : feqb 0%R 0%R = true.
Proof. unfold feqb. simpl. by destruct (Req_dec_T 0 0). Qed.

(** X22 over the reals. *)
Lemma evaluate_accuracy_of_no_batch_witness :
  evaluate_accuracy [] samples.scores_net fresh_kernel
  = (Fails (ZeroDivisionError "float division by zero"), fresh_kernel).
Proof.
  exact (evaluate_accuracy_of_no_batch samples.scores_net fresh_kernel zero_equals_zero).
Defined.

(** X21 on the scores [A]: two correct rows of three. *)
Lemma evaluate_accuracy_counts_witness :
  evaluate_accuracy [(inputs.A, samples.classes)] samples.scores_net fresh_kernel
  = (Returns (INR 2 / INR 3)%R, fresh_kernel).
Proof.
  assert (H3 : 0 < 3) by lia.
  exact (proj1 (evaluate_accuracy_counts samples.scores_net
                  [(inputs.A, samples.classes)] fresh_kernel 2 3 fresh_kernel
                  sample_tally H3)).
Defined.

(** X23 on one image in a fresh kernel. *)
Lemma evaluate_accuracy_before_training_witness :
  ∃ e,
    evaluate_accuracy [(samples.image, samples.label)]
      (λ X is_training, net samples.P X is_training false) fresh_kernel
    = (Fails (Raised e), fresh_kernel) ∧
    missing_statistics "bn1" e.
Proof.
  assert (H3 : 3 ≤ 28) by lia.
  exact (evaluate_accuracy_before_training samples.P samples.image samples.label []
           fresh_kernel 1 28 28 eq_refl H3 H3 eq_refl eq_refl eq_refl).
Defined.



